(** * MediaCloud frontend: session, unauthorized-response handler and media view

    A shallow embedding of the Angular client's core services
    ([auth.service.ts], [auth.guard.ts], [error.interceptor.ts],
    [media.service.ts], [home.component.ts]) and the properties of its
    session lifecycle, search projection, per-item operation guard and
    storage widget. *)

From Stdlib Require Import ZArith QArith Qminmax Lia Bool Ascii String.
From Stdlib Require Import Floats.SpecFloat.
From stdpp Require Import base option list gmap sets strings pretty.

Set Warnings "-register-all".

Local Open Scope Z_scope.
Local Open Scope string_scope.

(** ** JavaScript values

    Interfaces such as [User] are erased at run time: what [JSON.parse]
    returns, and what the services pass around, is an arbitrary value.
    Numbers are modelled by exact rationals. *)

Module Js.

Inductive JsValue : Type :=
  | JNull
  | JBool (b : bool)
  | JNum (q : Q)
  | JStr (s : string)
  | JArr (elems : list JsValue)
  | JObj (fields : list (string * JsValue)).

(** Comparison of numbers: [x < y] as a boolean. *)
Definition Qlt_bool (x y : Q) : bool := negb (Qle_bool y x).

(** ToBoolean: [null], [false], [0] and the empty string are falsy. *)
Definition truthy (v : JsValue) : bool :=
  match v with
  | JNull => false
  | JBool b => b
  | JNum q => negb (Qeq_bool q 0)
  | JStr s => negb (String.eqb s "")
  | JArr _ => true
  | JObj _ => true
  end.

(** Own property of a parsed object; a later duplicate key wins. *)
Fixpoint obj_get (k : string) (fields : list (string * JsValue)) : option JsValue :=
  match fields with
  | [] => None
  | (k', v) :: rest =>
      match obj_get k rest with
      | Some w => Some w
      | None => if String.eqb k k' then Some v else None
      end
  end.

(** Outcome of an expression that may throw. *)
Inductive Completion (A : Type) : Type :=
  | Normal (a : A)
  | Throw.
Arguments Normal {A} a.
Arguments Throw {A}.

(** [v.k] for a value produced by [JSON.parse]: reading a property of
    [null] throws a TypeError; primitives and arrays have no such
    property ([undefined], here [None]). *)
Definition get_prop (v : JsValue) (k : string) : Completion (option JsValue) :=
  match v with
  | JNull => Throw
  | JObj fields => Normal (obj_get k fields)
  | _ => Normal None
  end.

End Js.
Export Js.

(** ** Platform functions

    [atob], [JSON.parse], [JSON.stringify] and the numeric coercion of
    strings and objects belong to the browser, not to this code base; the
    services are defined and verified for any implementation of them.
    [None] stands for a thrown exception. *)

Class Platform : Type := {
  atob : string -> option string;
  JSON_parse : string -> option JsValue;
  JSON_stringify : JsValue -> string;
  (** ToNumber of a string, array or object operand of [<]:
      [Throw] for a TypeError, [Normal None] for NaN. *)
  ToNumber_coerce : JsValue -> Completion (option Q)
}.

(** [v < n] for a number [n] (abstract relational comparison). *)
Definition js_lt `{Platform} (v : JsValue) (n : Q) : Completion bool :=
  match v with
  | JNum q => Normal (Qlt_bool q n)
  | JBool b => Normal (Qlt_bool (if b then 1 else 0) n)
  | JNull => Normal (Qlt_bool 0 n)
  | _ =>
      match ToNumber_coerce v with
      | Throw => Throw
      | Normal None => Normal false
      | Normal (Some q) => Normal (Qlt_bool q n)
      end
  end.

(** ** Strings

    Strings are sequences of 8-bit code units (Latin-1); the functions
    below are those of [String.prototype] on that range. *)

Module JsString.

Definition code (c : ascii) : nat := nat_of_ascii c.

(** White space removed by [trim]: TAB, LF, VT, FF, CR, SP, NBSP. *)
Definition is_whitespace (c : ascii) : bool :=
  let n := code c in
  ((9 <=? n) && (n <=? 13) || (n =? 32) || (n =? 160))%nat.

Definition is_upper (c : ascii) : bool :=
  let n := code c in
  ((65 <=? n) && (n <=? 90)
   || (192 <=? n) && (n <=? 214)
   || (216 <=? n) && (n <=? 222))%nat.

Definition lower_char (c : ascii) : ascii :=
  if is_upper c then ascii_of_nat (code c + 32) else c.

Fixpoint toLowerCase (s : string) : string :=
  match s with
  | EmptyString => EmptyString
  | String c rest => String (lower_char c) (toLowerCase rest)
  end.

Fixpoint trimStart (s : string) : string :=
  match s with
  | EmptyString => EmptyString
  | String c rest => if is_whitespace c then trimStart rest else s
  end.

Fixpoint trimEnd (s : string) : string :=
  match s with
  | EmptyString => EmptyString
  | String c rest =>
      match trimEnd rest with
      | EmptyString => if is_whitespace c then EmptyString else String c EmptyString
      | rest' => String c rest'
      end
  end.

Definition trim (s : string) : string := trimEnd (trimStart s).

Fixpoint startsWith (s q : string) : bool :=
  match q, s with
  | EmptyString, _ => true
  | String _ _, EmptyString => false
  | String b q', String a s' => Ascii.eqb a b && startsWith s' q'
  end.

Fixpoint includes (s q : string) : bool :=
  startsWith s q
  || match s with
     | EmptyString => false
     | String _ rest => includes rest q
     end.

End JsString.

(** ** The browser and router state shared by the services

    [localStorage] and the router are process-wide; [AuthService] owns
    [currentUserSubject] and [isLoggingOut]. Every write and every
    navigation request is also recorded, in program order, in [trace]. *)

Inductive Effect : Type :=
  | SetFlag (b : bool)                  (* this.isLoggingOut = b *)
  | StorageSet (k v : string)           (* localStorage.setItem(k, v) *)
  | StorageRemove (k : string)          (* localStorage.removeItem(k) *)
  | Next (u : JsValue)                  (* currentUserSubject.next(u) *)
  | Navigate (path : string).           (* router.navigate([path]) *)

(** What was chained on a [router.navigate] promise. *)
Inductive Continuation : Type :=
  | ThenClearFlag      (* .then(() => { this.isLoggingOut = false; }) *)
  | NoContinuation.

Record World : Type := {
  localStorage : gmap string string;
  navigations : list Continuation;     (* promises not yet settled *)
  currentUserSubject : JsValue;
  isLoggingOut : bool;
  trace : list Effect
}.

Definition emit (e : Effect) (w : World) : World :=
  {| localStorage := localStorage w; navigations := navigations w;
     currentUserSubject := currentUserSubject w;
     isLoggingOut := isLoggingOut w; trace := trace w ++ [e] |}.

Definition set_isLoggingOut (b : bool) (w : World) : World :=
  emit (SetFlag b)
    {| localStorage := localStorage w; navigations := navigations w;
       currentUserSubject := currentUserSubject w;
       isLoggingOut := b; trace := trace w |}.

Definition getItem (k : string) (w : World) : option string :=
  localStorage w !! k.

Definition setItem (k v : string) (w : World) : World :=
  emit (StorageSet k v)
    {| localStorage := <[k := v]> (localStorage w);
       navigations := navigations w;
       currentUserSubject := currentUserSubject w;
       isLoggingOut := isLoggingOut w; trace := trace w |}.

Definition removeItem (k : string) (w : World) : World :=
  emit (StorageRemove k)
    {| localStorage := delete k (localStorage w);
       navigations := navigations w;
       currentUserSubject := currentUserSubject w;
       isLoggingOut := isLoggingOut w; trace := trace w |}.

Definition next (u : JsValue) (w : World) : World :=
  emit (Next u)
    {| localStorage := localStorage w; navigations := navigations w;
       currentUserSubject := u;
       isLoggingOut := isLoggingOut w; trace := trace w |}.

(** [router.navigate([path])], with the continuation attached to the
    promise it returns; the promise settles later, see [settle]. *)
Definition navigate (path : string) (k : Continuation) (w : World) : World :=
  emit (Navigate path)
    {| localStorage := localStorage w;
       navigations := navigations w ++ [k];
       currentUserSubject := currentUserSubject w;
       isLoggingOut := isLoggingOut w; trace := trace w |}.

(** How a navigation promise settles: the router fulfils it (with
    [true], or with [false] for a cancelled navigation) or rejects it
    (the navigation threw). *)
Inductive Settlement : Type :=
  | Fulfilled
  | Rejected.

(** The continuations are chained with [then(onFulfilled)] alone: a
    rejection runs none of them. *)
Definition run_continuation (k : Continuation) (outcome : Settlement) (w : World) : World :=
  match k, outcome with
  | ThenClearFlag, Fulfilled => set_isLoggingOut false w
  | ThenClearFlag, Rejected => w
  | NoContinuation, _ => w
  end.

(** The [i]-th pending navigation promise settles with [outcome]. *)
Definition settle (i : nat) (outcome : Settlement) (w : World) : World :=
  match navigations w !! i with
  | None => w
  | Some k =>
      run_continuation k outcome
        {| localStorage := localStorage w;
           navigations := take i (navigations w) ++ drop (S i) (navigations w);
           currentUserSubject := currentUserSubject w;
           isLoggingOut := isLoggingOut w; trace := trace w |}
  end.

Notation "w |> f" := (f w) (at level 45, left associativity, only parsing).

(** [String.prototype.split] with a one-character separator. *)
Fixpoint split (sep : ascii) (s : string) : list string :=
  match s with
  | EmptyString => [""]
  | String c rest =>
      match split sep rest with
      | [] => [""]
      | p :: ps => if Ascii.eqb c sep then "" :: p :: ps else String c p :: ps
      end
  end.

(** A string used as a condition: only the empty string is falsy. *)
Definition nonempty (s : string) : bool := negb (String.eqb s "").

(** ** auth.service.ts *)

Module AuthService.

Definition TOKEN_KEY : string := "token".
Definition USER_KEY : string := "user".

Record AuthResponse : Type := { accessToken : string; user : JsValue }.

Definition logout (w : World) : World :=
  if isLoggingOut w then w
  else
    w |> set_isLoggingOut true
      |> removeItem TOKEN_KEY
      |> removeItem USER_KEY
      |> next JNull
      |> navigate "/login" ThenClearFlag.

Definition getToken (w : World) : option string := getItem TOKEN_KEY w.

Definition getUser (w : World) : JsValue := currentUserSubject w.

Definition handleAuthSuccess `{Platform} (response : AuthResponse) (w : World) : World :=
  w |> setItem TOKEN_KEY (accessToken response)
    |> setItem USER_KEY (JSON_stringify (user response))
    |> next (user response).

Definition getUserFromStorage `{Platform} (w : World) : JsValue * World :=
  match getItem USER_KEY w with
  | Some userStr =>
      if nonempty userStr then
        match JSON_parse userStr with
        | Some u => (u, w)
        | None => (JNull, removeItem USER_KEY w)
        end
      else (JNull, w)
  | None => (JNull, w)
  end.

(** [Date_now] is the value of [Date.now()], in milliseconds. *)
Definition isTokenExpired `{Platform} (token : string) (Date_now : Z) : bool :=
  let parts := split "." token in
  if negb (length parts =? 3)%nat then true
  else
    match atob (nth 1 parts "") with
    | None => true
    | Some decoded =>
        match JSON_parse decoded with
        | None => true
        | Some payload =>
            match get_prop payload "exp" with
            | Throw => true
            | Normal None => true
            | Normal (Some exp) =>
                if negb (truthy exp) then true
                else
                  let currentTime := Date_now / 1000 in
                  match js_lt exp (inject_Z currentTime) with
                  | Throw => true
                  | Normal isExpired => isExpired
                  end
            end
        end
    end.

Definition isAuthenticated `{Platform} (Date_now : Z) (w : World) : bool * World :=
  if isLoggingOut w then (false, w)
  else
    match getToken w with
    | None => (false, w)
    | Some token =>
        if negb (nonempty token) then (false, w)
        else if isTokenExpired token Date_now then (false, logout w)
        else (true, w)
    end.

(** Field initialisers of the service, run once at start-up over the
    durable store found in the browser. *)
Definition init `{Platform} (store : gmap string string) : World :=
  let w0 := {| localStorage := store; navigations := [];
               currentUserSubject := JNull; isLoggingOut := false;
               trace := [] |} in
  let '(u, w1) := getUserFromStorage w0 in
  {| localStorage := localStorage w1; navigations := navigations w1;
     currentUserSubject := u; isLoggingOut := false; trace := trace w1 |}.

End AuthService.

(** ** auth.guard.ts *)

Module AuthGuard.

Definition canActivate `{Platform} (Date_now : Z) (w : World) : bool * World :=
  let '(ok, w1) := AuthService.isAuthenticated Date_now w in
  if ok then (true, w1)
  else (false, navigate "/login" NoContinuation w1).

End AuthGuard.

(** ** error.interceptor.ts *)

Record HttpErrorResponse : Type := {
  status : Z;
  error_message : option string   (* error.error?.error *)
}.

(** What an HTTP observable delivers to its subscriber. *)
Inductive HttpResult (A : Type) : Type :=
  | HttpOk (body : A)
  | HttpError (e : HttpErrorResponse).
Arguments HttpOk {A} body.
Arguments HttpError {A} e.

Module ErrorInterceptor.

(** The [catchError] callback: the world after its side effects, and the
    error of the observable it returns ([throwError(() => error)]). *)
Definition onError `{Platform} (error : HttpErrorResponse) (Date_now : Z)
    (w : World) : World * HttpErrorResponse :=
  let w' :=
    if (status error =? 401)%Z then
      let '(ok, w1) := AuthService.isAuthenticated Date_now w in
      if ok then AuthService.logout w1
      else navigate "/login" NoContinuation w1
    else w in
  (w', error).

(** [next.handle(req).pipe(catchError(...))] applied to what the
    transport delivers. *)
Definition intercept `{Platform} {A : Type} (r : HttpResult A) (Date_now : Z)
    (w : World) : World * HttpResult A :=
  match r with
  | HttpOk body => (w, HttpOk body)
  | HttpError error =>
      let '(w', e) := onError error Date_now w in (w', HttpError e)
  end.

End ErrorInterceptor.

(** ** Schedules of the session

    The client is single-threaded: calls and promise settlements run one
    after the other, in any order. *)

Inductive SessionEvent : Type :=
  | CallLogout
  | CallIsAuthenticated (Date_now : Z)
  | CallCanActivate (Date_now : Z)
  | AuthSucceeds (response : AuthService.AuthResponse)
  | ErrorIntercepted (error : HttpErrorResponse) (Date_now : Z)
  | NavigationSettles (i : nat) (outcome : Settlement).

Definition session_step `{Platform} (ev : SessionEvent) (w : World) : World :=
  match ev with
  | CallLogout => AuthService.logout w
  | CallIsAuthenticated now => snd (AuthService.isAuthenticated now w)
  | CallCanActivate now => snd (AuthGuard.canActivate now w)
  | AuthSucceeds r => AuthService.handleAuthSuccess r w
  | ErrorIntercepted e now => fst (ErrorInterceptor.onError e now w)
  | NavigationSettles i outcome => settle i outcome w
  end.

Definition session_run `{Platform} (evs : list SessionEvent) (w : World) : World :=
  foldl (fun w ev => session_step ev w) w evs.

(** Number of effects of a trace that satisfy [p]. *)
Fixpoint count_effects (p : Effect -> bool) (tr : list Effect) : nat :=
  match tr with
  | [] => 0%nat
  | e :: rest => ((if p e then 1 else 0) + count_effects p rest)%nat
  end.

Definition is_token_removal (e : Effect) : bool :=
  match e with
  | StorageRemove k => String.eqb k AuthService.TOKEN_KEY
  | _ => false
  end.

Definition is_navigation (e : Effect) : bool :=
  match e with Navigate _ => true | _ => false end.

Definition is_null_publication (e : Effect) : bool :=
  match e with Next JNull => true | _ => false end.

(** ** media.service.ts *)

Module MediaService.

Inductive MediaType : Type := photo | video | audio.

Record MediaItem : Type := {
  id : string;
  type : MediaType;
  title : string;
  sizeBytes : Q;
  isFavorite : bool;
  isDeleted : bool;
  createdAt : string
}.

Record StorageSummary : Type := {
  usedBytes : Q;
  quotaBytes : Q;
  availableBytes : Q;
  usagePercentage : Q;
  updatedAt : string
}.

Definition getPlanDisplayName (quotaBytes : Q) : string :=
  let gb := (quotaBytes / (1024 * 1024 * 1024))%Q in
  if Qle_bool gb 5 then "Free Plan"
  else if Qle_bool gb 100 then "Pro Plan"
  else "Enterprise Plan".

End MediaService.


(** ** home.component.ts *)

Module HomeComponent.
Import MediaService JsString.

(** Items are objects shared by reference between [mediaItems],
    [filteredItems] and the callbacks that captured them: [heap] holds
    the objects, a [loc] is a reference. [inflight] lists the subscribed
    requests that have not completed, [alerts] the messages passed to
    [alert], and [authService] is the injected session service. *)
Abbreviation loc := nat (only parsing).

Record Filters : Type := {
  filter_type : option MediaType;
  filter_favorites : option bool;
  filter_trash : option bool
}.

Definition no_filters : Filters :=
  {| filter_type := None; filter_favorites := None; filter_trash := None |}.

Record File : Type := {
  file_name : string;
  file_size : Z;
  file_type : string
}.

(** A request of [MediaService] together with the variables its
    subscriber closes over ([item], [fileId]). *)
Inductive Request : Type :=
  | ReqGetMedia (filters : Filters)
  | ReqGetStorageSummary
  | ReqUploadMedia (file : File) (title : string) (fileId : string)
  | ReqToggleFavorite (item : loc) (mediaId : string) (isFavorite : bool)
  | ReqToggleTrash (item : loc) (mediaId : string) (isDeleted : bool)
  | ReqDeleteMedia (item : loc) (mediaId : string).

(** Response bodies; [storage] is the optional [response.storage]. *)
Inductive Body : Type :=
  | MediaListResponse (items : list MediaItem)
  | SummaryResponse (summary : StorageSummary)
  | UploadResponse (item : MediaItem) (storage : option StorageSummary)
  | MutationResponse (success : bool) (storage : option StorageSummary).

Record State : Type := {
  mediaItems : list loc;
  filteredItems : list loc;
  activeTab : string;
  searchQuery : string;
  isLoading : bool;
  uploadingFiles : gset string;
  operatingItems : gset string;
  uploadProgress : gmap string Q;
  uploadError : option string;
  storageSummary : option StorageSummary;
  storageLoading : bool;
  heap : list MediaItem;
  inflight : list Request;
  alerts : list string;
  authService : World
}.

Definition set_mediaItems (v : list loc) (s : State) : State :=
  {| mediaItems := v;
     filteredItems := filteredItems s;
     activeTab := activeTab s;
     searchQuery := searchQuery s;
     isLoading := isLoading s;
     uploadingFiles := uploadingFiles s;
     operatingItems := operatingItems s;
     uploadProgress := uploadProgress s;
     uploadError := uploadError s;
     storageSummary := storageSummary s;
     storageLoading := storageLoading s;
     heap := heap s;
     inflight := inflight s;
     alerts := alerts s;
     authService := authService s |}.

Definition set_filteredItems (v : list loc) (s : State) : State :=
  {| mediaItems := mediaItems s;
     filteredItems := v;
     activeTab := activeTab s;
     searchQuery := searchQuery s;
     isLoading := isLoading s;
     uploadingFiles := uploadingFiles s;
     operatingItems := operatingItems s;
     uploadProgress := uploadProgress s;
     uploadError := uploadError s;
     storageSummary := storageSummary s;
     storageLoading := storageLoading s;
     heap := heap s;
     inflight := inflight s;
     alerts := alerts s;
     authService := authService s |}.

Definition set_activeTab (v : string) (s : State) : State :=
  {| mediaItems := mediaItems s;
     filteredItems := filteredItems s;
     activeTab := v;
     searchQuery := searchQuery s;
     isLoading := isLoading s;
     uploadingFiles := uploadingFiles s;
     operatingItems := operatingItems s;
     uploadProgress := uploadProgress s;
     uploadError := uploadError s;
     storageSummary := storageSummary s;
     storageLoading := storageLoading s;
     heap := heap s;
     inflight := inflight s;
     alerts := alerts s;
     authService := authService s |}.

Definition set_searchQuery (v : string) (s : State) : State :=
  {| mediaItems := mediaItems s;
     filteredItems := filteredItems s;
     activeTab := activeTab s;
     searchQuery := v;
     isLoading := isLoading s;
     uploadingFiles := uploadingFiles s;
     operatingItems := operatingItems s;
     uploadProgress := uploadProgress s;
     uploadError := uploadError s;
     storageSummary := storageSummary s;
     storageLoading := storageLoading s;
     heap := heap s;
     inflight := inflight s;
     alerts := alerts s;
     authService := authService s |}.

Definition set_isLoading (v : bool) (s : State) : State :=
  {| mediaItems := mediaItems s;
     filteredItems := filteredItems s;
     activeTab := activeTab s;
     searchQuery := searchQuery s;
     isLoading := v;
     uploadingFiles := uploadingFiles s;
     operatingItems := operatingItems s;
     uploadProgress := uploadProgress s;
     uploadError := uploadError s;
     storageSummary := storageSummary s;
     storageLoading := storageLoading s;
     heap := heap s;
     inflight := inflight s;
     alerts := alerts s;
     authService := authService s |}.

Definition set_uploadingFiles (v : gset string) (s : State) : State :=
  {| mediaItems := mediaItems s;
     filteredItems := filteredItems s;
     activeTab := activeTab s;
     searchQuery := searchQuery s;
     isLoading := isLoading s;
     uploadingFiles := v;
     operatingItems := operatingItems s;
     uploadProgress := uploadProgress s;
     uploadError := uploadError s;
     storageSummary := storageSummary s;
     storageLoading := storageLoading s;
     heap := heap s;
     inflight := inflight s;
     alerts := alerts s;
     authService := authService s |}.

Definition set_operatingItems (v : gset string) (s : State) : State :=
  {| mediaItems := mediaItems s;
     filteredItems := filteredItems s;
     activeTab := activeTab s;
     searchQuery := searchQuery s;
     isLoading := isLoading s;
     uploadingFiles := uploadingFiles s;
     operatingItems := v;
     uploadProgress := uploadProgress s;
     uploadError := uploadError s;
     storageSummary := storageSummary s;
     storageLoading := storageLoading s;
     heap := heap s;
     inflight := inflight s;
     alerts := alerts s;
     authService := authService s |}.

Definition set_uploadProgress (v : gmap string Q) (s : State) : State :=
  {| mediaItems := mediaItems s;
     filteredItems := filteredItems s;
     activeTab := activeTab s;
     searchQuery := searchQuery s;
     isLoading := isLoading s;
     uploadingFiles := uploadingFiles s;
     operatingItems := operatingItems s;
     uploadProgress := v;
     uploadError := uploadError s;
     storageSummary := storageSummary s;
     storageLoading := storageLoading s;
     heap := heap s;
     inflight := inflight s;
     alerts := alerts s;
     authService := authService s |}.

Definition set_uploadError (v : option string) (s : State) : State :=
  {| mediaItems := mediaItems s;
     filteredItems := filteredItems s;
     activeTab := activeTab s;
     searchQuery := searchQuery s;
     isLoading := isLoading s;
     uploadingFiles := uploadingFiles s;
     operatingItems := operatingItems s;
     uploadProgress := uploadProgress s;
     uploadError := v;
     storageSummary := storageSummary s;
     storageLoading := storageLoading s;
     heap := heap s;
     inflight := inflight s;
     alerts := alerts s;
     authService := authService s |}.

Definition set_storageSummary (v : option StorageSummary) (s : State) : State :=
  {| mediaItems := mediaItems s;
     filteredItems := filteredItems s;
     activeTab := activeTab s;
     searchQuery := searchQuery s;
     isLoading := isLoading s;
     uploadingFiles := uploadingFiles s;
     operatingItems := operatingItems s;
     uploadProgress := uploadProgress s;
     uploadError := uploadError s;
     storageSummary := v;
     storageLoading := storageLoading s;
     heap := heap s;
     inflight := inflight s;
     alerts := alerts s;
     authService := authService s |}.

Definition set_storageLoading (v : bool) (s : State) : State :=
  {| mediaItems := mediaItems s;
     filteredItems := filteredItems s;
     activeTab := activeTab s;
     searchQuery := searchQuery s;
     isLoading := isLoading s;
     uploadingFiles := uploadingFiles s;
     operatingItems := operatingItems s;
     uploadProgress := uploadProgress s;
     uploadError := uploadError s;
     storageSummary := storageSummary s;
     storageLoading := v;
     heap := heap s;
     inflight := inflight s;
     alerts := alerts s;
     authService := authService s |}.

Definition set_heap (v : list MediaItem) (s : State) : State :=
  {| mediaItems := mediaItems s;
     filteredItems := filteredItems s;
     activeTab := activeTab s;
     searchQuery := searchQuery s;
     isLoading := isLoading s;
     uploadingFiles := uploadingFiles s;
     operatingItems := operatingItems s;
     uploadProgress := uploadProgress s;
     uploadError := uploadError s;
     storageSummary := storageSummary s;
     storageLoading := storageLoading s;
     heap := v;
     inflight := inflight s;
     alerts := alerts s;
     authService := authService s |}.

Definition set_inflight (v : list Request) (s : State) : State :=
  {| mediaItems := mediaItems s;
     filteredItems := filteredItems s;
     activeTab := activeTab s;
     searchQuery := searchQuery s;
     isLoading := isLoading s;
     uploadingFiles := uploadingFiles s;
     operatingItems := operatingItems s;
     uploadProgress := uploadProgress s;
     uploadError := uploadError s;
     storageSummary := storageSummary s;
     storageLoading := storageLoading s;
     heap := heap s;
     inflight := v;
     alerts := alerts s;
     authService := authService s |}.

Definition set_alerts (v : list string) (s : State) : State :=
  {| mediaItems := mediaItems s;
     filteredItems := filteredItems s;
     activeTab := activeTab s;
     searchQuery := searchQuery s;
     isLoading := isLoading s;
     uploadingFiles := uploadingFiles s;
     operatingItems := operatingItems s;
     uploadProgress := uploadProgress s;
     uploadError := uploadError s;
     storageSummary := storageSummary s;
     storageLoading := storageLoading s;
     heap := heap s;
     inflight := inflight s;
     alerts := v;
     authService := authService s |}.

Definition set_authService (v : World) (s : State) : State :=
  {| mediaItems := mediaItems s;
     filteredItems := filteredItems s;
     activeTab := activeTab s;
     searchQuery := searchQuery s;
     isLoading := isLoading s;
     uploadingFiles := uploadingFiles s;
     operatingItems := operatingItems s;
     uploadProgress := uploadProgress s;
     uploadError := uploadError s;
     storageSummary := storageSummary s;
     storageLoading := storageLoading s;
     heap := heap s;
     inflight := inflight s;
     alerts := alerts s;
     authService := v |}.

Definition dispatch (r : Request) (s : State) : State :=
  set_inflight (inflight s ++ [r]) s.

Definition tab_filters (tab : string) : Filters :=
  if String.eqb tab "photos" then
    {| filter_type := Some photo; filter_favorites := None; filter_trash := None |}
  else if String.eqb tab "videos" then
    {| filter_type := Some video; filter_favorites := None; filter_trash := None |}
  else if String.eqb tab "audio" then
    {| filter_type := Some audio; filter_favorites := None; filter_trash := None |}
  else if String.eqb tab "favorites" then
    {| filter_type := None; filter_favorites := Some true; filter_trash := None |}
  else if String.eqb tab "trash" then
    {| filter_type := None; filter_favorites := None; filter_trash := Some true |}
  else no_filters.

Definition loadMedia (s : State) : State :=
  s |> set_isLoading true
    |> dispatch (ReqGetMedia (tab_filters (activeTab s))).

Definition setActiveTab (tab : string) (s : State) : State :=
  s |> set_activeTab tab |> loadMedia.

Definition title_at (h : list MediaItem) (l : loc) : string :=
  match h !! l with
  | Some it => title it
  | None => ""
  end.

Definition applySearch (s : State) : State :=
  if negb (nonempty (trim (searchQuery s))) then
    set_filteredItems (mediaItems s) s
  else
    let query := trim (toLowerCase (searchQuery s)) in
    set_filteredItems
      (List.filter (fun item => includes (toLowerCase (title_at (heap s) item)) query)
         (mediaItems s))
      s.

Definition onSearch (s : State) : State := applySearch s.

Definition clearSearch (s : State) : State :=
  s |> set_searchQuery "" |> applySearch.

Definition loadStorageSummary (s : State) : State :=
  s |> set_storageLoading true |> dispatch ReqGetStorageSummary.

Definition uploadFile (file : File) (Date_now : Z) (s : State) : State :=
  let title := file_name file in
  let fileId := file_name file +:+ "-" +:+ pretty Date_now in
  s |> set_uploadingFiles ({[ fileId ]} ∪ uploadingFiles s)
    |> (fun s => set_uploadProgress (<[ fileId := 0%Q ]> (uploadProgress s)) s)
    |> set_uploadError None
    |> dispatch (ReqUploadMedia file title fileId).

Definition onFileSelected (file : option File) (Date_now : Z) (s : State) : State :=
  match file with
  | Some f =>
      let s := set_uploadError None s in
      let maxSize := 100 * 1024 * 1024 in
      if (maxSize <? file_size f)%Z then
        set_uploadError (Some "File too large. Maximum size is 100MB.") s
      else if negb (existsb (fun t => startsWith (file_type f) t)
                      ["image/"; "video/"; "audio/"]) then
        set_uploadError
          (Some "Invalid file type. Please select an image, video, or audio file.") s
      else uploadFile f Date_now s
  | None => s
  end.

Definition toggleFavorite (item : loc) (s : State) : option State :=
  it ← heap s !! item;
  if bool_decide (id it ∈ operatingItems s) then Some s
  else
    let s := set_operatingItems ({[ id it ]} ∪ operatingItems s) s in
    let newFavoriteStatus := negb (isFavorite it) in
    Some (dispatch (ReqToggleFavorite item (id it) newFavoriteStatus) s).

Definition toggleTrash (item : loc) (s : State) : option State :=
  it ← heap s !! item;
  if bool_decide (id it ∈ operatingItems s) then Some s
  else
    let s := set_operatingItems ({[ id it ]} ∪ operatingItems s) s in
    let newTrashStatus := negb (isDeleted it) in
    Some (dispatch (ReqToggleTrash item (id it) newTrashStatus) s).

(** [confirmed] is the answer given to the [confirm] dialog. *)
Definition deleteMedia (item : loc) (confirmed : bool) (s : State) : option State :=
  it ← heap s !! item;
  if bool_decide (id it ∈ operatingItems s) then Some s
  else if confirmed then
    let s := set_operatingItems ({[ id it ]} ∪ operatingItems s) s in
    Some (dispatch (ReqDeleteMedia item (id it)) s)
  else Some s.

Definition isOperating (itemId : string) (s : State) : bool :=
  bool_decide (itemId ∈ operatingItems s).

Definition with_isFavorite (b : bool) (it : MediaItem) : MediaItem :=
  {| id := id it; type := type it; title := title it; sizeBytes := sizeBytes it;
     isFavorite := b; isDeleted := isDeleted it; createdAt := createdAt it |}.

Definition with_isDeleted (b : bool) (it : MediaItem) : MediaItem :=
  {| id := id it; type := type it; title := title it; sizeBytes := sizeBytes it;
     isFavorite := isFavorite it; isDeleted := b; createdAt := createdAt it |}.

(** The [operatingItems.delete(item.id)] of a callback. *)
Definition release (it : MediaItem) (s : State) : State :=
  set_operatingItems (operatingItems s ∖ {[ id it ]}) s.

Definition refresh_storage_or_reload (storage : option StorageSummary) (s : State) : State :=
  match storage with
  | Some summary => set_storageSummary (Some summary) s
  | None => loadStorageSummary s
  end.

Definition upload_error_message (error : HttpErrorResponse) : string :=
  if (status error =? 413)%Z then
    match error_message error with
    | Some msg =>
        if includes msg "quota" then msg
        else "File too large. Maximum size is 100MB."
    | None => "File too large. Maximum size is 100MB."
    end
  else if (status error =? 400)%Z then
    match error_message error with
    | Some msg =>
        if nonempty msg then msg
        else "Invalid file. Please check the file type and try again."
    | None => "Invalid file. Please check the file type and try again."
    end
  else if (status error =? 401)%Z then "Authentication failed. Please log in again."
  else "Upload failed. Please try again.".

(** The [next] callback of the subscription made for request [r]; [None]
    when the body is not of the type the request returns. *)
Definition on_next (r : Request) (body : Body) (s : State) : option State :=
  match r, body with
  | ReqGetMedia _, MediaListResponse items =>
      Some (s |> set_mediaItems (seq (length (heap s)) (length items))
              |> set_heap (heap s ++ items)
              |> applySearch
              |> set_isLoading false)
  | ReqGetStorageSummary, SummaryResponse summary =>
      Some (s |> set_storageSummary (Some summary)
              |> set_storageLoading false)
  | ReqUploadMedia _ _ fileId, UploadResponse _ storage =>
      Some (s |> set_uploadingFiles (uploadingFiles s ∖ {[ fileId ]})
              |> (fun s => set_uploadProgress (delete fileId (uploadProgress s)) s)
              |> refresh_storage_or_reload storage
              |> loadMedia)
  | ReqToggleFavorite item _ newFavoriteStatus, MutationResponse _ _ =>
      it ← heap s !! item;
      let it := with_isFavorite newFavoriteStatus it in
      let s := s |> set_heap (<[ item := it ]> (heap s)) |> release it in
      Some (if String.eqb (activeTab s) "favorites" && negb newFavoriteStatus
            then loadMedia s else s)
  | ReqToggleTrash item _ newTrashStatus, MutationResponse _ storage =>
      it ← heap s !! item;
      let it := with_isDeleted newTrashStatus it in
      let s := s |> set_heap (<[ item := it ]> (heap s)) |> release it in
      let s := match storage with
               | Some summary => set_storageSummary (Some summary) s
               | None => s
               end in
      Some (if negb (String.eqb (activeTab s) "trash") && newTrashStatus
            then loadMedia s else s)
  | ReqDeleteMedia item _, MutationResponse _ storage =>
      it ← heap s !! item;
      Some (s |> release it
              |> refresh_storage_or_reload storage
              |> loadMedia)
  | _, _ => None
  end.

(** The [error] callback of the subscription made for request [r]. *)
Definition on_error (r : Request) (error : HttpErrorResponse) (s : State) : option State :=
  match r with
  | ReqGetMedia _ =>
      let s := if (status error =? 401)%Z
               then set_authService (AuthService.logout (authService s)) s
               else s in
      Some (set_isLoading false s)
  | ReqGetStorageSummary => Some (set_storageLoading false s)
  | ReqUploadMedia _ _ fileId =>
      Some (s |> set_uploadingFiles (uploadingFiles s ∖ {[ fileId ]})
              |> (fun s => set_uploadProgress (delete fileId (uploadProgress s)) s)
              |> set_uploadError (Some (upload_error_message error)))
  | ReqToggleFavorite item _ _ =>
      it ← heap s !! item;
      Some (s |> release it
              |> (fun s => set_alerts
                   (alerts s ++ ["Failed to update favorite status. Please try again."]) s))
  | ReqToggleTrash item _ _ =>
      it ← heap s !! item;
      Some (s |> release it
              |> (fun s => set_alerts
                   (alerts s ++ ["Failed to move item to trash. Please try again."]) s))
  | ReqDeleteMedia item _ =>
      it ← heap s !! item;
      Some (s |> release it
              |> (fun s => set_alerts
                   (alerts s ++ ["Failed to delete item. Please try again."]) s))
  end.

(** The [n]-th request in flight completes with [result]. *)
Definition complete (n : nat) (result : HttpResult Body) (s : State) : option State :=
  r ← inflight s !! n;
  let s := set_inflight (take n (inflight s) ++ drop (S n) (inflight s)) s in
  match result with
  | HttpOk body => on_next r body s
  | HttpError error => on_error r error s
  end.

Definition getPlanDisplayName (s : State) : string :=
  match storageSummary s with
  | None => ""
  | Some summary => MediaService.getPlanDisplayName (quotaBytes summary)
  end.

Definition getStoragePercentage (s : State) : Q :=
  match storageSummary s with
  | None => 0
  | Some summary =>
      if Qeq_bool (quotaBytes summary) 0 then 0
      else Qmin 100 (usedBytes summary / quotaBytes summary * 100)
  end.

(** Field initialisers, then [ngOnInit]. *)
Definition created (auth : World) : State :=
  {| mediaItems := []; filteredItems := []; activeTab := "photos";
     searchQuery := ""; isLoading := false; uploadingFiles := ∅;
     operatingItems := ∅; uploadProgress := ∅; uploadError := None;
     storageSummary := None; storageLoading := false;
     heap := []; inflight := []; alerts := []; authService := auth |}.

Definition ngOnInit (s : State) : State :=
  s |> loadMedia |> loadStorageSummary.

(** What can happen to the component, one event at a time. *)
Inductive Event : Type :=
  | EvSetActiveTab (tab : string)
  | EvTypeSearch (q : string)
  | EvClearSearch
  | EvFileSelected (file : option File) (Date_now : Z)
  | EvToggleFavorite (item : loc)
  | EvToggleTrash (item : loc)
  | EvDeleteMedia (item : loc) (confirmed : bool)
  | EvCompletes (n : nat) (result : HttpResult Body).

Definition step (ev : Event) (s : State) : option State :=
  match ev with
  | EvSetActiveTab tab => Some (setActiveTab tab s)
  | EvTypeSearch q => Some (s |> set_searchQuery q |> onSearch)
  | EvClearSearch => Some (clearSearch s)
  | EvFileSelected file now => Some (onFileSelected file now s)
  | EvToggleFavorite item => toggleFavorite item s
  | EvToggleTrash item => toggleTrash item s
  | EvDeleteMedia item confirmed => deleteMedia item confirmed s
  | EvCompletes n result => complete n result s
  end.

Fixpoint run (evs : list Event) (s : State) : option State :=
  match evs with
  | [] => Some s
  | ev :: rest => s' ← step ev s; run rest s'
  end.

End HomeComponent.

(** ** A reference platform

    An executable [Platform], used to run the services on concrete
    tokens and stores: forgiving Base64 decoding as [atob] does it, and a
    JSON reader and printer over 8-bit strings. Numeric strings are read
    in decimal notation only, and a number that is not an integer is
    printed with at most 17 fractional digits. *)

Module Reference.
Import JsString.

Local Open Scope nat_scope.

Definition quote : ascii := ascii_of_nat 34.
Definition backslash : ascii := ascii_of_nat 92.

Definition between (lo hi n : nat) : bool := (lo <=? n) && (n <=? hi).

(** *** atob *)

Definition sextet (c : ascii) : option nat :=
  let n := code c in
  if between 65 90 n then Some (n - 65)
  else if between 97 122 n then Some (n - 71)
  else if between 48 57 n then Some (n + 4)
  else if n =? 43 then Some 62
  else if n =? 47 then Some 63
  else None.

Definition is_base64_space (c : ascii) : bool :=
  let n := code c in
  (n =? 9) || (n =? 10) || (n =? 12) || (n =? 13) || (n =? 32).

Definition strip_padding (data : list ascii) : list ascii :=
  if length data mod 4 =? 0 then
    match rev data with
    | "="%char :: "="%char :: r => rev r
    | "="%char :: r => rev r
    | _ => data
    end
  else data.

Fixpoint sextets (data : list ascii) : option (list N) :=
  match data with
  | [] => Some []
  | c :: rest =>
      match sextet c, sextets rest with
      | Some v, Some vs => Some (N.of_nat v :: vs)
      | _, _ => None
      end
  end.

Fixpoint octets (vs : list N) : list ascii :=
  match vs with
  | a :: b :: c :: d :: rest =>
      let n := (((a * 64 + b) * 64 + c) * 64 + d)%N in
      ascii_of_N (n / 65536) :: ascii_of_N (n / 256 mod 256)
        :: ascii_of_N (n mod 256) :: octets rest
  | [a; b; c] =>
      let n := (((a * 64 + b) * 64 + c) / 4)%N in
      [ascii_of_N (n / 256); ascii_of_N (n mod 256)]
  | [a; b] => [ascii_of_N ((a * 64 + b) / 16)]
  | _ => []
  end.

Definition atob (s : string) : option string :=
  let data := List.filter (fun c => negb (is_base64_space c)) (list_ascii_of_string s) in
  let data := strip_padding data in
  if length data mod 4 =? 1 then None
  else
    match sextets data with
    | Some vs => Some (string_of_list_ascii (octets vs))
    | None => None
    end.

(** *** Numbers in decimal notation *)

Definition digit (c : ascii) : option Z :=
  let n := code c in
  if between 48 57 n then Some (Z.of_nat (n - 48)) else None.

(** Longest prefix of digits, most significant first, and the rest. *)
Fixpoint digits (l : list ascii) : list Z * list ascii :=
  match l with
  | [] => ([], [])
  | c :: rest =>
      match digit c with
      | Some d => let '(ds, r) := digits rest in (d :: ds, r)
      | None => ([], l)
      end
  end.

Definition decimal (ds : list Z) : Z := foldl (fun acc d => (acc * 10 + d)%Z) 0%Z ds.

Definition exponent (l : list ascii) : option (Z * list ascii) :=
  match l with
  | c :: rest =>
      if (code c =? 101) || (code c =? 69) then
        let '(sign, rest) :=
          match rest with
          | "-"%char :: r => ((-1)%Z, r)
          | "+"%char :: r => (1%Z, r)
          | _ => (1%Z, rest)
          end in
        match digits rest with
        | ([], _) => None
        | (ds, r) => Some ((sign * decimal ds)%Z, r)
        end
      else Some (0%Z, l)
  | [] => Some (0%Z, l)
  end.

(** [strict] is the JSON grammar: an integer part without leading zero,
    and digits on both sides of the point. *)
Definition number (strict : bool) (l : list ascii) : option (Q * list ascii) :=
  let '(negative, l) :=
    match l with
    | "-"%char :: r => (true, r)
    | "+"%char :: r => if strict then (false, l) else (false, r)
    | _ => (false, l)
    end in
  let '(ints, l) := digits l in
  let '(fracs, l, point) :=
    match l with
    | "."%char :: r => let '(fs, r') := digits r in (fs, r', true)
    | _ => ([], l, false)
    end in
  let malformed :=
    if strict then
      match ints with
      | [] => true
      | d :: ds => ((d =? 0)%Z && negb (length ds =? 0)) || (point && (length fracs =? 0))
      end
    else (length ints =? 0) && (length fracs =? 0) in
  if malformed then None
  else
    match exponent l with
    | None => None
    | Some (e, r) =>
        let mantissa :=
          (inject_Z (decimal ints)
           + inject_Z (decimal fracs) / inject_Z (10 ^ Z.of_nat (length fracs)))%Q in
        let value := (mantissa * Qpower 10 e)%Q in
        Some (Qred (if negative then - value else value)%Q, r)
    end.

(** *** JSON.parse *)

Definition is_json_space (c : ascii) : bool :=
  let n := code c in (n =? 32) || (n =? 9) || (n =? 10) || (n =? 13).

Fixpoint skip (l : list ascii) : list ascii :=
  match l with
  | c :: rest => if is_json_space c then skip rest else l
  | [] => []
  end.

Definition hex (c : ascii) : option nat :=
  let n := code c in
  if between 48 57 n then Some (n - 48)
  else if between 65 70 n then Some (n - 55)
  else if between 97 102 n then Some (n - 87)
  else None.

(** The characters of a string literal after its opening quote. Escapes
    above U+00FF do not fit the 8-bit strings and are refused. *)
Fixpoint string_body (l : list ascii) : option (string * list ascii) :=
  match l with
  | [] => None
  | c :: rest =>
      if Ascii.eqb c quote then Some (EmptyString, rest)
      else if Ascii.eqb c backslash then
        match rest with
        | "u"%char :: h1 :: h2 :: h3 :: h4 :: rest' =>
            match hex h1, hex h2, hex h3, hex h4, string_body rest' with
            | Some 0, Some 0, Some a, Some b, Some (s, r) =>
                Some (String (ascii_of_nat (a * 16 + b)) s, r)
            | _, _, _, _, _ => None
            end
        | e :: rest' =>
            let unescaped :=
              if Ascii.eqb e quote then Some quote
              else if Ascii.eqb e backslash then Some backslash
              else if Ascii.eqb e "/" then Some "/"%char
              else if Ascii.eqb e "b" then Some (ascii_of_nat 8)
              else if Ascii.eqb e "f" then Some (ascii_of_nat 12)
              else if Ascii.eqb e "n" then Some (ascii_of_nat 10)
              else if Ascii.eqb e "r" then Some (ascii_of_nat 13)
              else if Ascii.eqb e "t" then Some (ascii_of_nat 9)
              else None in
            match unescaped, string_body rest' with
            | Some c', Some (s, r) => Some (String c' s, r)
            | _, _ => None
            end
        | [] => None
        end
      else if code c <? 32 then None
      else
        match string_body rest with
        | Some (s, r) => Some (String c s, r)
        | None => None
        end
  end.

Fixpoint value (fuel : nat) (l : list ascii) : option (JsValue * list ascii) :=
  match fuel with
  | O => None
  | S fuel =>
      match skip l with
      | "n"%char :: "u"%char :: "l"%char :: "l"%char :: r => Some (JNull, r)
      | "t"%char :: "r"%char :: "u"%char :: "e"%char :: r => Some (JBool true, r)
      | "f"%char :: "a"%char :: "l"%char :: "s"%char :: "e"%char :: r =>
          Some (JBool false, r)
      | "["%char :: r =>
          match skip r with
          | "]"%char :: r' => Some (JArr [], r')
          | _ =>
              match elements fuel r with
              | Some (vs, r') => Some (JArr vs, r')
              | None => None
              end
          end
      | "{"%char :: r =>
          match skip r with
          | "}"%char :: r' => Some (JObj [], r')
          | _ =>
              match members fuel r with
              | Some (kvs, r') => Some (JObj kvs, r')
              | None => None
              end
          end
      | c :: r =>
          if Ascii.eqb c quote then
            match string_body r with
            | Some (s, r') => Some (JStr s, r')
            | None => None
            end
          else
            match number true (c :: r) with
            | Some (q, r') => Some (JNum q, r')
            | None => None
            end
      | [] => None
      end
  end
with elements (fuel : nat) (l : list ascii) : option (list JsValue * list ascii) :=
  match fuel with
  | O => None
  | S fuel =>
      match value fuel l with
      | Some (v, r) =>
          match skip r with
          | ","%char :: r' =>
              match elements fuel r' with
              | Some (vs, r'') => Some (v :: vs, r'')
              | None => None
              end
          | "]"%char :: r' => Some ([v], r')
          | _ => None
          end
      | None => None
      end
  end
with members (fuel : nat) (l : list ascii)
    : option (list (string * JsValue) * list ascii) :=
  match fuel with
  | O => None
  | S fuel =>
      match skip l with
      | c :: r =>
          if Ascii.eqb c quote then
            match string_body r with
            | Some (k, r1) =>
                match skip r1 with
                | ":"%char :: r2 =>
                    match value fuel r2 with
                    | Some (v, r3) =>
                        match skip r3 with
                        | ","%char :: r4 =>
                            match members fuel r4 with
                            | Some (kvs, r5) => Some ((k, v) :: kvs, r5)
                            | None => None
                            end
                        | "}"%char :: r4 => Some ([(k, v)], r4)
                        | _ => None
                        end
                    | None => None
                    end
                | _ => None
                end
            | None => None
            end
          else None
      | [] => None
      end
  end.

Definition JSON_parse (s : string) : option JsValue :=
  let l := list_ascii_of_string s in
  match value (2 * length l + 2) l with
  | Some (v, r) =>
      match skip r with
      | [] => Some v
      | _ => None
      end
  | None => None
  end.

(** *** JSON.stringify *)

Fixpoint escape (s : string) : string :=
  match s with
  | EmptyString => EmptyString
  | String c rest =>
      if Ascii.eqb c quote || Ascii.eqb c backslash
      then String backslash (String c (escape rest))
      else String c (escape rest)
  end.

Definition quoted (s : string) : string :=
  String quote (escape s) +:+ String quote EmptyString.

Fixpoint fraction_digits (n : nat) (num : Z) (den : Z) : string :=
  match n with
  | O => EmptyString
  | S n =>
      if (num =? 0)%Z then EmptyString
      else pretty (num * 10 / den)%Z +:+ fraction_digits n ((num * 10) mod den)%Z den
  end.

Definition number_to_string (q : Q) : string :=
  let q := Qred q in
  let den := Z.pos (Qden q) in
  let n := Z.abs (Qnum q) in
  let sign := if (Qnum q <? 0)%Z then "-" else "" in
  if (den =? 1)%Z then sign +:+ pretty n
  else sign +:+ pretty (n / den)%Z +:+ "." +:+ fraction_digits 17 (n mod den)%Z den.

Definition join (parts : list string) : string :=
  match parts with
  | [] => ""
  | p :: ps => foldl (fun acc x => acc +:+ "," +:+ x) p ps
  end.

Fixpoint JSON_stringify (v : JsValue) : string :=
  match v with
  | JNull => "null"
  | JBool b => if b then "true" else "false"
  | JNum q => number_to_string q
  | JStr s => quoted s
  | JArr vs => "[" +:+ join (List.map JSON_stringify vs) +:+ "]"
  | JObj kvs =>
      "{" +:+ join (List.map (fun kv => quoted (fst kv) +:+ ":" +:+ JSON_stringify (snd kv)) kvs)
          +:+ "}"
  end.

(** *** Numeric coercion of the operands of [<] *)

Definition StringToNumber (s : string) : option Q :=
  match list_ascii_of_string (trim s) with
  | [] => Some 0%Q
  | l =>
      match number false l with
      | Some (q, []) => Some q
      | _ => None
      end
  end.

(** An object that shadows [toString] with a JSON value has no usable
    conversion method: the coercion throws. *)
Definition object_to_number (kvs : list (string * JsValue)) : Completion (option Q) :=
  match obj_get "toString" kvs with
  | Some _ => Throw
  | None => Normal None
  end.

Fixpoint ToNumber_coerce (v : JsValue) : Completion (option Q) :=
  match v with
  | JNull => Normal (Some 0%Q)
  | JBool b => Normal (Some (if b then 1 else 0)%Q)
  | JNum q => Normal (Some q)
  | JStr s => Normal (StringToNumber s)
  | JArr [] => Normal (Some 0%Q)
  | JArr [JNull] => Normal (Some 0%Q)
  | JArr [JBool _] => Normal None
  | JArr [x] => ToNumber_coerce x
  | JArr _ => Normal None
  | JObj kvs => object_to_number kvs
  end.

#[global] Instance platform : Platform :=
  Build_Platform atob JSON_parse JSON_stringify ToNumber_coerce.

End Reference.

(** ** Vocabulary of the specification *)

(** The payload of a token: the second of exactly three dot-separated
    segments, Base64-decoded and parsed. [None] when the token does not
    have three segments or decoding throws. *)
Definition payload_of `{Platform} (token : string) : option JsValue :=
  match split "." token with
  | [_; segment; _] =>
      match atob segment with
      | Some decoded => JSON_parse decoded
      | None => None
      end
  | _ => None
  end.

(** The expiry claim of a payload, when it has one. *)
Definition expiry_claim (payload : JsValue) : option JsValue :=
  match get_prop payload "exp" with
  | Normal (Some exp) => Some exp
  | _ => None
  end.

(** The numeric value of a claim (ToNumber): [Normal None] when it has
    none (NaN), [Throw] when the coercion throws. *)
Definition numeric_value `{Platform} (v : JsValue) : Completion (option Q) :=
  match v with
  | JNull => Normal (Some 0%Q)
  | JBool true => Normal (Some 1%Q)
  | JBool false => Normal (Some 0%Q)
  | JNum q => Normal (Some q)
  | JStr _ | JArr _ | JObj _ => ToNumber_coerce v
  end.

(** A claim that the test [!payload.exp] takes for a missing one. *)
Definition falsy (v : JsValue) : Prop :=
  v = JNull \/ v = JBool false \/ v = JStr "" \/ exists q, v = JNum q /\ (q == 0)%Q.

(** The current time in whole seconds, as the check computes it. *)
Definition epoch_seconds (Date_now : Z) : Q := inject_Z (Date_now / 1000).

(** A logout cycle starts when the in-progress flag is raised. *)
Definition is_logout_start (e : Effect) : bool :=
  match e with SetFlag true => true | _ => false end.

Definition logout_cycles (w : World) : nat := count_effects is_logout_start (trace w).

(** The effects of one clear-and-navigate sequence, in order. *)
Definition logout_sequence : list Effect :=
  [SetFlag true;
   StorageRemove AuthService.TOKEN_KEY;
   StorageRemove AuthService.USER_KEY;
   Next JNull;
   Navigate "/login"].

(** Token and user entries of the durable store are both present or
    both absent. *)
Definition paired (store : gmap string string) : Prop :=
  is_Some (store !! AuthService.TOKEN_KEY) <-> is_Some (store !! AuthService.USER_KEY).

(** The stored user entry, if any, can be restored at start-up. *)
Definition restorable `{Platform} (store : gmap string string) : Prop :=
  forall userStr, store !! AuthService.USER_KEY = Some userStr ->
    nonempty userStr = true -> is_Some (JSON_parse userStr).

Definition GiB : Q := 1024 * 1024 * 1024.

Definition clamp (lo hi x : Q) : Q := Qmax lo (Qmin hi x).

(** The four ways the session-presence check can go. *)
Inductive AuthCheck `{Platform} (Date_now : Z) (w : World) : bool * World -> Prop :=
  | CheckLoggingOut :
      isLoggingOut w = true -> AuthCheck Date_now w (false, w)
  | CheckNoToken :
      isLoggingOut w = false ->
      (AuthService.getToken w = None \/ AuthService.getToken w = Some "") ->
      AuthCheck Date_now w (false, w)
  | CheckExpired token :
      isLoggingOut w = false ->
      AuthService.getToken w = Some token ->
      AuthService.isTokenExpired token Date_now = true ->
      AuthCheck Date_now w (false, AuthService.logout w)
  | CheckValid token :
      isLoggingOut w = false ->
      AuthService.getToken w = Some token ->
      AuthService.isTokenExpired token Date_now = false ->
      AuthCheck Date_now w (true, w).

(** Events that neither call [logout] directly nor sign the user in. *)
Definition observes_session (ev : SessionEvent) : Prop :=
  match ev with
  | CallLogout | AuthSucceeds _ => False
  | _ => True
  end.

Definition contains_ignoring_case (title q : string) : Prop :=
  exists before middle after : string,
    title = before +:+ middle +:+ after /\
    JsString.toLowerCase middle = JsString.toLowerCase q.

Definition blank (q : string) : Prop :=
  Forall (fun c => JsString.is_whitespace c = true) (list_ascii_of_string q).

Definition title_matches (title q : string) : bool :=
  JsString.includes (JsString.toLowerCase title) (JsString.toLowerCase q).

Definition mutation_of (mediaId : string) (r : HomeComponent.Request) : bool :=
  match r with
  | HomeComponent.ReqToggleFavorite _ m _
  | HomeComponent.ReqToggleTrash _ m _
  | HomeComponent.ReqDeleteMedia _ m => String.eqb m mediaId
  | _ => false
  end.

(** Number of mutating requests in flight for the item id [mediaId]. *)
Definition mutations_in_flight (mediaId : string) (s : HomeComponent.State) : nat :=
  length (List.filter (mutation_of mediaId) (HomeComponent.inflight s)).

(** The item captured by a mutating request still carries the id the
    request was issued for. *)
Definition bound (h : list MediaService.MediaItem) (r : HomeComponent.Request) : Prop :=
  match r with
  | HomeComponent.ReqToggleFavorite item m _
  | HomeComponent.ReqToggleTrash item m _
  | HomeComponent.ReqDeleteMedia item m =>
      exists it, h !! item = Some it /\ MediaService.id it = m
  | _ => True
  end.

Definition guard_matches_flight (s : HomeComponent.State) : Prop :=
  forall mediaId,
    mutations_in_flight mediaId s =
      if bool_decide (mediaId ∈ HomeComponent.operatingItems s) then 1%nat else 0%nat.

Definition guard_invariant (s : HomeComponent.State) : Prop :=
  guard_matches_flight s /\
  Forall (bound (HomeComponent.heap s)) (HomeComponent.inflight s).

(** [s'] differs from [s], as far as the guard is concerned, only by
    further requests that mutate no item and by new item objects. *)
Definition quiet (s s' : HomeComponent.State) : Prop :=
  HomeComponent.operatingItems s' = HomeComponent.operatingItems s /\
  (exists fresh, HomeComponent.heap s' = (HomeComponent.heap s ++ fresh)%list) /\
  (exists rs, HomeComponent.inflight s' = (HomeComponent.inflight s ++ rs)%list /\
              Forall (fun r => forall m, mutation_of m r = false) rs).

(** What the completion of a mutating request for [m] guarantees. *)
Definition released (m : string) (s' : HomeComponent.State) : Prop :=
  guard_invariant s' /\
  (m ∉ HomeComponent.operatingItems s') /\
  mutations_in_flight m s' = 0%nat.

(** The state of a callback once it has updated the item objects and
    left the guard. *)
Definition after_release (s : HomeComponent.State) (n : nat)
    (h : list MediaService.MediaItem) (it : MediaService.MediaItem) : HomeComponent.State :=
  HomeComponent.release it
    (HomeComponent.set_heap h
       (HomeComponent.set_inflight
          (take n (HomeComponent.inflight s) ++ drop (S n) (HomeComponent.inflight s)) s)).

(** Membership of an item in a tab's list. *)
Definition tab_member (tab : string) (it : MediaService.MediaItem) : bool :=
  let live := negb (MediaService.isDeleted it) in
  if String.eqb tab "photos" then
    match MediaService.type it with MediaService.photo => live | _ => false end
  else if String.eqb tab "videos" then
    match MediaService.type it with MediaService.video => live | _ => false end
  else if String.eqb tab "audio" then
    match MediaService.type it with MediaService.audio => live | _ => false end
  else if String.eqb tab "favorites" then MediaService.isFavorite it && live
  else if String.eqb tab "trash" then MediaService.isDeleted it
  else true.

Definition is_tab (tab : string) : Prop :=
  tab = "photos" \/ tab = "videos" \/ tab = "audio" \/ tab = "favorites" \/ tab = "trash".

(** Requests appended by the success callback of a toggle. *)
Definition reload_if (b : bool) (tab : string) : list HomeComponent.Request :=
  if b then [HomeComponent.ReqGetMedia (HomeComponent.tab_filters tab)] else [].

(** ** Inputs used in the examples *)

Definition summary_70_of_200 : MediaService.StorageSummary :=
  {| MediaService.usedBytes := 70; MediaService.quotaBytes := 200;
     MediaService.availableBytes := 130; MediaService.usagePercentage := 35;
     MediaService.updatedAt := "2024-01-01T00:00:00Z" |}.

Definition summary_negative_quota : MediaService.StorageSummary :=
  {| MediaService.usedBytes := 1; MediaService.quotaBytes := -1;
     MediaService.availableBytes := 0; MediaService.usagePercentage := 0;
     MediaService.updatedAt := "2024-01-01T00:00:00Z" |}.

Definition home_with_summary (summary : MediaService.StorageSummary) : HomeComponent.State :=
  HomeComponent.set_storageSummary (Some summary)
    (HomeComponent.created (AuthService.init ∅)).

(** The token of the repository's expiry test; its payload is
    [{"exp":1600000000}]. *)
Definition test_token : string :=
  "eyJ0eXAiOiJKV1QiLCJhbGciOiJIUzI1NiJ9.eyJleHAiOjE2MDAwMDAwMDB9.invalid".

(** A token whose payload is [{"exp":0}]. *)
Definition zero_expiry_token : string := "e30.eyJleHAiOjB9.x".

(** A token whose payload is [{"exp":"abc"}]. *)
Definition text_expiry_token : string := "e30.eyJleHAiOiJhYmMifQ.x".

Definition signed_in_world : World :=
  {| localStorage := {[ AuthService.TOKEN_KEY := test_token;
                        AuthService.USER_KEY := "u" ]};
     navigations := [];
     currentUserSubject := JStr "u";
     isLoggingOut := false;
     trace := [] |}.

Definition unauthorized : HttpErrorResponse :=
  {| status := 401; error_message := Some "Unauthorized" |}.

Definition test_user : JsValue :=
  JObj [("id", JStr "123"); ("firstName", JStr "Test");
        ("lastName", JStr "User"); ("email", JStr "test@example.com")].

Definition well_formed_store : gmap string string :=
  {[ AuthService.TOKEN_KEY := test_token;
     AuthService.USER_KEY := Reference.JSON_stringify test_user ]}.

(** A store whose user entry is the text of an unfinished object. *)
Definition malformed_user_store : gmap string string :=
  {[ AuthService.TOKEN_KEY := test_token; AuthService.USER_KEY := "{" ]}.

Definition item_titled (itemId title : string) (t : MediaService.MediaType)
    (favorite deleted : bool) : MediaService.MediaItem :=
  {| MediaService.id := itemId; MediaService.type := t; MediaService.title := title;
     MediaService.sizeBytes := 1024; MediaService.isFavorite := favorite;
     MediaService.isDeleted := deleted;
     MediaService.createdAt := "2024-01-01T00:00:00Z" |}.

(** The component after [ngOnInit], once the first list request has
    delivered [items]. *)
Definition home_showing (items : list MediaService.MediaItem) : HomeComponent.State :=
  let started := HomeComponent.ngOnInit (HomeComponent.created (AuthService.init ∅)) in
  default started
    (HomeComponent.complete 0 (HttpOk (HomeComponent.MediaListResponse items)) started).

Definition holiday_items : list MediaService.MediaItem :=
  [item_titled "a" "Vacation.jpg" MediaService.photo false false;
   item_titled "b" "vacuum.mp3" MediaService.audio false false;
   item_titled "c" "beach.png" MediaService.photo false false].

Definition server_error : HttpErrorResponse :=
  {| status := 500; error_message := None |}.

(** The list has arrived; the first item's favourite button is clicked
    twice in a row. *)
Definition double_click : list HomeComponent.Event :=
  [HomeComponent.EvCompletes 0 (HttpOk (HomeComponent.MediaListResponse holiday_items));
   HomeComponent.EvToggleFavorite 0;
   HomeComponent.EvToggleFavorite 0].

Definition trashed_item : MediaService.MediaItem :=
  item_titled "t" "old.png" MediaService.photo false true.

Definition photo_item : MediaService.MediaItem :=
  item_titled "p" "new.png" MediaService.photo false false.

(** The trash tab is opened; the first list, the storage summary and
    the trash list arrive; the listed item is restored and the server
    confirms. *)
Definition restore_in_trash : list HomeComponent.Event :=
  [HomeComponent.EvSetActiveTab "trash";
   HomeComponent.EvCompletes 0 (HttpOk (HomeComponent.MediaListResponse []));
   HomeComponent.EvCompletes 0 (HttpOk (HomeComponent.SummaryResponse summary_70_of_200));
   HomeComponent.EvCompletes 0 (HttpOk (HomeComponent.MediaListResponse [trashed_item]));
   HomeComponent.EvToggleTrash 0;
   HomeComponent.EvCompletes 0 (HttpOk (HomeComponent.MutationResponse true None))].

(** The photos tab shows one item and the storage summary is loaded;
    the item is moved to the trash and the server confirms without a
    storage summary. *)
Definition trash_without_summary : list HomeComponent.Event :=
  [HomeComponent.EvCompletes 0 (HttpOk (HomeComponent.MediaListResponse [photo_item]));
   HomeComponent.EvCompletes 0 (HttpOk (HomeComponent.SummaryResponse summary_70_of_200));
   HomeComponent.EvToggleTrash 0;
   HomeComponent.EvCompletes 0 (HttpOk (HomeComponent.MutationResponse true None))].

(** The same, with a permanent delete in place of the trash toggle. *)
Definition delete_without_summary : list HomeComponent.Event :=
  [HomeComponent.EvCompletes 0 (HttpOk (HomeComponent.MediaListResponse [photo_item]));
   HomeComponent.EvCompletes 0 (HttpOk (HomeComponent.SummaryResponse summary_70_of_200));
   HomeComponent.EvDeleteMedia 0 true;
   HomeComponent.EvCompletes 0 (HttpOk (HomeComponent.MutationResponse true None))].

(** ** Further parts of the client *)

(** *** media.service.ts: the query parameters of [getMedia] *)

Module MediaQuery.

Record Filters : Type := {
  type : option MediaService.MediaType;
  favorites : option bool;
  trash : option bool;
  limit : option Z;
  skip : option Z
}.

Definition type_name (t : MediaService.MediaType) : string :=
  match t with
  | MediaService.photo => "photo"
  | MediaService.video => "video"
  | MediaService.audio => "audio"
  end.

Definition bool_toString (b : bool) : string := if b then "true" else "false".

(** The [params] object, as the list of its entries in insertion
    order. A [limit] or [skip] of 0 is falsy and is left out. *)
Definition getMedia_params (filters : option Filters) : list (string * string) :=
  match filters with
  | None => []
  | Some f =>
      (match type f with
       | Some t => [("type", type_name t)]
       | None => []
       end
       ++ match favorites f with
          | Some b => [("favorites", bool_toString b)]
          | None => []
          end
       ++ match trash f with
          | Some b => [("trash", bool_toString b)]
          | None => []
          end
       ++ match limit f with
          | Some n => if (n =? 0)%Z then [] else [("limit", pretty n)]
          | None => []
          end
       ++ match skip f with
          | Some n => if (n =? 0)%Z then [] else [("skip", pretty n)]
          | None => []
          end)%list
  end.

(** The filter object built by [HomeComponent.loadMedia]. *)
Definition of_component (f : HomeComponent.Filters) : Filters :=
  {| type := HomeComponent.filter_type f;
     favorites := HomeComponent.filter_favorites f;
     trash := HomeComponent.filter_trash f;
     limit := None;
     skip := None |}.

End MediaQuery.

(** *** home.component.ts: audio player

    The player methods read and write [nowPlaying] only, and of an item
    only its [id] and [type], which no method changes. *)

Module HomePlayer.
Import MediaService.

Definition playAudio (item : MediaItem) (nowPlaying : option MediaItem) : option MediaItem :=
  match type item with
  | audio =>
      match nowPlaying with
      | Some current =>
          if String.eqb (id current) (id item) then nowPlaying else Some item
      | None => Some item
      end
  | _ => nowPlaying
  end.

Definition stopAudio (nowPlaying : option MediaItem) : option MediaItem := None.

Definition isCurrentlyPlaying (item : MediaItem) (nowPlaying : option MediaItem) : bool :=
  match nowPlaying with
  | Some current => String.eqb (id current) (id item)
  | None => false
  end.

End HomePlayer.

(** *** home.component.ts: storage bar

    The colour of the bar depends on which side of a threshold the
    percentage falls, and so on how [/] and [*] round: a number is a
    double, and each operation returns the double nearest to its exact
    result. The two operations are parameters of the bar, which is
    defined and verified for any implementation of them; the comparisons
    and [Math.min] are exact on doubles. *)

Class Arithmetic : Type := {
  divide : Q -> Q -> Q;      (* x / y *)
  multiply : Q -> Q -> Q     (* x * y *)
}.

Module HomeStorageBar.
Import MediaService.

Definition getStoragePercentage {arith : Arithmetic} (s : HomeComponent.State) : Q :=
  match HomeComponent.storageSummary s with
  | None => 0
  | Some summary =>
      if Qeq_bool (quotaBytes summary) 0 then 0
      else Qmin 100 (multiply (divide (usedBytes summary) (quotaBytes summary)) 100)
  end.

Definition getStorageBarColor {arith : Arithmetic} (s : HomeComponent.State) : string :=
  let percentage := getStoragePercentage s in
  if Qle_bool 90 percentage then "#dc3545"
  else if Qle_bool 75 percentage then "#fd7e14"
  else if Qle_bool 50 percentage then "#ffc107"
  else "#28a745".

End HomeStorageBar.

(** Arithmetic without rounding, as [HomeComponent.getStoragePercentage]
    has it. *)
Definition exact_arithmetic : Arithmetic :=
  {| divide := Qdiv; multiply := Qmult |}.

(** Double precision arithmetic: [binary64] of IEEE 754, rounding to
    nearest, ties to even. An operand is given as a fraction; the doubles
    [m * 2^e] with [-1024 < e] are read back exactly. *)
Module Binary64.

Definition prec : Z := 53.
Definition emax : Z := 1024.

Definition of_Z (z : Z) : spec_float := binary_normalize prec emax z 0 false.

(** The double [m * 2^e] is the quotient of the doubles [m] and [2^-e]. *)
Definition of_Q (q : Q) : spec_float :=
  SFdiv prec emax (of_Z (Qnum q)) (of_Z (Z.pos (Qden q))).

Definition to_Q (f : spec_float) : Q :=
  match f with
  | S754_zero _ => 0
  | S754_finite sign m e =>
      (inject_Z (if sign then Z.neg m else Z.pos m) * 2 ^ e)%Q
  | S754_infinity sign => (if sign then - (2 ^ emax) else 2 ^ emax)%Q
  | S754_nan => 0
  end.

Definition arithmetic : Arithmetic :=
  {| divide := fun x y => to_Q (SFdiv prec emax (of_Q x) (of_Q y));
     multiply := fun x y => to_Q (SFmul prec emax (of_Q x) (of_Q y)) |}.

End Binary64.

(** *** register.component.ts *)

Module RegisterComponent.

Record RegisterRequest : Type := {
  firstName : string;
  lastName : string;
  email : string;
  password : string
}.

Record State : Type := {
  registerData : RegisterRequest;
  confirmPassword : string;
  isLoading : bool;
  errorMessage : string
}.

Definition set_errorMessage (msg : string) (s : State) : State :=
  {| registerData := registerData s; confirmPassword := confirmPassword s;
     isLoading := isLoading s; errorMessage := msg |}.

Definition set_isLoading (b : bool) (s : State) : State :=
  {| registerData := registerData s; confirmPassword := confirmPassword s;
     isLoading := b; errorMessage := errorMessage s |}.

(** The component after the call, and the request handed to
    [authService.register], if any. *)
Definition onSubmit (s : State) : State * option RegisterRequest :=
  let data := registerData s in
  if negb (nonempty (firstName data)) || negb (nonempty (lastName data))
     || negb (nonempty (email data)) || negb (nonempty (password data)) then
    (set_errorMessage "Please fill in all fields" s, None)
  else if negb (String.eqb (password data) (confirmPassword s)) then
    (set_errorMessage "Passwords do not match" s, None)
  else if (String.length (password data) <? 6)%nat then
    (set_errorMessage "Password must be at least 6 characters long" s, None)
  else
    (s |> set_isLoading true |> set_errorMessage "", Some data).

(** The registration request completes. On success the service's
    [tap(handleAuthSuccess)] runs before the component's [next]. *)
Definition completes `{Platform} (r : HttpResult AuthService.AuthResponse)
    (s : State) (w : World) : State * World :=
  match r with
  | HttpOk response =>
      (set_isLoading false s,
       w |> AuthService.handleAuthSuccess response
         |> navigate "/home" NoContinuation)
  | HttpError error =>
      (s |> set_isLoading false
         |> set_errorMessage
              (match error_message error with
               | Some msg =>
                   if nonempty msg then msg
                   else "Registration failed. Please try again."
               | None => "Registration failed. Please try again."
               end),
       w)
  end.

Definition goToLogin (w : World) : World := navigate "/login" NoContinuation w.

End RegisterComponent.

(** *** Vocabulary of the further properties *)

Definition navigation_count (w : World) : nat := count_effects is_navigation (trace w).

(** An upload request in flight that was issued under [fileId]. *)
Definition upload_in_flight (fileId : string) (s : HomeComponent.State) : Prop :=
  exists file title,
    In (HomeComponent.ReqUploadMedia file title fileId) (HomeComponent.inflight s).

(** Every tracked upload is in flight and has a progress entry. *)
Definition upload_tracking (s : HomeComponent.State) : Prop :=
  dom (HomeComponent.uploadProgress s) = HomeComponent.uploadingFiles s /\
  forall fileId, fileId ∈ HomeComponent.uploadingFiles s -> upload_in_flight fileId s.

(** [s'] keeps the upload bookkeeping of [s] and every request of [s]. *)
Definition keeps_uploads (s s' : HomeComponent.State) : Prop :=
  HomeComponent.uploadingFiles s' = HomeComponent.uploadingFiles s /\
  HomeComponent.uploadProgress s' = HomeComponent.uploadProgress s /\
  exists rs, HomeComponent.inflight s' = (HomeComponent.inflight s ++ rs)%list.

(** The displayed items are cached items, and the cached items are
    live references. *)
Definition view_consistent (s : HomeComponent.State) : Prop :=
  Forall (fun item => (item < length (HomeComponent.heap s))%nat) (HomeComponent.mediaItems s) /\
  forall item, In item (HomeComponent.filteredItems s) -> In item (HomeComponent.mediaItems s).

(** [s'] shows and caches what [s] does, over a heap that is no shorter. *)
Definition keeps_view (s s' : HomeComponent.State) : Prop :=
  HomeComponent.mediaItems s' = HomeComponent.mediaItems s /\
  HomeComponent.filteredItems s' = HomeComponent.filteredItems s /\
  (length (HomeComponent.heap s) <= length (HomeComponent.heap s'))%nat.

(** The outcome of a pending navigation matters to no one: nothing is
    chained on it. *)
Definition unobserved (k : Continuation) : Prop := k = NoContinuation.

(** A logout is in progress and no pending navigation will end it. *)
Definition logout_stalled (w : World) : Prop :=
  isLoggingOut w = true /\ Forall unobserved (navigations w).

(** The store holds no token that the session check would look at. *)
Definition token_unusable (w : World) : Prop :=
  AuthService.getToken w = None \/ AuthService.getToken w = Some "".

Definition not_sign_in (ev : SessionEvent) : Prop :=
  match ev with
  | AuthSucceeds _ => False
  | _ => True
  end.

(** What the bar needs of the two operations, and rounding to the
    nearest double provides: they are monotone in their first operand,
    and exact when the exact result is an integer of at most 53 bits. *)
Record rounds_to_nearest {arith : Arithmetic} : Prop := {
  divide_monotone : forall x x' y : Q,
    (0 < y)%Q -> (x <= x')%Q -> (divide x y <= divide x' y)%Q;
  multiply_monotone : forall x x' y : Q,
    (0 <= y)%Q -> (x <= x')%Q -> (multiply x y <= multiply x' y)%Q;
  divide_exact : forall (x y : Q) (n : Z),
    ~ (y == 0)%Q -> (x / y == inject_Z n)%Q -> (Z.abs n <= 2 ^ 53)%Z ->
    (divide x y == inject_Z n)%Q;
  multiply_exact : forall (x y : Q) (n : Z),
    (x * y == inject_Z n)%Q -> (Z.abs n <= 2 ^ 53)%Z ->
    (multiply x y == inject_Z n)%Q
}.

(** How far the bar is from green. *)
Definition bar_level (colour : string) : nat :=
  if String.eqb colour "#dc3545" then 3
  else if String.eqb colour "#fd7e14" then 2
  else if String.eqb colour "#ffc107" then 1
  else 0.

Definition accepted_type (mime : string) : Prop :=
  (exists rest, mime = "image/" +:+ rest) \/
  (exists rest, mime = "video/" +:+ rest) \/
  (exists rest, mime = "audio/" +:+ rest).

Definition max_upload_size : Z := 100 * 1024 * 1024.

(** *** Inputs used in the further examples *)

Definition song : MediaService.MediaItem :=
  item_titled "s1" "song.mp3" MediaService.audio false false.

Definition summary_200_of_200 : MediaService.StorageSummary :=
  {| MediaService.usedBytes := 200; MediaService.quotaBytes := 200;
     MediaService.availableBytes := 0; MediaService.usagePercentage := 100;
     MediaService.updatedAt := "2024-01-01T00:00:00Z" |}.

(** Just under nine tenths of the quota are used. *)
Definition summary_just_under_90 : MediaService.StorageSummary :=
  {| MediaService.usedBytes := 3600000000000008;
     MediaService.quotaBytes := 4000000000000009;
     MediaService.availableBytes := 400000000000001;
     MediaService.usagePercentage := 90;
     MediaService.updatedAt := "2024-01-01T00:00:00Z" |}.

Definition test_response : AuthService.AuthResponse :=
  {| AuthService.accessToken := test_token; AuthService.user := test_user |}.

Definition empty_world : World :=
  {| localStorage := ∅; navigations := []; currentUserSubject := JNull;
     isLoggingOut := false; trace := [] |}.

(** A sign-in arrives while the navigation of a logout is pending. *)
Definition sign_in_during_logout : World :=
  session_run [CallLogout; AuthSucceeds test_response] signed_in_world.

(** After a rejected navigation: the user signs in again and opens a
    guarded route, the navigation requested by the guard is fulfilled,
    and the user asks to be logged out. *)
Definition sign_in_again : list SessionEvent :=
  [AuthSucceeds test_response; CallCanActivate 1500000000000;
   NavigationSettles 0 Fulfilled; CallLogout].

Definition png_file : HomeComponent.File :=
  {| HomeComponent.file_name := "test.png"; HomeComponent.file_size := 12;
     HomeComponent.file_type := "image/png" |}.

Definition valid_registration : RegisterComponent.State :=
  {| RegisterComponent.registerData :=
       {| RegisterComponent.firstName := "Test"; RegisterComponent.lastName := "User";
          RegisterComponent.email := "test@example.com";
          RegisterComponent.password := "testpassword123" |};
     RegisterComponent.confirmPassword := "testpassword123";
     RegisterComponent.isLoading := false;
     RegisterComponent.errorMessage := "" |}.

Definition uploading_home : HomeComponent.State :=
  HomeComponent.onFileSelected (Some png_file) 1700000000000 (home_showing holiday_items).

Definition upload_round : list HomeComponent.Event :=
  [HomeComponent.EvFileSelected (Some png_file) 1700000000000;
   HomeComponent.EvCompletes 2 (HttpOk (HomeComponent.UploadResponse photo_item None))].

(** * Properties *)

Lemma gb_le_iff (q k : Q) :
  Qle_bool (q / (1024 * 1024 * 1024)) k = true <-> (q <= k * GiB)%Q.
Proof.
  rewrite Qle_bool_iff. fold GiB.
  assert (Hpos : (0 < GiB)%Q) by reflexivity.
  split; intros Hq.
  - assert (Hq' : (q == q / GiB * GiB)%Q) by (field; discriminate).
    rewrite Hq'. apply Qmult_le_compat_r; [exact Hq | apply Qlt_le_weak, Hpos].
  - apply Qle_shift_div_r; assumption.
Qed.

(** ** Plan tiers *)

(** C10: the plan name is 'Free Plan' up to and including 5 GiB,
    'Pro Plan' above 5 GiB up to and including 100 GiB, and
    'Enterprise Plan' above 100 GiB, with 1 GiB = 1024^3 bytes; the two
    boundary quotas fall into the lower tier. *)
Theorem getPlanDisplayName_thresholds (quotaBytes : Q) :
  (GiB == inject_Z (1024 ^ 3))%Q /\
  ((quotaBytes <= 5 * GiB)%Q ->
     MediaService.getPlanDisplayName quotaBytes = "Free Plan") /\
  ((5 * GiB < quotaBytes)%Q -> (quotaBytes <= 100 * GiB)%Q ->
     MediaService.getPlanDisplayName quotaBytes = "Pro Plan") /\
  ((100 * GiB < quotaBytes)%Q ->
     MediaService.getPlanDisplayName quotaBytes = "Enterprise Plan") /\
  MediaService.getPlanDisplayName (5 * GiB) = "Free Plan" /\
  MediaService.getPlanDisplayName (100 * GiB) = "Pro Plan".
Proof.
  split; [reflexivity |].
  assert (Hfree : forall q, (q <= 5 * GiB)%Q ->
            MediaService.getPlanDisplayName q = "Free Plan").
  { intros q Hq. unfold MediaService.getPlanDisplayName.
    apply gb_le_iff in Hq. cbv zeta. rewrite Hq. reflexivity. }
  assert (Hpro : forall q, (5 * GiB < q)%Q -> (q <= 100 * GiB)%Q ->
            MediaService.getPlanDisplayName q = "Pro Plan").
  { intros q Hlo Hhi. unfold MediaService.getPlanDisplayName. cbv zeta.
    destruct (Qle_bool (q / (1024 * 1024 * 1024)) 5) eqn:E5.
    - apply gb_le_iff in E5. exfalso. exact (Qlt_not_le _ _ Hlo E5).
    - apply gb_le_iff in Hhi. rewrite Hhi. reflexivity. }
  split; [exact (Hfree quotaBytes) |].
  split; [exact (Hpro quotaBytes) |].
  split.
  - intros Hlo. unfold MediaService.getPlanDisplayName. cbv zeta.
    assert (H5 : (5 * GiB < quotaBytes)%Q).
    { eapply Qle_lt_trans; [| exact Hlo]. unfold GiB, Qle. simpl. lia. }
    destruct (Qle_bool (quotaBytes / (1024 * 1024 * 1024)) 5) eqn:E5.
    { apply gb_le_iff in E5. exfalso. exact (Qlt_not_le _ _ H5 E5). }
    destruct (Qle_bool (quotaBytes / (1024 * 1024 * 1024)) 100) eqn:E100.
    { apply gb_le_iff in E100. exfalso. exact (Qlt_not_le _ _ Hlo E100). }
    reflexivity.
  - split.
    + apply Hfree. apply Qle_refl.
    + apply Hpro; [reflexivity | apply Qle_refl].
Qed.

Lemma getPlanDisplayName_thresholds_witness :
  (7 * GiB <= 100 * GiB)%Q /\
  MediaService.getPlanDisplayName (7 * GiB) = "Pro Plan".
Proof.
  assert (Hlo : (5 * GiB < 7 * GiB)%Q) by reflexivity.
  assert (Hhi : (7 * GiB <= 100 * GiB)%Q) by (unfold Qle; simpl; lia).
  split; [exact Hhi |].
  exact (proj1 (proj2 (proj2 (getPlanDisplayName_thresholds (7 * GiB)))) Hlo Hhi).
Defined.

(** ** Storage percentage *)

Lemma getStoragePercentage_no_summary (s : HomeComponent.State) :
  HomeComponent.storageSummary s = None ->
  HomeComponent.getStoragePercentage s = 0%Q.
Proof.
  intros Hs. unfold HomeComponent.getStoragePercentage. rewrite Hs. reflexivity.
Qed.




(** ** Token expiry *)

Section TokenExpiry.
Context `{Platform}.

Lemma isTokenExpired_malformed (token : string) (Date_now : Z) :
  length (split "." token) <> 3%nat ->
  AuthService.isTokenExpired token Date_now = true.
Proof.
  intros Hlen. unfold AuthService.isTokenExpired.
  destruct (Nat.eqb_spec (length (split "." token)) 3) as [Heq | _]; [contradiction |].
  reflexivity.
Qed.

(** The check, in terms of the payload. *)
Lemma isTokenExpired_payload (token : string) (Date_now : Z) :
  AuthService.isTokenExpired token Date_now =
    match payload_of token with
    | None => true
    | Some payload =>
        match expiry_claim payload with
        | None => true
        | Some exp =>
            if truthy exp then
              match js_lt exp (epoch_seconds Date_now) with
              | Throw => true
              | Normal isExpired => isExpired
              end
            else true
        end
    end.
Proof.
  unfold AuthService.isTokenExpired, payload_of, expiry_claim, epoch_seconds.
  destruct (split "." token) as [| a [| b [| c [| d l]]]]; simpl; try reflexivity.
  destruct (atob b) as [decoded |]; [| reflexivity].
  destruct (JSON_parse decoded) as [payload |]; [| reflexivity].
  destruct (get_prop payload "exp") as [[exp |] |]; try reflexivity.
  destruct (truthy exp); reflexivity.
Qed.

End TokenExpiry.

Lemma truthy_falsy (v : JsValue) : truthy v = false <-> falsy v.
Proof.
  unfold falsy. split.
  - destruct v as [| [|] | q | str | l | kvs]; simpl; intros Hv; try discriminate Hv; auto.
    + right. right. right. exists q. split; [reflexivity |].
      apply Qeq_bool_iff. apply negb_false_iff. exact Hv.
    + right. right. left. f_equal.
      apply negb_false_iff in Hv. apply String.eqb_eq. exact Hv.
  - intros [-> | [-> | [-> | [q [-> Hq]]]]]; simpl; try reflexivity.
    apply negb_false_iff, Qeq_bool_iff, Hq.
Qed.

Lemma Qlt_bool_true (x y : Q) : Qlt_bool x y = true <-> (x < y)%Q.
Proof.
  unfold Qlt_bool. rewrite negb_true_iff. split.
  - intros Hle. apply Qnot_le_lt. intros Hyx.
    apply Qle_bool_iff in Hyx. congruence.
  - intros Hlt. apply not_true_iff_false. intros Hyx.
    apply Qle_bool_iff in Hyx. exact (Qlt_not_le _ _ Hlt Hyx).
Qed.

Lemma Qlt_bool_false (x y : Q) : Qlt_bool x y = false <-> (y <= x)%Q.
Proof.
  unfold Qlt_bool. rewrite negb_false_iff. apply Qle_bool_iff.
Qed.

(** [<] against a number compares the numeric value of its left
    operand. *)
Lemma js_lt_numeric_value `{Platform} (v : JsValue) (n : Q) :
  js_lt v n =
    match numeric_value v with
    | Throw => Throw
    | Normal None => Normal false
    | Normal (Some q) => Normal (Qlt_bool q n)
    end.
Proof.
  destruct v as [| [|] | q | str | l | kvs]; reflexivity.
Qed.




(** The token with payload [{"exp":"abc"}] carries an expiry claim that
    is no number, and is classified as valid at every time. *)
Lemma isTokenExpired_text_expiry (Date_now : Z) :
  payload_of text_expiry_token = Some (JObj [("exp", JStr "abc")]) /\
  AuthService.isTokenExpired text_expiry_token Date_now = false.
Proof.
  assert (Hp : payload_of text_expiry_token = Some (JObj [("exp", JStr "abc")]))
    by (vm_compute; reflexivity).
  split; [exact Hp |].
  rewrite isTokenExpired_payload, Hp. reflexivity.
Qed.

(** ** Logout *)

Lemma count_effects_app (p : Effect -> bool) (tr1 tr2 : list Effect) :
  count_effects p (tr1 ++ tr2) = (count_effects p tr1 + count_effects p tr2)%nat.
Proof.
  induction tr1 as [| e tr1 IH]; simpl; [reflexivity |].
  rewrite IH. lia.
Qed.

Lemma logout_in_progress (w : World) :
  isLoggingOut w = true -> AuthService.logout w = w.
Proof.
  intros Hflag. unfold AuthService.logout. rewrite Hflag. reflexivity.
Qed.

Lemma logout_first (w : World) :
  isLoggingOut w = false ->
  AuthService.logout w =
    {| localStorage :=
         delete AuthService.USER_KEY (delete AuthService.TOKEN_KEY (localStorage w));
       navigations := navigations w ++ [ThenClearFlag];
       currentUserSubject := JNull;
       isLoggingOut := true;
       trace := trace w ++ logout_sequence |}.
Proof.
  intros Hflag. unfold AuthService.logout. rewrite Hflag.
  unfold navigate, next, removeItem, set_isLoggingOut, emit, logout_sequence. simpl.
  f_equal. repeat rewrite <- app_assoc. reflexivity.
Qed.

Lemma logout_repeated (n : nat) (w : World) :
  isLoggingOut w = true ->
  session_run (replicate n CallLogout) w = w.
Proof.
  intros Hflag. induction n as [| n IH]; simpl; [reflexivity |].
  rewrite logout_in_progress by exact Hflag. exact IH.
Qed.

(** C1: [S n] calls of [logout] with no settlement of the navigation in
    between run the clear-and-navigate sequence exactly once: the first
    call raises the flag, removes the token and user entries, publishes
    null and requests the navigation to the sign-in view, in this order,
    and every call made while the flag is set changes nothing. *)
Theorem logout_runs_once (n : nat) (w : World) :
  isLoggingOut w = false ->
  let w' := session_run (replicate (S n) CallLogout) w in
  w' = AuthService.logout w /\
  trace w' = (trace w ++ logout_sequence)%list /\
  logout_cycles w' = S (logout_cycles w) /\
  count_effects is_navigation (trace w') = S (count_effects is_navigation (trace w)) /\
  localStorage w' !! AuthService.TOKEN_KEY = None /\
  localStorage w' !! AuthService.USER_KEY = None /\
  currentUserSubject w' = JNull /\
  navigations w' = (navigations w ++ [ThenClearFlag])%list /\
  isLoggingOut w' = true /\
  (forall v : World, isLoggingOut v = true -> AuthService.logout v = v).
Proof.
  intros Hflag w'.
  assert (Hw' : w' = AuthService.logout w).
  { subst w'. simpl. apply logout_repeated.
    rewrite logout_first by exact Hflag. reflexivity. }
  rewrite Hw', logout_first by exact Hflag.
  unfold logout_cycles. simpl. rewrite !count_effects_app. simpl.
  repeat split; try reflexivity; try lia.
  - rewrite lookup_delete_ne by discriminate. apply lookup_delete_eq.
  - apply lookup_delete_eq.
  - apply logout_in_progress.
Qed.

Lemma logout_runs_once_witness :
  trace (session_run (replicate 3 CallLogout) signed_in_world) = logout_sequence.
Proof.
  exact (proj1 (proj2 (logout_runs_once 2 signed_in_world eq_refl))).
Defined.

(** ** The session-presence check and the unauthorized-response handler *)

Section Session.
Context `{Platform}.

Lemma logout_cycles_emit (e : Effect) (w : World) :
  logout_cycles (emit e w) =
    (logout_cycles w + (if is_logout_start e then 1 else 0))%nat.
Proof.
  unfold logout_cycles, emit. simpl. rewrite count_effects_app. simpl. lia.
Qed.

Lemma logout_cycles_navigate (path : string) (k : Continuation) (w : World) :
  logout_cycles (navigate path k w) = logout_cycles w.
Proof.
  unfold navigate. rewrite logout_cycles_emit. simpl. unfold logout_cycles. simpl. lia.
Qed.

Lemma logout_cycles_settle (i : nat) (outcome : Settlement) (w : World) :
  logout_cycles (settle i outcome w) = logout_cycles w.
Proof.
  unfold settle. destruct (navigations w !! i) as [[|] |], outcome; simpl; try reflexivity.
  unfold set_isLoggingOut. rewrite logout_cycles_emit. simpl.
  unfold logout_cycles. simpl. lia.
Qed.

Lemma logout_cycles_logout (w : World) :
  logout_cycles (AuthService.logout w) =
    (logout_cycles w + (if isLoggingOut w then 0 else 1))%nat.
Proof.
  destruct (isLoggingOut w) eqn:Hflag.
  - rewrite logout_in_progress by exact Hflag. lia.
  - rewrite logout_first by exact Hflag. unfold logout_cycles. simpl.
    rewrite count_effects_app. simpl. lia.
Qed.

Lemma logout_clears_token (w : World) :
  isLoggingOut w = false ->
  localStorage (AuthService.logout w) !! AuthService.TOKEN_KEY = None.
Proof.
  intros Hflag. rewrite logout_first by exact Hflag. simpl.
  rewrite lookup_delete_ne by discriminate. apply lookup_delete_eq.
Qed.

Lemma isAuthenticated_cases (Date_now : Z) (w : World) :
  AuthCheck Date_now w (AuthService.isAuthenticated Date_now w).
Proof.
  unfold AuthService.isAuthenticated.
  destruct (isLoggingOut w) eqn:Hflag; [apply CheckLoggingOut; exact Hflag |].
  destruct (AuthService.getToken w) as [token |] eqn:Htok;
    [| apply CheckNoToken; [exact Hflag | left; exact Htok]].
  unfold nonempty. destruct (String.eqb_spec token "") as [-> | Hne]; simpl.
  - apply CheckNoToken; [exact Hflag | right; exact Htok].
  - destruct (AuthService.isTokenExpired token Date_now) eqn:Hexp.
    + eapply CheckExpired; eassumption.
    + eapply CheckValid; eassumption.
Qed.

(** Handling one error starts at most one logout cycle; once it has
    started one, the token entry is gone; and without a token entry it
    starts none. *)
Lemma onError_cycles (error : HttpErrorResponse) (Date_now : Z) (w : World) :
  let w' := fst (ErrorInterceptor.onError error Date_now w) in
  (logout_cycles w' = logout_cycles w /\ localStorage w' = localStorage w) \/
  (logout_cycles w' = S (logout_cycles w) /\
   is_Some (localStorage w !! AuthService.TOKEN_KEY) /\
   localStorage w' !! AuthService.TOKEN_KEY = None).
Proof.
  unfold ErrorInterceptor.onError. simpl.
  destruct (status error =? 401)%Z; [| left; split; reflexivity].
  destruct (isAuthenticated_cases Date_now w) as [Hflag | Hflag Htok | token Hflag Htok Hexp | token Hflag Htok Hexp].
  - left. rewrite logout_cycles_navigate. split; reflexivity.
  - left. rewrite logout_cycles_navigate. split; reflexivity.
  - right. rewrite logout_cycles_navigate, logout_cycles_logout, Hflag.
    split; [lia |]. split; [unfold AuthService.getToken, getItem in Htok; rewrite Htok; eauto |].
    simpl. apply logout_clears_token. exact Hflag.
  - right. rewrite logout_cycles_logout, Hflag.
    split; [lia |]. split; [unfold AuthService.getToken, getItem in Htok; rewrite Htok; eauto |].
    apply logout_clears_token. exact Hflag.
Qed.

Lemma isAuthenticated_cycles (Date_now : Z) (w : World) :
  let w' := snd (AuthService.isAuthenticated Date_now w) in
  (logout_cycles w' = logout_cycles w /\ localStorage w' = localStorage w) \/
  (logout_cycles w' = S (logout_cycles w) /\
   is_Some (localStorage w !! AuthService.TOKEN_KEY) /\
   localStorage w' !! AuthService.TOKEN_KEY = None).
Proof.
  simpl.
  destruct (isAuthenticated_cases Date_now w) as [Hflag | Hflag Htok | token Hflag Htok Hexp | token Hflag Htok Hexp];
    simpl; try (left; split; reflexivity).
  right. rewrite logout_cycles_logout, Hflag.
  split; [lia |]. split; [unfold AuthService.getToken, getItem in Htok; rewrite Htok; eauto |].
  apply logout_clears_token. exact Hflag.
Qed.

Lemma canActivate_cycles (Date_now : Z) (w : World) :
  let w' := snd (AuthGuard.canActivate Date_now w) in
  (logout_cycles w' = logout_cycles w /\ localStorage w' = localStorage w) \/
  (logout_cycles w' = S (logout_cycles w) /\
   is_Some (localStorage w !! AuthService.TOKEN_KEY) /\
   localStorage w' !! AuthService.TOKEN_KEY = None).
Proof.
  simpl. unfold AuthGuard.canActivate.
  pose proof (isAuthenticated_cycles Date_now w) as Hc. simpl in Hc.
  destruct (AuthService.isAuthenticated Date_now w) as [[|] w1]; simpl in *;
    [exact Hc |].
  rewrite logout_cycles_navigate. exact Hc.
Qed.

Lemma observer_step_cycles (ev : SessionEvent) (w : World) :
  observes_session ev ->
  let w' := session_step ev w in
  (logout_cycles w' = logout_cycles w /\ localStorage w' = localStorage w) \/
  (logout_cycles w' = S (logout_cycles w) /\
   is_Some (localStorage w !! AuthService.TOKEN_KEY) /\
   localStorage w' !! AuthService.TOKEN_KEY = None).
Proof.
  destruct ev as [| now | now | r | e now | i outcome]; simpl; intros Hobs; try contradiction.
  - apply isAuthenticated_cycles.
  - apply canActivate_cycles.
  - apply onError_cycles.
  - left. split; [apply logout_cycles_settle |].
    unfold settle. destruct (navigations w !! i) as [[|] |], outcome; reflexivity.
Qed.

Lemma observers_without_token (evs : list SessionEvent) (w : World) :
  Forall observes_session evs ->
  localStorage w !! AuthService.TOKEN_KEY = None ->
  logout_cycles (session_run evs w) = logout_cycles w.
Proof.
  revert w. induction evs as [| ev evs IH]; intros w Hall Htok; simpl; [reflexivity |].
  inversion Hall as [| ? ? Hev Hrest]; subst.
  destruct (observer_step_cycles ev w Hev) as [[Hc Hs] | [_ [Hsome _]]].
  - rewrite IH; [exact Hc | exact Hrest | rewrite Hs; exact Htok].
  - rewrite Htok in Hsome. destruct Hsome as [? Hsome]. discriminate Hsome.
Qed.

Lemma observers_at_most_one_cycle (evs : list SessionEvent) (w : World) :
  Forall observes_session evs ->
  (logout_cycles (session_run evs w) <= S (logout_cycles w))%nat.
Proof.
  revert w. induction evs as [| ev evs IH]; intros w Hall; simpl; [lia |].
  inversion Hall as [| ? ? Hev Hrest]; subst.
  destruct (observer_step_cycles ev w Hev) as [[Hc _] | [Hc [_ Hnone]]].
  - rewrite <- Hc. apply IH. exact Hrest.
  - rewrite observers_without_token by assumption. lia.
Qed.

End Session.

(** C3: whatever the interceptor is handed comes back to the caller as
    it is, a response untouched and an error re-thrown, whatever its
    status; a response, and an error with a status other than 401, leave
    the session alone; on a 401 the interceptor calls [logout()] exactly
    when [isAuthenticated()] succeeds and otherwise only requests the
    navigation to the sign-in view, which starts no logout cycle;
    handling one error starts at most one logout cycle, and so does
    handling any number of errors, with navigations settling in between,
    each step of such a schedule being the interceptor itself. *)
Theorem intercept_single_logout_and_rethrow `{Platform} {A : Type}
    (error : HttpErrorResponse) (Date_now : Z) (w : World) :
  let handled := ErrorInterceptor.intercept (A := A) (HttpError error) Date_now w in
  let check := AuthService.isAuthenticated Date_now w in
  snd handled = HttpError error /\
  (forall body : A,
     ErrorInterceptor.intercept (HttpOk body) Date_now w = (w, HttpOk body)) /\
  (status error <> 401 -> fst handled = w) /\
  (status error = 401 -> fst check = true ->
     fst handled = AuthService.logout (snd check)) /\
  (status error = 401 -> fst check = false ->
     fst handled = navigate "/login" NoContinuation (snd check) /\
     logout_cycles (fst handled) = logout_cycles (snd check)) /\
  (logout_cycles (fst handled) <= S (logout_cycles w))%nat /\
  session_step (ErrorIntercepted error Date_now) w = fst handled /\
  (forall evs : list SessionEvent,
     Forall (fun ev => match ev with
                       | ErrorIntercepted _ _ | NavigationSettles _ _ => True
                       | _ => False
                       end) evs ->
     (logout_cycles (session_run evs w) <= S (logout_cycles w))%nat).
Proof.
  intros handled check.
  assert (Hfst : fst handled = fst (ErrorInterceptor.onError error Date_now w)).
  { subst handled. unfold ErrorInterceptor.intercept.
    destruct (ErrorInterceptor.onError error Date_now w) as [w' e]. reflexivity. }
  split.
  { subst handled. unfold ErrorInterceptor.intercept, ErrorInterceptor.onError.
    reflexivity. }
  split; [intros body; reflexivity |].
  rewrite Hfst. clearbody handled. clear Hfst handled.
  split.
  { intros Hst. unfold ErrorInterceptor.onError. simpl.
    destruct (Z.eqb_spec (status error) 401); [contradiction | reflexivity]. }
  split.
  { intros Hst Hok. subst check. unfold ErrorInterceptor.onError. simpl.
    rewrite Hst. simpl.
    destruct (AuthService.isAuthenticated Date_now w) as [ok w1]. simpl in *.
    rewrite Hok. reflexivity. }
  split.
  { intros Hst Hok. subst check. unfold ErrorInterceptor.onError. simpl.
    rewrite Hst. simpl.
    destruct (AuthService.isAuthenticated Date_now w) as [ok w1]. simpl in *.
    rewrite Hok. split; [reflexivity | apply logout_cycles_navigate]. }
  split.
  { destruct (onError_cycles error Date_now w) as [[Hc _] | [Hc _]];
      simpl in *; lia. }
  split; [reflexivity |].
  intros evs Hall. apply observers_at_most_one_cycle.
  eapply Forall_impl; [exact Hall |].
  intros [| | | | |]; simpl; tauto.
Qed.

Lemma intercept_single_logout_and_rethrow_witness :
  fst (ErrorInterceptor.intercept (A := unit) (HttpError unauthorized)
         1500000000000 signed_in_world)
    = AuthService.logout signed_in_world /\
  (logout_cycles
     (session_run [ErrorIntercepted unauthorized 1500000000000;
                   ErrorIntercepted unauthorized 1500000000001;
                   NavigationSettles 0 Fulfilled;
                   ErrorIntercepted unauthorized 1500000000002] signed_in_world)
   <= 1)%nat.
Proof.
  pose proof (intercept_single_logout_and_rethrow (A := unit)
                unauthorized 1500000000000 signed_in_world)
    as [_ [_ [_ [Hlogout [_ [_ [_ Hmany]]]]]]].
  split.
  - apply Hlogout; vm_compute; reflexivity.
  - apply (Hmany [ErrorIntercepted unauthorized 1500000000000;
                  ErrorIntercepted unauthorized 1500000000001;
                  NavigationSettles 0 Fulfilled;
                  ErrorIntercepted unauthorized 1500000000002]).
    repeat constructor.
Defined.

(** ** Token and user entries of the durable store *)

Section Pairing.
Context `{Platform}.

Lemma handleAuthSuccess_store (response : AuthService.AuthResponse) (w : World) :
  localStorage (AuthService.handleAuthSuccess response w) =
    <[ AuthService.USER_KEY := JSON_stringify (AuthService.user response) ]>
      (<[ AuthService.TOKEN_KEY := AuthService.accessToken response ]> (localStorage w)).
Proof. reflexivity. Qed.

Lemma paired_logout (w : World) :
  paired (localStorage w) -> paired (localStorage (AuthService.logout w)).
Proof.
  intros Hp. destruct (isLoggingOut w) eqn:Hflag.
  - rewrite logout_in_progress by exact Hflag. exact Hp.
  - rewrite logout_first by exact Hflag. simpl. unfold paired.
    rewrite lookup_delete_ne by discriminate.
    rewrite !lookup_delete_eq. reflexivity.
Qed.

Lemma paired_isAuthenticated (Date_now : Z) (w : World) :
  paired (localStorage w) ->
  paired (localStorage (snd (AuthService.isAuthenticated Date_now w))).
Proof.
  intros Hp.
  destruct (isAuthenticated_cases Date_now w); simpl;
    try exact Hp; apply paired_logout; exact Hp.
Qed.

Lemma paired_step (ev : SessionEvent) (w : World) :
  paired (localStorage w) -> paired (localStorage (session_step ev w)).
Proof.
  intros Hp. destruct ev as [| now | now | r | e now | i outcome]; unfold session_step.
  - apply paired_logout; exact Hp.
  - apply paired_isAuthenticated; exact Hp.
  - unfold AuthGuard.canActivate.
    pose proof (paired_isAuthenticated now w Hp) as Hc.
    destruct (AuthService.isAuthenticated now w) as [[|] w1]; exact Hc.
  - rewrite handleAuthSuccess_store. unfold paired.
    rewrite lookup_insert_eq. rewrite lookup_insert_ne by discriminate.
    rewrite lookup_insert_eq. split; eauto.
  - unfold ErrorInterceptor.onError. simpl.
    destruct (status e =? 401)%Z; [| exact Hp].
    pose proof (paired_isAuthenticated now w Hp) as Hc.
    destruct (AuthService.isAuthenticated now w) as [[|] w1]; simpl in *;
      [apply paired_logout |]; exact Hc.
  - unfold settle. destruct (navigations w !! i) as [[|] |], outcome; exact Hp.
Qed.

Lemma paired_run (evs : list SessionEvent) (w : World) :
  paired (localStorage w) -> paired (localStorage (session_run evs w)).
Proof.
  revert w. induction evs as [| ev evs IH]; intros w Hp; simpl; [exact Hp |].
  apply IH, paired_step, Hp.
Qed.

Lemma init_store_restorable (store : gmap string string) :
  restorable store -> localStorage (AuthService.init store) = store.
Proof.
  intros Hr. unfold AuthService.init, AuthService.getUserFromStorage, getItem. simpl.
  destruct (store !! AuthService.USER_KEY) as [userStr |] eqn:Hu; [| reflexivity].
  destruct (nonempty userStr) eqn:Hne; [| reflexivity].
  destruct (Hr userStr Hu Hne) as [u Hparse]. rewrite Hparse. reflexivity.
Qed.

End Pairing.

(** C7 (amended): authenticate stores both the token and the user entry
    and logout clears both; starting the service on a durable store in
    which the two entries are both present or both absent and whose user
    entry, if any, parses, every state reached by logout,
    authentication, session checks, route checks, intercepted errors and
    settling navigations keeps the two entries both present or both
    absent. *)
Theorem session_entries_paired `{Platform} :
  (forall response w,
     is_Some (localStorage (AuthService.handleAuthSuccess response w)
                !! AuthService.TOKEN_KEY) /\
     is_Some (localStorage (AuthService.handleAuthSuccess response w)
                !! AuthService.USER_KEY)) /\
  (forall w, isLoggingOut w = false ->
     localStorage (AuthService.logout w) !! AuthService.TOKEN_KEY = None /\
     localStorage (AuthService.logout w) !! AuthService.USER_KEY = None) /\
  (forall store evs,
     paired store -> restorable store ->
     paired (localStorage (session_run evs (AuthService.init store)))).
Proof.
  split; [| split].
  - intros response w. rewrite handleAuthSuccess_store.
    rewrite lookup_insert_eq. rewrite lookup_insert_ne by discriminate.
    rewrite lookup_insert_eq. split; eauto.
  - intros w Hflag. rewrite logout_first by exact Hflag. simpl.
    rewrite lookup_delete_ne by discriminate.
    rewrite !lookup_delete_eq. split; reflexivity.
  - intros store evs Hp Hr. apply paired_run.
    rewrite init_store_restorable by exact Hr. exact Hp.
Qed.

Lemma session_entries_paired_witness :
  paired well_formed_store /\
  restorable well_formed_store /\
  paired (localStorage
            (session_run [CallIsAuthenticated 1700000000000; NavigationSettles 0 Fulfilled]
               (AuthService.init well_formed_store))).
Proof.
  assert (Hp : paired well_formed_store).
  { unfold paired. split; intros _; vm_compute; eauto. }
  assert (Hr : restorable well_formed_store).
  { intros userStr Hu _. vm_compute in Hu. injection Hu as <-.
    vm_compute. eauto. }
  split; [exact Hp |]. split; [exact Hr |].
  exact (proj2 (proj2 session_entries_paired) well_formed_store
           [CallIsAuthenticated 1700000000000; NavigationSettles 0 Fulfilled] Hp Hr).
Defined.

(** Started on a store that holds a token and a user entry that does not
    parse, the service removes the user entry and keeps the token. *)
Lemma init_malformed_user_unpaired :
  paired malformed_user_store /\
  localStorage (AuthService.init malformed_user_store) !! AuthService.TOKEN_KEY
    = Some test_token /\
  localStorage (AuthService.init malformed_user_store) !! AuthService.USER_KEY = None /\
  currentUserSubject (AuthService.init malformed_user_store) = JNull /\
  ~ paired (localStorage (AuthService.init malformed_user_store)).
Proof.
  assert (Htok : localStorage (AuthService.init malformed_user_store)
                   !! AuthService.TOKEN_KEY = Some test_token)
    by (vm_compute; reflexivity).
  assert (Huser : localStorage (AuthService.init malformed_user_store)
                   !! AuthService.USER_KEY = None)
    by (vm_compute; reflexivity).
  split; [unfold paired; split; intros _; vm_compute; eauto |].
  split; [exact Htok |]. split; [exact Huser |]. split; [vm_compute; reflexivity |].
  unfold paired. rewrite Htok, Huser. intros [Hto _].
  destruct Hto as [? Hto]; [eauto | discriminate Hto].
Qed.

(** ** Search *)

Section Strings.
Import JsString.

Lemma is_whitespace_lower_char (c : ascii) :
  is_whitespace (lower_char c) = is_whitespace c.
Proof.
  destruct c as [[|] [|] [|] [|] [|] [|] [|] [|]]; vm_compute; reflexivity.
Qed.

Lemma toLowerCase_trimStart (s : string) :
  toLowerCase (trimStart s) = trimStart (toLowerCase s).
Proof.
  induction s as [| c s IH]; simpl; [reflexivity |].
  rewrite is_whitespace_lower_char.
  destruct (is_whitespace c); [exact IH | reflexivity].
Qed.

Lemma toLowerCase_trimEnd (s : string) :
  toLowerCase (trimEnd s) = trimEnd (toLowerCase s).
Proof.
  induction s as [| c s IH]; simpl; [reflexivity |].
  rewrite <- IH, is_whitespace_lower_char.
  destruct (trimEnd s) as [| c' s']; simpl; [| reflexivity].
  destruct (is_whitespace c); reflexivity.
Qed.

Lemma toLowerCase_trim (s : string) :
  toLowerCase (trim s) = trim (toLowerCase s).
Proof.
  unfold trim. rewrite toLowerCase_trimEnd, toLowerCase_trimStart. reflexivity.
Qed.

Lemma toLowerCase_app (s t : string) :
  toLowerCase (s +:+ t) = toLowerCase s +:+ toLowerCase t.
Proof.
  induction s as [| c s IH]; simpl; [reflexivity |]. rewrite IH. reflexivity.
Qed.

Lemma toLowerCase_app_inv (s x y : string) :
  toLowerCase s = x +:+ y ->
  exists s1 s2, s = s1 +:+ s2 /\ toLowerCase s1 = x /\ toLowerCase s2 = y.
Proof.
  revert s. induction x as [| c x IH]; intros s Hs; simpl in Hs.
  - exists EmptyString, s. repeat split; try reflexivity. exact Hs.
  - destruct s as [| d s]; simpl in Hs; [discriminate |].
    injection Hs as Hc Hs. destruct (IH s Hs) as (s1 & s2 & -> & H1 & H2).
    exists (String d s1), s2. simpl. rewrite H1, Hc. repeat split; assumption.
Qed.

Lemma startsWith_spec (s q : string) :
  startsWith s q = true <-> exists rest, s = q +:+ rest.
Proof.
  revert s. induction q as [| b q IH]; intros s; simpl.
  - destruct s; split; eauto.
  - destruct s as [| a s]; simpl.
    + split; [discriminate | intros [rest Hrest]; discriminate].
    + rewrite andb_true_iff, IH. split.
      * intros [Hab [rest ->]]. apply Ascii.eqb_eq in Hab. subst. eauto.
      * intros [rest Hrest]. injection Hrest as -> ->.
        split; [apply Ascii.eqb_refl | eauto].
Qed.

Lemma includes_spec (s q : string) :
  includes s q = true <-> exists before after, s = before +:+ q +:+ after.
Proof.
  induction s as [| a s IH].
  - change (includes "" q) with (startsWith "" q || false).
    rewrite orb_false_r, startsWith_spec. split.
    + intros [rest Hrest]. exists EmptyString, rest. exact Hrest.
    + intros (before & after & Hs). destruct before; simpl in Hs; [eauto | discriminate].
  - change (includes (String a s) q) with (startsWith (String a s) q || includes s q).
    rewrite orb_true_iff, startsWith_spec, IH. split.
    + intros [[rest Hrest] | (before & after & ->)].
      * exists EmptyString, rest. exact Hrest.
      * exists (String a before), after. reflexivity.
    + intros (before & after & Hs). destruct before as [| b before]; simpl in Hs.
      * left. eauto.
      * right. injection Hs as -> ->. eauto.
Qed.

Lemma includes_empty (s : string) : includes s "" = true.
Proof. destruct s; reflexivity. Qed.

Lemma title_matches_spec (title q : string) :
  title_matches title q = true <-> contains_ignoring_case title q.
Proof.
  unfold title_matches, contains_ignoring_case. rewrite includes_spec. split.
  - intros (x & y & Hxy).
    apply toLowerCase_app_inv in Hxy as (before & rest & -> & Hx & Hrest).
    apply toLowerCase_app_inv in Hrest as (middle & after & -> & Hm & Hy).
    exists before, middle, after. split; [reflexivity | exact Hm].
  - intros (before & middle & after & -> & Hm).
    exists (toLowerCase before), (toLowerCase after).
    rewrite !toLowerCase_app, Hm. reflexivity.
Qed.

Lemma trimStart_blank (q : string) : blank q <-> trimStart q = "".
Proof.
  unfold blank. induction q as [| c q IH]; simpl.
  - split; [reflexivity | constructor].
  - destruct (is_whitespace c) eqn:Hc.
    + rewrite <- IH. split.
      * intros Hall. inversion Hall; assumption.
      * intros Hall. constructor; assumption.
    + split; [| discriminate].
      intros Hall. inversion Hall; congruence.
Qed.

Lemma trimStart_head (q : string) :
  match trimStart q with
  | EmptyString => True
  | String c _ => is_whitespace c = false
  end.
Proof.
  induction q as [| c q IH]; simpl; [exact I |].
  destruct (is_whitespace c) eqn:Hc; [exact IH | exact Hc].
Qed.

Lemma trim_blank (q : string) : blank q <-> trim q = "".
Proof.
  rewrite trimStart_blank. unfold trim. split.
  - intros ->. reflexivity.
  - pose proof (trimStart_head q) as Hhead.
    destruct (trimStart q) as [| c r]; [reflexivity |].
    simpl. rewrite Hhead. destruct (trimEnd r); discriminate.
Qed.

Lemma filter_all (A : Type) (p : A -> bool) (l : list A) :
  (forall x, p x = true) -> List.filter p l = l.
Proof.
  intros Hp. induction l as [| x l IH]; simpl; [reflexivity |].
  rewrite Hp, IH. reflexivity.
Qed.

End Strings.

(** C4: [applySearch] changes nothing but the displayed list, so it
    issues no request; the displayed list is the cached list restricted,
    in order, to the items whose title contains the trimmed query when
    case is ignored; and for an empty or whitespace-only query it is the
    cached list itself. *)
Theorem applySearch_projection (s : HomeComponent.State) :
  let q := JsString.trim (HomeComponent.searchQuery s) in
  let s' := HomeComponent.applySearch s in
  s' = HomeComponent.set_filteredItems (HomeComponent.filteredItems s') s /\
  HomeComponent.inflight s' = HomeComponent.inflight s /\
  HomeComponent.filteredItems s' =
    List.filter (fun item => title_matches (HomeComponent.title_at (HomeComponent.heap s) item) q)
      (HomeComponent.mediaItems s) /\
  (forall title, title_matches title q = true <-> contains_ignoring_case title q) /\
  (forall item,
     In item (HomeComponent.filteredItems s') <->
     In item (HomeComponent.mediaItems s) /\
     contains_ignoring_case (HomeComponent.title_at (HomeComponent.heap s) item) q) /\
  (blank (HomeComponent.searchQuery s) ->
     HomeComponent.filteredItems s' = HomeComponent.mediaItems s).
Proof.
  intros q s'.
  assert (Hshape : s' = HomeComponent.set_filteredItems (HomeComponent.filteredItems s') s).
  { subst s'. unfold HomeComponent.applySearch.
    destruct (negb (nonempty (JsString.trim (HomeComponent.searchQuery s)))); reflexivity. }
  assert (Hview : HomeComponent.filteredItems s' =
            List.filter (fun item =>
                title_matches (HomeComponent.title_at (HomeComponent.heap s) item) q)
              (HomeComponent.mediaItems s)).
  { subst s'. unfold HomeComponent.applySearch. fold q. unfold nonempty.
    destruct (String.eqb_spec q "") as [Hq | Hq]; simpl.
    - rewrite filter_all; [reflexivity |].
      intros item. unfold title_matches. rewrite Hq. apply includes_empty.
    - unfold title_matches. subst q. rewrite toLowerCase_trim. reflexivity. }
  split; [exact Hshape |].
  split; [rewrite Hshape; reflexivity |].
  split; [exact Hview |].
  split; [intros title; apply title_matches_spec |].
  split.
  - intros item. rewrite Hview, filter_In, title_matches_spec. reflexivity.
  - intros Hblank. apply trim_blank in Hblank.
    subst s'. unfold HomeComponent.applySearch. rewrite Hblank. reflexivity.
Qed.

Lemma applySearch_projection_witness :
  HomeComponent.filteredItems
    (HomeComponent.applySearch
       (HomeComponent.set_searchQuery " VAC " (home_showing holiday_items)))
    = [0; 1]%nat /\
  HomeComponent.filteredItems
    (HomeComponent.applySearch
       (HomeComponent.set_searchQuery "   " (home_showing holiday_items)))
    = [0; 1; 2]%nat.
Proof.
  split.
  - rewrite (proj1 (proj2 (proj2 (applySearch_projection _)))). vm_compute. reflexivity.
  - rewrite (proj2 (proj2 (proj2 (proj2 (proj2 (applySearch_projection _)))))).
    + vm_compute. reflexivity.
    + unfold blank. simpl. repeat constructor.
Defined.

(** ** The operation guard *)

Section Guard.
Import HomeComponent MediaService JsString.

Lemma quiet_refl (s : State) : quiet s s.
Proof.
  split; [reflexivity |]. split.
  - exists []. rewrite app_nil_r. reflexivity.
  - exists []. rewrite app_nil_r. split; [reflexivity | constructor].
Qed.

Lemma quiet_trans (s1 s2 s3 : State) : quiet s1 s2 -> quiet s2 s3 -> quiet s1 s3.
Proof.
  intros (Hg1 & [f1 Hh1] & (r1 & Hi1 & Hr1)) (Hg2 & [f2 Hh2] & (r2 & Hi2 & Hr2)).
  split; [congruence |]. split.
  - exists (f1 ++ f2)%list. rewrite Hh2, Hh1, app_assoc. reflexivity.
  - exists (r1 ++ r2)%list. rewrite Hi2, Hi1, app_assoc.
    split; [reflexivity | apply Forall_app; split; assumption].
Qed.

Lemma quiet_dispatch (r : Request) (s : State) :
  (forall m, mutation_of m r = false) -> quiet s (dispatch r s).
Proof.
  intros Hr. split; [reflexivity |]. split.
  - exists []. simpl. rewrite app_nil_r. reflexivity.
  - exists [r]. split; [reflexivity | repeat constructor; exact Hr].
Qed.

(** A step that keeps guard, heap and requests is quiet. *)
Lemma quiet_same (s s' : State) :
  operatingItems s' = operatingItems s -> heap s' = heap s ->
  inflight s' = inflight s -> quiet s s'.
Proof.
  intros Hg Hh Hi. split; [exact Hg |]. split.
  - exists []. rewrite app_nil_r. exact Hh.
  - exists []. rewrite app_nil_r. split; [exact Hi | constructor].
Qed.

Lemma quiet_loadMedia (s : State) : quiet s (loadMedia s).
Proof.
  unfold loadMedia. eapply quiet_trans; [| apply quiet_dispatch; reflexivity].
  apply quiet_same; reflexivity.
Qed.

Lemma quiet_loadStorageSummary (s : State) : quiet s (loadStorageSummary s).
Proof.
  unfold loadStorageSummary. eapply quiet_trans; [| apply quiet_dispatch; reflexivity].
  apply quiet_same; reflexivity.
Qed.

Lemma quiet_applySearch (s : State) : quiet s (applySearch s).
Proof.
  unfold applySearch.
  destruct (negb (nonempty (trim (searchQuery s)))); apply quiet_same; reflexivity.
Qed.

Lemma quiet_refresh (storage : option StorageSummary) (s : State) :
  quiet s (refresh_storage_or_reload storage s).
Proof.
  destruct storage; simpl; [apply quiet_same; reflexivity | apply quiet_loadStorageSummary].
Qed.

Lemma quiet_uploadFile (file : File) (now : Z) (s : State) :
  quiet s (uploadFile file now s).
Proof.
  unfold uploadFile. eapply quiet_trans; [| apply quiet_dispatch; reflexivity].
  apply quiet_same; reflexivity.
Qed.

Lemma quiet_onFileSelected (file : option File) (now : Z) (s : State) :
  quiet s (onFileSelected file now s).
Proof.
  unfold onFileSelected. destruct file as [f |]; [| apply quiet_refl].
  destruct (_ <? _)%Z; [apply quiet_same; reflexivity |].
  destruct (negb _); [apply quiet_same; reflexivity |].
  eapply quiet_trans; [| apply quiet_uploadFile]. apply quiet_same; reflexivity.
Qed.

Lemma filter_length_app (p : Request -> bool) (l1 l2 : list Request) :
  length (List.filter p (l1 ++ l2)) =
    (length (List.filter p l1) + length (List.filter p l2))%nat.
Proof. rewrite List.filter_app, length_app. reflexivity. Qed.

Lemma filter_none (p : Request -> bool) (l : list Request) :
  Forall (fun r => p r = false) l -> List.filter p l = [].
Proof.
  induction 1 as [| r l Hr _ IH]; simpl; [reflexivity |]. rewrite Hr. exact IH.
Qed.

Lemma bound_extend (h fresh : list MediaItem) (r : Request) :
  bound h r -> bound (h ++ fresh) r.
Proof.
  destruct r; simpl; try tauto;
    intros (it & Hit & Hid); exists it; (split; [| exact Hid]);
    apply lookup_app_l_Some; exact Hit.
Qed.

Lemma bound_not_mutation (h : list MediaItem) (r : Request) :
  (forall m, mutation_of m r = false) -> bound h r.
Proof.
  destruct r; simpl; try tauto; intros Hm;
    specialize (Hm mediaId); rewrite String.eqb_refl in Hm; discriminate.
Qed.

Lemma guard_invariant_quiet (s s' : State) :
  guard_invariant s -> quiet s s' -> guard_invariant s'.
Proof.
  intros [Hcount Hbound] (Hg & [fresh Hh] & (rs & Hi & Hrs)). split.
  - intros m. unfold mutations_in_flight. rewrite Hi, filter_length_app, Hg.
    rewrite (filter_none _ rs); [simpl; rewrite Nat.add_0_r; apply Hcount |].
    eapply Forall_impl; [exact Hrs |]. intros r Hr. apply Hr.
  - rewrite Hi, Hh. apply Forall_app. split.
    + eapply Forall_impl; [exact Hbound |]. intros r. apply bound_extend.
    + eapply Forall_impl; [exact Hrs |]. intros r. apply bound_not_mutation.
Qed.

End Guard.

Section GuardSets.
Context (X : gset string) (m m' : string).

Lemma not_in_removed : m ∉ X ∖ {[ m ]}.
Proof.
  intros Hin. apply elem_of_difference in Hin as [_ Hout].
  apply Hout, elem_of_singleton. reflexivity.
Qed.

Lemma in_removed_other : m <> m' -> m' ∈ X ∖ {[ m ]} <-> m' ∈ X.
Proof.
  intros Hne. rewrite elem_of_difference, elem_of_singleton.
  split; [tauto |]. intros Hin. split; [exact Hin | congruence].
Qed.

Lemma in_added : m ∈ {[ m ]} ∪ X.
Proof. apply elem_of_union_l, elem_of_singleton. reflexivity. Qed.

Lemma in_added_other : m <> m' -> m' ∈ {[ m ]} ∪ X <-> m' ∈ X.
Proof.
  intros Hne. rewrite elem_of_union, elem_of_singleton.
  split; [intros [Heq | Hin]; [congruence | exact Hin] | tauto].
Qed.

End GuardSets.

Section GuardSteps.
Import HomeComponent MediaService JsString.

Lemma mutation_of_id (m m' : string) (r : Request) :
  mutation_of m r = true -> mutation_of m' r = String.eqb m m'.
Proof.
  destruct r; simpl; try discriminate; intros Hm; apply String.eqb_eq in Hm; subst; reflexivity.
Qed.

Lemma indicator_split (p : Request -> bool) (l : list Request) (n : nat) (r : Request) :
  l !! n = Some r ->
  length (List.filter p l) =
    (length (List.filter p (take n l ++ drop (S n) l)) + (if p r then 1 else 0))%nat.
Proof.
  intros Hn. rewrite <- (take_drop_middle l n r Hn) at 1.
  rewrite !filter_length_app. simpl. destruct (p r); simpl; lia.
Qed.

Lemma Forall_remove (P : Request -> Prop) (l : list Request) (n : nat) :
  Forall P l -> Forall P (take n l ++ drop (S n) l).
Proof.
  intros Hall. apply Forall_app. split; [apply Forall_take | apply Forall_drop]; exact Hall.
Qed.

(** A request that mutates no item leaves the guard as it is when it
    completes. *)
Lemma guard_invariant_remove (s : State) (n : nat) (r : Request) :
  guard_invariant s -> inflight s !! n = Some r ->
  (forall m, mutation_of m r = false) ->
  guard_invariant (set_inflight (take n (inflight s) ++ drop (S n) (inflight s)) s).
Proof.
  intros [Hcount Hbound] Hn Hr. split.
  - intros m. specialize (Hcount m). unfold mutations_in_flight in *. simpl.
    rewrite (indicator_split _ _ n r Hn), Hr in Hcount. lia.
  - simpl. apply Forall_remove. exact Hbound.
Qed.

(** Completion of a mutating request for [m]: the request leaves the
    list, [m] leaves the guard, and the item objects keep their ids. *)
Lemma guard_invariant_release (s s2 : State) (n : nat) (r : Request) (m : string) :
  guard_invariant s -> inflight s !! n = Some r -> mutation_of m r = true ->
  operatingItems s2 = operatingItems s ∖ {[ m ]} ->
  inflight s2 = (take n (inflight s) ++ drop (S n) (inflight s))%list ->
  (forall j x, heap s !! j = Some x -> exists x', heap s2 !! j = Some x' /\ id x' = id x) ->
  guard_invariant s2 /\ (m ∉ operatingItems s2) /\ mutations_in_flight m s2 = 0%nat.
Proof.
  intros [Hcount Hbound] Hn Hm Hg Hi Hh. unfold guard_matches_flight in Hcount.
  assert (Hcount2 : forall m', mutations_in_flight m' s2 =
            if bool_decide (m' ∈ operatingItems s2) then 1%nat else 0%nat).
  { intros m'. pose proof (Hcount m') as Hc. unfold mutations_in_flight in *.
    rewrite (indicator_split _ _ n r Hn), (mutation_of_id m m' r Hm), <- Hi in Hc.
    rewrite Hg. destruct (String.eqb_spec m m') as [Heq | Hne].
    - subst m'. rewrite bool_decide_eq_false_2 by apply not_in_removed.
      destruct (bool_decide (m ∈ operatingItems s)); lia.
    - rewrite Nat.add_0_r in Hc. rewrite Hc.
      rewrite (bool_decide_ext (m' ∈ operatingItems s ∖ {[m]}) (m' ∈ operatingItems s))
        by (apply in_removed_other; exact Hne).
      reflexivity. }
  split; [split |].
  - exact Hcount2.
  - rewrite Hi. apply Forall_remove. eapply Forall_impl; [exact Hbound |].
    intros r' Hr'. destruct r'; simpl in *; try tauto;
      destruct Hr' as (it & Hit & Hid); destruct (Hh _ _ Hit) as (x' & Hx' & Hidx);
      exists x'; (split; [exact Hx' | congruence]).
  - split; [rewrite Hg; apply not_in_removed |].
    specialize (Hcount2 m). rewrite Hg in Hcount2.
    rewrite bool_decide_eq_false_2 in Hcount2 by apply not_in_removed. exact Hcount2.
Qed.

(** Entering the guard and dispatching the request. *)
Lemma guard_invariant_acquire (s : State) (item : loc) (it : MediaItem) (r : Request) :
  guard_invariant s -> heap s !! item = Some it ->
  id it ∉ operatingItems s ->
  (forall m, mutation_of m r = String.eqb (id it) m) -> bound (heap s) r ->
  guard_invariant (dispatch r (set_operatingItems ({[ id it ]} ∪ operatingItems s) s)).
Proof.
  intros [Hcount Hbound] Hit Hfree Hr Hb. split.
  - intros m. specialize (Hcount m). unfold mutations_in_flight in *. simpl.
    rewrite filter_length_app. simpl. rewrite Hr, Hcount.
    destruct (String.eqb_spec (id it) m) as [Heq | Hne]; simpl.
    + subst m. rewrite bool_decide_eq_false_2 by exact Hfree.
      rewrite bool_decide_eq_true_2 by apply in_added. reflexivity.
    + rewrite Nat.add_0_r.
      rewrite (bool_decide_ext (m ∈ {[id it]} ∪ operatingItems s) (m ∈ operatingItems s))
        by (apply in_added_other; exact Hne).
      reflexivity.
  - simpl. apply Forall_app. split; [exact Hbound | repeat constructor; exact Hb].
Qed.

Lemma heap_ids_same (h : list MediaItem) :
  forall j x, h !! j = Some x -> exists x', h !! j = Some x' /\ id x' = id x.
Proof. intros j x Hx. eauto. Qed.

Lemma heap_ids_insert (h : list MediaItem) (item : loc) (it it' : MediaItem) :
  h !! item = Some it -> id it' = id it ->
  forall j x, h !! j = Some x ->
    exists x', <[ item := it' ]> h !! j = Some x' /\ id x' = id x.
Proof.
  intros Hit Hid j x Hx. destruct (decide (item = j)) as [Heq | Hne].
  - subst j. exists it'. split; [| congruence].
    apply list_lookup_insert_eq. eapply lookup_lt_Some; exact Hit.
  - exists x. split; [| reflexivity]. rewrite list_lookup_insert_ne by exact Hne. exact Hx.
Qed.

End GuardSteps.

Section GuardInvariant.
Import HomeComponent MediaService JsString.

Lemma guard_invariant_toggleFavorite (item : loc) (s s' : State) :
  guard_invariant s -> toggleFavorite item s = Some s' -> guard_invariant s'.
Proof.
  intros Hinv. unfold toggleFavorite.
  destruct (heap s !! item) as [it |] eqn:Hit; simpl; [| discriminate].
  case_bool_decide as Hin; intros [= <-]; [exact Hinv |].
  apply (guard_invariant_acquire s item it); try assumption.
  - intros m. reflexivity.
  - simpl. eauto.
Qed.

Lemma guard_invariant_toggleTrash (item : loc) (s s' : State) :
  guard_invariant s -> toggleTrash item s = Some s' -> guard_invariant s'.
Proof.
  intros Hinv. unfold toggleTrash.
  destruct (heap s !! item) as [it |] eqn:Hit; simpl; [| discriminate].
  case_bool_decide as Hin; intros [= <-]; [exact Hinv |].
  apply (guard_invariant_acquire s item it); try assumption.
  - intros m. reflexivity.
  - simpl. eauto.
Qed.

Lemma guard_invariant_deleteMedia (item : loc) (confirmed : bool) (s s' : State) :
  guard_invariant s -> deleteMedia item confirmed s = Some s' -> guard_invariant s'.
Proof.
  intros Hinv. unfold deleteMedia.
  destruct (heap s !! item) as [it |] eqn:Hit; simpl; [| discriminate].
  case_bool_decide as Hin; [intros [= <-]; exact Hinv |].
  destruct confirmed; intros [= <-]; [| exact Hinv].
  apply (guard_invariant_acquire s item it); try assumption.
  - intros m. reflexivity.
  - simpl. eauto.
Qed.

Lemma released_quiet (m : string) (s s' : State) :
  released m s -> quiet s s' -> released m s'.
Proof.
  intros (Hinv & Hout & Hzero) Hq.
  pose proof (guard_invariant_quiet s s' Hinv Hq) as Hinv'.
  destruct Hq as (Hg & _ & _).
  split; [exact Hinv' |]. split; [rewrite Hg; exact Hout |].
  destruct Hinv' as [Hcount _]. rewrite Hcount, Hg.
  rewrite bool_decide_eq_false_2 by exact Hout. reflexivity.
Qed.

Lemma released_after_release (s : State) (n : nat) (r : Request) (m : string)
    (h : list MediaItem) (it : MediaItem) :
  guard_invariant s -> inflight s !! n = Some r -> mutation_of m r = true ->
  id it = m ->
  (forall j x, heap s !! j = Some x -> exists x', h !! j = Some x' /\ id x' = id x) ->
  released m (after_release s n h it).
Proof.
  intros Hinv Hn Hm Hid Hh.
  apply (guard_invariant_release s _ n r m Hinv Hn Hm); simpl.
  - rewrite Hid. reflexivity.
  - reflexivity.
  - exact Hh.
Qed.

(** A mutating request for [m] completes, with a response or an error:
    the resulting state exists, satisfies the invariant, and [m] has
    left the guard. *)
Lemma complete_mutation (s : State) (n : nat) (r : Request) (m : string)
    (result : HttpResult Body) :
  guard_invariant s -> inflight s !! n = Some r -> mutation_of m r = true ->
  match result with
  | HttpOk (MutationResponse _ _) | HttpError _ => True
  | _ => False
  end ->
  exists s', complete n result s = Some s' /\ released m s'.
Proof.
  intros Hinv Hn Hm Hres.
  assert (Hb : bound (heap s) r).
  { destruct Hinv as [_ Hbound]. rewrite Forall_forall in Hbound.
    apply Hbound. eapply list_elem_of_lookup_2. exact Hn. }
  unfold complete. rewrite Hn. simpl.
  destruct r as [f | | file t fid | item m0 flag | item m0 flag | item m0];
    simpl in Hm; try discriminate; apply String.eqb_eq in Hm; subst m0;
    destruct Hb as (it & Hit & Hid);
    destruct result as [[items | summary | up st | ok st] | e];
    try contradiction; simpl; rewrite Hit; simpl;
    eexists; (split; [reflexivity |]).
  - (* toggleFavorite, next *)
    apply (released_quiet m
             (after_release s n (<[ item := with_isFavorite flag it ]> (heap s))
                (with_isFavorite flag it))).
    + eapply released_after_release; eauto using String.eqb_refl.
      apply (heap_ids_insert _ _ it); [exact Hit | reflexivity].
    + destruct (_ && _); [apply quiet_loadMedia | apply quiet_refl].
  - (* toggleFavorite, error *)
    apply (released_quiet m (after_release s n (heap s) it)).
    + eapply released_after_release; eauto using String.eqb_refl, heap_ids_same.
    + apply quiet_same; reflexivity.
  - (* toggleTrash, next *)
    apply (released_quiet m
             (after_release s n (<[ item := with_isDeleted flag it ]> (heap s))
                (with_isDeleted flag it))).
    + eapply released_after_release; eauto using String.eqb_refl.
      apply (heap_ids_insert _ _ it); [exact Hit | reflexivity].
    + destruct st as [summary |]; destruct (_ && _);
        try (apply quiet_same; reflexivity);
        (eapply quiet_trans; [| apply quiet_loadMedia]); apply quiet_same; reflexivity.
  - (* toggleTrash, error *)
    apply (released_quiet m (after_release s n (heap s) it)).
    + eapply released_after_release; eauto using String.eqb_refl, heap_ids_same.
    + apply quiet_same; reflexivity.
  - (* deleteMedia, next *)
    apply (released_quiet m (after_release s n (heap s) it)).
    + eapply released_after_release; eauto using String.eqb_refl, heap_ids_same.
    + eapply quiet_trans; [| apply quiet_loadMedia].
      eapply quiet_trans; [| apply quiet_refresh].
      apply quiet_same; reflexivity.
  - (* deleteMedia, error *)
    apply (released_quiet m (after_release s n (heap s) it)).
    + eapply released_after_release; eauto using String.eqb_refl, heap_ids_same.
    + apply quiet_same; reflexivity.
Qed.

End GuardInvariant.

Section GuardReachable.
Import HomeComponent MediaService JsString.

Lemma mutation_of_cases (r : Request) :
  (forall m, mutation_of m r = false) \/ (exists m, mutation_of m r = true).
Proof.
  destruct r; simpl; auto; right; exists mediaId; apply String.eqb_refl.
Qed.

Lemma complete_other (s s' : State) (n : nat) (r : Request) (result : HttpResult Body) :
  guard_invariant s -> inflight s !! n = Some r ->
  (forall m, mutation_of m r = false) ->
  complete n result s = Some s' -> guard_invariant s'.
Proof.
  intros Hinv Hn Hr.
  pose proof (guard_invariant_remove s n r Hinv Hn Hr) as Hinv1.
  unfold complete. rewrite Hn. simpl.
  set (s1 := set_inflight (take n (inflight s) ++ drop (S n) (inflight s)) s) in *.
  assert (Hquiet : forall s2, quiet s1 s2 -> guard_invariant s2)
    by (intros s2; apply guard_invariant_quiet; exact Hinv1).
  destruct r as [f | | file t fid | item m0 flag | item m0 flag | item m0];
    try (specialize (Hr m0); simpl in Hr; rewrite String.eqb_refl in Hr; discriminate);
    destruct result as [[items | summary | up st | ok st] | e]; simpl;
    try discriminate; intros [= <-]; apply Hquiet.
  - (* loadMedia, next *)
    eapply quiet_trans; [| apply quiet_same; reflexivity].
    eapply quiet_trans; [| apply quiet_applySearch].
    split; [reflexivity |]. split.
    + exists items. reflexivity.
    + exists []. simpl. rewrite app_nil_r. split; [reflexivity | constructor].
  - (* loadMedia, error *)
    destruct (status e =? 401)%Z; apply quiet_same; reflexivity.
  - (* loadStorageSummary, next *)
    apply quiet_same; reflexivity.
  - (* loadStorageSummary, error *)
    apply quiet_same; reflexivity.
  - (* uploadFile, next *)
    eapply quiet_trans; [| apply quiet_loadMedia].
    eapply quiet_trans; [| apply quiet_refresh].
    apply quiet_same; reflexivity.
  - (* uploadFile, error *)
    apply quiet_same; reflexivity.
Qed.

Lemma guard_invariant_complete (s s' : State) (n : nat) (result : HttpResult Body) :
  guard_invariant s -> complete n result s = Some s' -> guard_invariant s'.
Proof.
  intros Hinv Hc.
  destruct (inflight s !! n) as [r |] eqn:Hn;
    [| unfold complete in Hc; rewrite Hn in Hc; discriminate].
  destruct (mutation_of_cases r) as [Hr | [m Hm]].
  - eapply complete_other; eassumption.
  - assert (Hres : match result with
                   | HttpOk (MutationResponse _ _) | HttpError _ => True
                   | _ => False
                   end).
    { unfold complete in Hc. rewrite Hn in Hc. simpl in Hc.
      destruct r; simpl in Hm; try discriminate;
        destruct result as [[| | |] |]; simpl in Hc; try discriminate; exact I. }
    destruct (complete_mutation s n r m result Hinv Hn Hm Hres) as (s'' & Hc' & Hrel & _).
    congruence.
Qed.

Lemma guard_invariant_step (ev : Event) (s s' : State) :
  guard_invariant s -> step ev s = Some s' -> guard_invariant s'.
Proof.
  intros Hinv. destruct ev as [tab | q | | file now | item | item | item c | n result];
    unfold step.
  - intros [= <-]. eapply guard_invariant_quiet; [exact Hinv |].
    unfold setActiveTab. eapply quiet_trans; [| apply quiet_loadMedia].
    apply quiet_same; reflexivity.
  - intros [= <-]. eapply guard_invariant_quiet; [exact Hinv |].
    unfold onSearch. eapply quiet_trans; [| apply quiet_applySearch].
    apply quiet_same; reflexivity.
  - intros [= <-]. eapply guard_invariant_quiet; [exact Hinv |].
    unfold clearSearch. eapply quiet_trans; [| apply quiet_applySearch].
    apply quiet_same; reflexivity.
  - intros [= <-]. eapply guard_invariant_quiet; [exact Hinv |].
    apply quiet_onFileSelected.
  - apply guard_invariant_toggleFavorite. exact Hinv.
  - apply guard_invariant_toggleTrash. exact Hinv.
  - apply guard_invariant_deleteMedia. exact Hinv.
  - apply guard_invariant_complete. exact Hinv.
Qed.

Lemma guard_invariant_run (evs : list Event) (s s' : State) :
  guard_invariant s -> run evs s = Some s' -> guard_invariant s'.
Proof.
  revert s. induction evs as [| ev evs IH]; intros s Hinv; simpl.
  - intros [= <-]. exact Hinv.
  - destruct (step ev s) as [s1 |] eqn:Hstep; simpl; [| discriminate].
    apply IH. eapply guard_invariant_step; eassumption.
Qed.

Lemma guard_invariant_ngOnInit (auth : World) :
  guard_invariant (ngOnInit (created auth)).
Proof.
  apply (guard_invariant_quiet (created auth)).
  - split; [| constructor]. intros m. reflexivity.
  - unfold ngOnInit. eapply quiet_trans; [apply quiet_loadMedia | apply quiet_loadStorageSummary].
Qed.

End GuardReachable.

(** C5: in every state the component can reach, the mutating requests
    in flight for an item id number one if the id is in the guard and
    none otherwise; a toggle or delete call on an id in the guard leaves
    the state as it is, so it issues no request; a call on an id outside
    the guard enters the id in the guard and then dispatches one request;
    and when a mutating request completes, with a response or with an
    error, the id is out of the guard again and no request for it is in
    flight. *)
Theorem operation_guard_exclusive
    (auth : World) (evs : list HomeComponent.Event) (s : HomeComponent.State) :
  HomeComponent.run evs (HomeComponent.ngOnInit (HomeComponent.created auth)) = Some s ->
  (forall mediaId,
     mutations_in_flight mediaId s =
       if bool_decide (mediaId ∈ HomeComponent.operatingItems s) then 1%nat else 0%nat) /\
  (forall item it,
     HomeComponent.heap s !! item = Some it ->
     MediaService.id it ∈ HomeComponent.operatingItems s ->
     HomeComponent.toggleFavorite item s = Some s /\
     HomeComponent.toggleTrash item s = Some s /\
     forall confirmed, HomeComponent.deleteMedia item confirmed s = Some s) /\
  (forall item it,
     HomeComponent.heap s !! item = Some it ->
     MediaService.id it ∉ HomeComponent.operatingItems s ->
     let guarded :=
       HomeComponent.set_operatingItems
         ({[ MediaService.id it ]} ∪ HomeComponent.operatingItems s) s in
     HomeComponent.isOperating (MediaService.id it) guarded = true /\
     HomeComponent.toggleFavorite item s =
       Some (HomeComponent.dispatch
               (HomeComponent.ReqToggleFavorite item (MediaService.id it)
                  (negb (MediaService.isFavorite it))) guarded) /\
     HomeComponent.toggleTrash item s =
       Some (HomeComponent.dispatch
               (HomeComponent.ReqToggleTrash item (MediaService.id it)
                  (negb (MediaService.isDeleted it))) guarded) /\
     HomeComponent.deleteMedia item true s =
       Some (HomeComponent.dispatch
               (HomeComponent.ReqDeleteMedia item (MediaService.id it)) guarded) /\
     HomeComponent.deleteMedia item false s = Some s) /\
  (forall n r mediaId result,
     HomeComponent.inflight s !! n = Some r ->
     mutation_of mediaId r = true ->
     match result with
     | HttpOk (HomeComponent.MutationResponse _ _) | HttpError _ => True
     | _ => False
     end ->
     exists s', HomeComponent.complete n result s = Some s' /\
       HomeComponent.isOperating mediaId s' = false /\
       mutations_in_flight mediaId s' = 0%nat).
Proof.
  intros Hrun.
  assert (Hinv : guard_invariant s).
  { eapply guard_invariant_run; [apply guard_invariant_ngOnInit | exact Hrun]. }
  split; [exact (proj1 Hinv) |].
  split.
  { intros item it Hit Hin.
    unfold HomeComponent.toggleFavorite, HomeComponent.toggleTrash, HomeComponent.deleteMedia.
    rewrite Hit. simpl. rewrite bool_decide_eq_true_2 by exact Hin. auto. }
  split.
  { intros item it Hit Hout guarded.
    unfold HomeComponent.toggleFavorite, HomeComponent.toggleTrash, HomeComponent.deleteMedia.
    rewrite Hit. simpl. rewrite bool_decide_eq_false_2 by exact Hout.
    repeat split; try reflexivity.
    unfold HomeComponent.isOperating. apply bool_decide_eq_true_2. subst guarded. simpl.
    apply in_added. }
  intros n r mediaId result Hn Hm Hres.
  destruct (complete_mutation s n r mediaId result Hinv Hn Hm Hres)
    as (s' & Hc & _ & Hout & Hzero).
  exists s'. split; [exact Hc |]. split; [| exact Hzero].
  unfold HomeComponent.isOperating. apply bool_decide_eq_false_2. exact Hout.
Qed.

Lemma operation_guard_exclusive_witness :
  exists s,
    HomeComponent.run double_click
      (HomeComponent.ngOnInit (HomeComponent.created (AuthService.init ∅))) = Some s /\
    mutations_in_flight "a" s = 1%nat /\
    HomeComponent.toggleTrash 0 s = Some s /\
    exists s', HomeComponent.complete 1 (HttpError server_error) s = Some s' /\
      HomeComponent.isOperating "a" s' = false /\
      mutations_in_flight "a" s' = 0%nat.
Proof.
  destruct (HomeComponent.run double_click
              (HomeComponent.ngOnInit (HomeComponent.created (AuthService.init ∅))))
    as [s |] eqn:Hrun; [| vm_compute in Hrun; discriminate Hrun].
  exists s. split; [reflexivity |].
  pose proof (operation_guard_exclusive _ _ _ Hrun) as (Hcount & Hnoop & _ & Hdone).
  assert (Hs : HomeComponent.inflight s !! 1%nat =
                 Some (HomeComponent.ReqToggleFavorite 0 "a" true) /\
               HomeComponent.heap s !! 0%nat =
                 Some (item_titled "a" "Vacation.jpg" MediaService.photo false false) /\
               bool_decide ("a" ∈ HomeComponent.operatingItems s) = true).
  { vm_compute in Hrun. injection Hrun as <-. vm_compute. auto. }
  destruct Hs as (Hreq & Hitem & Hin).
  split; [rewrite Hcount, Hin; reflexivity |].
  split.
  - apply (Hnoop 0%nat _ Hitem). apply bool_decide_eq_true in Hin. exact Hin.
  - apply (Hdone 1%nat _ "a" (HttpError server_error) Hreq); [reflexivity | exact I].
Defined.

(** ** Leaving the active tab *)

Section Toggles.
Import HomeComponent MediaService.

Lemma toggleFavorite_next (s : State) (item : loc) (m : string) (flag ok : bool)
    (st : option StorageSummary) (it : MediaItem) :
  heap s !! item = Some it ->
  exists s',
    on_next (ReqToggleFavorite item m flag) (MutationResponse ok st) s = Some s' /\
    heap s' = <[ item := with_isFavorite flag it ]> (heap s) /\
    filteredItems s' = filteredItems s /\
    storageSummary s' = storageSummary s /\
    inflight s' =
      (inflight s ++ reload_if (String.eqb (activeTab s) "favorites" && negb flag)
                       (activeTab s))%list.
Proof.
  intros Hit. simpl. rewrite Hit. simpl. eexists. split; [reflexivity |].
  destruct (_ && _); simpl; rewrite ?app_nil_r; auto.
Qed.

Lemma toggleTrash_next (s : State) (item : loc) (m : string) (flag ok : bool)
    (st : option StorageSummary) (it : MediaItem) :
  heap s !! item = Some it ->
  exists s',
    on_next (ReqToggleTrash item m flag) (MutationResponse ok st) s = Some s' /\
    heap s' = <[ item := with_isDeleted flag it ]> (heap s) /\
    filteredItems s' = filteredItems s /\
    storageSummary s' = (match st with Some _ => st | None => storageSummary s end) /\
    inflight s' =
      (inflight s ++ reload_if (negb (String.eqb (activeTab s) "trash") && flag)
                       (activeTab s))%list.
Proof.
  intros Hit. simpl. rewrite Hit. simpl. eexists. split; [reflexivity |].
  destruct st; destruct (_ && _); simpl; rewrite ?app_nil_r; auto.
Qed.

Lemma deleteMedia_next (s : State) (item : loc) (m : string) (ok : bool)
    (st : option StorageSummary) (it : MediaItem) :
  heap s !! item = Some it ->
  exists s',
    on_next (ReqDeleteMedia item m) (MutationResponse ok st) s = Some s' /\
    match st with
    | Some summary =>
        storageSummary s' = Some summary /\
        inflight s' = (inflight s ++ [ReqGetMedia (tab_filters (activeTab s))])%list
    | None =>
        inflight s' = (inflight s ++ [ReqGetStorageSummary;
                                      ReqGetMedia (tab_filters (activeTab s))])%list
    end.
Proof.
  intros Hit. simpl. rewrite Hit. simpl. eexists. split; [reflexivity |].
  destruct st; simpl; [split; reflexivity |]. rewrite <- app_assoc. reflexivity.
Qed.

Lemma uploadMedia_next (s : State) (file : File) (title fileId : string)
    (uploaded : MediaItem) (st : option StorageSummary) :
  exists s',
    on_next (ReqUploadMedia file title fileId) (UploadResponse uploaded st) s = Some s' /\
    match st with
    | Some summary =>
        storageSummary s' = Some summary /\
        inflight s' = (inflight s ++ [ReqGetMedia (tab_filters (activeTab s))])%list
    | None =>
        inflight s' = (inflight s ++ [ReqGetStorageSummary;
                                      ReqGetMedia (tab_filters (activeTab s))])%list
    end.
Proof.
  simpl. eexists. split; [reflexivity |].
  destruct st; simpl; [split; reflexivity |]. rewrite <- app_assoc. reflexivity.
Qed.

(** A favourite toggle that takes a listed item out of the tab's list
    is followed by a reload. *)
Lemma favorite_toggle_reloads (tab : string) (it : MediaItem) (flag : bool) :
  is_tab tab -> tab_member tab it = true ->
  tab_member tab (with_isFavorite flag it) = false ->
  String.eqb tab "favorites" && negb flag = true.
Proof.
  intros [-> | [-> | [-> | [-> | ->]]]]; unfold tab_member; simpl;
    destruct it as [i [| |] t sz fav del c]; simpl; destruct fav, del, flag; simpl;
    congruence.
Qed.

(** A trash toggle that takes a listed item out of the list of any tab
    but the trash is followed by a reload. *)
Lemma trash_toggle_reloads (tab : string) (it : MediaItem) (flag : bool) :
  is_tab tab -> tab <> "trash" -> tab_member tab it = true ->
  tab_member tab (with_isDeleted flag it) = false ->
  negb (String.eqb tab "trash") && flag = true.
Proof.
  intros [-> | [-> | [-> | [-> | ->]]]] Hne; try congruence; unfold tab_member; simpl;
    destruct it as [i [| |] t sz fav del c]; simpl; destruct fav, del, flag; simpl;
    congruence.
Qed.

End Toggles.

(** C6, at the failing input: after a confirmed restore on the trash
    tab the local copy is no longer deleted, so it is not a member of
    the trash list, yet it is still displayed and no request that would
    refresh the list is in flight. *)
Theorem restore_on_trash_tab_keeps_item :
  exists s it,
    HomeComponent.run restore_in_trash
      (HomeComponent.ngOnInit (HomeComponent.created (AuthService.init ∅))) = Some s /\
    HomeComponent.activeTab s = "trash" /\
    HomeComponent.heap s !! 0%nat = Some it /\
    MediaService.isDeleted it = false /\
    tab_member "trash" it = false /\
    HomeComponent.filteredItems s = [0%nat] /\
    HomeComponent.inflight s = [].
Proof.
  eexists. exists (HomeComponent.with_isDeleted false trashed_item).
  split; [vm_compute; reflexivity |].
  repeat split.
Qed.

(** C8, at the failing input: a trash toggle confirmed without a
    storage summary keeps the old summary and requests only the list,
    where a permanent delete confirmed in the same way requests the
    storage summary too. *)
Theorem trash_toggle_skips_quota_refresh :
  (exists s,
     HomeComponent.run trash_without_summary
       (HomeComponent.ngOnInit (HomeComponent.created (AuthService.init ∅))) = Some s /\
     HomeComponent.storageSummary s = Some summary_70_of_200 /\
     HomeComponent.inflight s =
       [HomeComponent.ReqGetMedia (HomeComponent.tab_filters "photos")]) /\
  (exists s,
     HomeComponent.run delete_without_summary
       (HomeComponent.ngOnInit (HomeComponent.created (AuthService.init ∅))) = Some s /\
     HomeComponent.inflight s =
       [HomeComponent.ReqGetStorageSummary;
        HomeComponent.ReqGetMedia (HomeComponent.tab_filters "photos")]).
Proof.
  split; eexists; (split; [vm_compute; reflexivity |]); repeat split.
Qed.

(** * Further properties *)

(** ** The session over time *)

Section SessionOverTime.
Context `{Platform}.

Lemma Qlt_bool_mono (q n n' : Q) :
  (n <= n')%Q -> Qlt_bool q n = true -> Qlt_bool q n' = true.
Proof.
  unfold Qlt_bool. intros Hle Hlt.
  apply negb_true_iff, not_true_iff_false. intros Hge. apply Qle_bool_iff in Hge.
  apply negb_true_iff, not_true_iff_false in Hlt. apply Hlt.
  apply Qle_bool_iff. eapply Qle_trans; eassumption.
Qed.

Lemma epoch_seconds_mono (t t' : Z) :
  (t <= t')%Z -> (epoch_seconds t <= epoch_seconds t')%Q.
Proof.
  intros Hle. unfold epoch_seconds. rewrite <- Zle_Qle.
  apply Z.div_le_mono; lia.
Qed.

Lemma js_lt_mono (v : JsValue) (n n' : Q) :
  (n <= n')%Q ->
  match js_lt v n with Throw => true | Normal b => b end = true ->
  match js_lt v n' with Throw => true | Normal b => b end = true.
Proof.
  intros Hle. unfold js_lt.
  destruct v as [| b | q | s | l | kvs]; try (apply Qlt_bool_mono; exact Hle);
    destruct (ToNumber_coerce _) as [[q |] |]; try (intros; assumption);
    apply Qlt_bool_mono; exact Hle.
Qed.

End SessionOverTime.

(** X1: a token classified as expired at one time is classified as
    expired at every later time. *)
Theorem isTokenExpired_monotone `{Platform} (token : string) (t t' : Z) :
  (t <= t')%Z ->
  AuthService.isTokenExpired token t = true ->
  AuthService.isTokenExpired token t' = true.
Proof.
  intros Hle. rewrite !isTokenExpired_payload.
  destruct (payload_of token) as [payload |]; [| reflexivity].
  destruct (expiry_claim payload) as [exp |]; [| reflexivity].
  destruct (truthy exp); [| reflexivity].
  apply js_lt_mono, epoch_seconds_mono, Hle.
Qed.

Lemma isTokenExpired_monotone_witness :
  AuthService.isTokenExpired test_token 1700000000000 = true /\
  AuthService.isTokenExpired test_token 1800000000000 = true.
Proof.
  assert (Hfirst : AuthService.isTokenExpired test_token 1700000000000 = true)
    by (vm_compute; reflexivity).
  split; [exact Hfirst |].
  apply (isTokenExpired_monotone test_token 1700000000000 1800000000000); [lia | exact Hfirst].
Defined.

Lemma check_after_logout `{Platform} (Date_now : Z) (w : World) :
  AuthService.isAuthenticated Date_now (AuthService.logout w)
    = (false, AuthService.logout w).
Proof.
  assert (Hflag : isLoggingOut (AuthService.logout w) = true).
  { destruct (isLoggingOut w) eqn:Hw.
    - rewrite logout_in_progress; assumption.
    - rewrite logout_first by exact Hw. reflexivity. }
  unfold AuthService.isAuthenticated at 1. rewrite Hflag. reflexivity.
Qed.

(** X2: after [logout], whether it ran the sequence or found one in
    progress, the session check fails at any time and changes nothing,
    and the route guard denies entry and requests the sign-in view. *)
Theorem isAuthenticated_after_logout `{Platform} (Date_now : Z) (w : World) :
  AuthService.isAuthenticated Date_now (AuthService.logout w)
    = (false, AuthService.logout w) /\
  AuthGuard.canActivate Date_now (AuthService.logout w)
    = (false, navigate "/login" NoContinuation (AuthService.logout w)).
Proof.
  split; [apply check_after_logout |].
  unfold AuthGuard.canActivate. rewrite check_after_logout. reflexivity.
Qed.

(** X3: the session check is idempotent: asked again at the same time
    it gives the same answer and leaves the state it produced as it is. *)
Theorem isAuthenticated_idempotent `{Platform} (Date_now : Z) (w : World) :
  AuthService.isAuthenticated Date_now (snd (AuthService.isAuthenticated Date_now w))
    = AuthService.isAuthenticated Date_now w.
Proof.
  unfold AuthService.isAuthenticated at 2 3.
  destruct (isLoggingOut w) eqn:Hflag; simpl.
  { unfold AuthService.isAuthenticated. rewrite Hflag. reflexivity. }
  destruct (AuthService.getToken w) as [token |] eqn:Htok; simpl.
  2: { unfold AuthService.isAuthenticated. rewrite Hflag, Htok. reflexivity. }
  destruct (negb (nonempty token)) eqn:Hne; simpl.
  { unfold AuthService.isAuthenticated. rewrite Hflag, Htok, Hne. reflexivity. }
  destruct (AuthService.isTokenExpired token Date_now) eqn:Hexp; simpl.
  - apply check_after_logout.
  - unfold AuthService.isAuthenticated. rewrite Hflag, Htok, Hne, Hexp. reflexivity.
Qed.

Lemma check_after_sign_in `{Platform}
    (response : AuthService.AuthResponse) (Date_now : Z) (w : World) :
  isLoggingOut w = false ->
  nonempty (AuthService.accessToken response) = true ->
  AuthService.isTokenExpired (AuthService.accessToken response) Date_now = false ->
  forall w', localStorage w' = localStorage (AuthService.handleAuthSuccess response w) ->
    isLoggingOut w' = false ->
    AuthService.isAuthenticated Date_now w' = (true, w').
Proof.
  intros Hflag Hne Hexp w' Hstore Hflag'.
  unfold AuthService.isAuthenticated, AuthService.getToken, getItem.
  rewrite Hflag', Hstore, handleAuthSuccess_store.
  rewrite lookup_insert_ne by discriminate. rewrite lookup_insert_eq.
  rewrite Hne, Hexp. reflexivity.
Qed.

(** X4: signing in stores the token and publishes the user; with no
    logout in progress and a non-empty token that is not expired, the
    session check then succeeds without any effect and the route guard
    grants entry; with a logout in progress the check still fails. *)
Theorem sign_in_then_check `{Platform}
    (response : AuthService.AuthResponse) (Date_now : Z) (w : World) :
  let w' := AuthService.handleAuthSuccess response w in
  AuthService.getToken w' = Some (AuthService.accessToken response) /\
  AuthService.getUser w' = AuthService.user response /\
  (isLoggingOut w = false ->
   nonempty (AuthService.accessToken response) = true ->
   AuthService.isTokenExpired (AuthService.accessToken response) Date_now = false ->
   AuthService.isAuthenticated Date_now w' = (true, w') /\
   AuthGuard.canActivate Date_now w' = (true, w')) /\
  (isLoggingOut w = true ->
   AuthService.isAuthenticated Date_now w' = (false, w')).
Proof.
  intros w'.
  assert (Htok : AuthService.getToken w' = Some (AuthService.accessToken response)).
  { unfold AuthService.getToken, getItem. subst w'. rewrite handleAuthSuccess_store.
    rewrite lookup_insert_ne by discriminate. apply lookup_insert_eq. }
  split; [exact Htok |]. split; [reflexivity |]. split.
  - intros Hflag Hne Hexp.
    assert (Hcheck : AuthService.isAuthenticated Date_now w' = (true, w')).
    { unfold AuthService.isAuthenticated. rewrite Htok.
      change (isLoggingOut w') with (isLoggingOut w). rewrite Hflag, Hne, Hexp. reflexivity. }
    split; [exact Hcheck |]. unfold AuthGuard.canActivate. rewrite Hcheck. reflexivity.
  - intros Hflag. unfold AuthService.isAuthenticated.
    change (isLoggingOut w') with (isLoggingOut w). rewrite Hflag. reflexivity.
Qed.

Lemma sign_in_then_check_witness :
  AuthService.isAuthenticated 1500000000000
    (AuthService.handleAuthSuccess test_response empty_world)
  = (true, AuthService.handleAuthSuccess test_response empty_world).
Proof.
  apply (proj1 (proj2 (proj2 (sign_in_then_check test_response 1500000000000 empty_world))));
    vm_compute; reflexivity.
Defined.

(** X5: a session survives a restart: when the platform parses back
    what it printed for the user, the service started on the store left
    by a sign-in finds the same token and restores the same user,
    without changing the store. *)
Theorem session_survives_restart `{Platform}
    (response : AuthService.AuthResponse) (w : World) :
  let store := localStorage (AuthService.handleAuthSuccess response w) in
  let u := AuthService.user response in
  nonempty (JSON_stringify u) = true ->
  JSON_parse (JSON_stringify u) = Some u ->
  AuthService.getUser (AuthService.init store) = u /\
  AuthService.getToken (AuthService.init store) = Some (AuthService.accessToken response) /\
  localStorage (AuthService.init store) = store.
Proof.
  intros store u Hne Hparse.
  assert (Huser : store !! AuthService.USER_KEY = Some (JSON_stringify u)).
  { subst store. rewrite handleAuthSuccess_store. apply lookup_insert_eq. }
  assert (Htok : store !! AuthService.TOKEN_KEY = Some (AuthService.accessToken response)).
  { subst store. rewrite handleAuthSuccess_store.
    rewrite lookup_insert_ne by discriminate. apply lookup_insert_eq. }
  unfold AuthService.getUser, AuthService.getToken, getItem,
    AuthService.init, AuthService.getUserFromStorage, getItem. simpl.
  rewrite Huser, Hne, Hparse. simpl. auto.
Qed.

Lemma session_survives_restart_witness :
  AuthService.getUser
    (AuthService.init (localStorage (AuthService.handleAuthSuccess test_response empty_world)))
  = test_user.
Proof.
  apply (session_survives_restart test_response empty_world); vm_compute; reflexivity.
Defined.

Section Stalled.
Context `{Platform}.

Lemma stalled_navigate (path : string) (w : World) :
  logout_stalled w -> logout_stalled (navigate path NoContinuation w).
Proof.
  intros [Hflag Hall]. split; [exact Hflag |]. simpl.
  apply Forall_app. split; [exact Hall | repeat constructor].
Qed.

Lemma stalled_check (Date_now : Z) (w : World) :
  logout_stalled w -> AuthService.isAuthenticated Date_now w = (false, w).
Proof.
  intros [Hflag _]. unfold AuthService.isAuthenticated. rewrite Hflag. reflexivity.
Qed.

Lemma stalled_settle (i : nat) (outcome : Settlement) (w : World) :
  logout_stalled w ->
  logout_stalled (settle i outcome w) /\ trace (settle i outcome w) = trace w.
Proof.
  intros [Hflag Hall]. unfold settle.
  destruct (navigations w !! i) as [k |] eqn:Hk; [| repeat split; assumption].
  assert (Hu : unobserved k).
  { exact (Forall_lookup_1 _ _ _ _ Hall Hk). }
  rewrite Hu. destruct outcome; simpl; (split; [split |]); try assumption; try reflexivity;
    simpl; apply Forall_app; (split; [apply Forall_take | apply Forall_drop]); exact Hall.
Qed.

(** Once stalled, the session stays stalled and starts no logout cycle,
    whatever is called and whatever settles. *)
Lemma stalled_step (ev : SessionEvent) (w : World) :
  logout_stalled w ->
  logout_stalled (session_step ev w) /\
  logout_cycles (session_step ev w) = logout_cycles w.
Proof.
  intros Hs. pose proof Hs as [Hflag Hall].
  destruct ev as [| now | now | r | e now | i outcome]; unfold session_step.
  - rewrite logout_in_progress by exact Hflag. split; [exact Hs | reflexivity].
  - rewrite stalled_check by exact Hs. split; [exact Hs | reflexivity].
  - unfold AuthGuard.canActivate. rewrite stalled_check by exact Hs. simpl.
    split; [apply stalled_navigate, Hs | apply logout_cycles_navigate].
  - split; [split; [exact Hflag | exact Hall] |].
    unfold AuthService.handleAuthSuccess, logout_cycles. simpl.
    rewrite !count_effects_app. simpl. lia.
  - unfold ErrorInterceptor.onError. simpl.
    destruct (status e =? 401)%Z; [| split; [exact Hs | reflexivity]].
    rewrite stalled_check by exact Hs.
    split; [apply stalled_navigate, Hs | apply logout_cycles_navigate].
  - split; [apply stalled_settle, Hs | apply logout_cycles_settle].
Qed.

Lemma stalled_run (evs : list SessionEvent) (w : World) :
  logout_stalled w ->
  logout_stalled (session_run evs w) /\
  logout_cycles (session_run evs w) = logout_cycles w.
Proof.
  revert w. induction evs as [| ev evs IH]; intros w Hs; simpl;
    [split; [exact Hs | reflexivity] |].
  destruct (stalled_step ev w Hs) as [Hs' Hc'].
  destruct (IH _ Hs') as [Hs'' Hc'']. split; [exact Hs'' | congruence].
Qed.

End Stalled.

(** X6: the in-progress flag raised by [logout] is lowered only by the
    fulfilment of the navigation it requested. Once that navigation is
    fulfilled the flag is cleared and the list of pending navigations is
    what it was, and a further [logout] runs the whole sequence again.
    If it is rejected instead, nothing is run: the flag stays raised,
    [logout] does nothing, and, when no other pending navigation clears
    the flag, so it remains whatever is called and whatever settles: no
    logout cycle starts and the session check fails, also after a new
    sign-in. *)
Theorem logout_rearmed_on_fulfilment_only `{Platform}
    (w : World) (evs : list SessionEvent) (later : Z) :
  isLoggingOut w = false ->
  let i := length (navigations w) in
  let fulfilled := settle i Fulfilled (AuthService.logout w) in
  let rejected := settle i Rejected (AuthService.logout w) in
  (isLoggingOut fulfilled = false /\
   navigations fulfilled = navigations w /\
   localStorage fulfilled = localStorage (AuthService.logout w) /\
   trace (AuthService.logout fulfilled)
     = (trace w ++ logout_sequence ++ [SetFlag false] ++ logout_sequence)%list /\
   logout_cycles (AuthService.logout fulfilled) = S (S (logout_cycles w))) /\
  (isLoggingOut rejected = true /\
   navigations rejected = navigations w /\
   localStorage rejected = localStorage (AuthService.logout w) /\
   trace rejected = trace (AuthService.logout w) /\
   AuthService.logout rejected = rejected) /\
  (Forall unobserved (navigations w) ->
   isLoggingOut (session_run evs rejected) = true /\
   logout_cycles (session_run evs rejected) = S (logout_cycles w) /\
   AuthService.isAuthenticated later (session_run evs rejected)
     = (false, session_run evs rejected)).
Proof.
  intros Hflag i fulfilled rejected.
  assert (Hpending : forall outcome,
            settle i outcome (AuthService.logout w) =
            run_continuation ThenClearFlag outcome
              {| localStorage := localStorage (AuthService.logout w);
                 navigations := navigations w;
                 currentUserSubject := JNull;
                 isLoggingOut := true;
                 trace := trace w ++ logout_sequence |}).
  { intros outcome. subst i. rewrite logout_first by exact Hflag. unfold settle. simpl.
    rewrite lookup_app_r by lia. rewrite Nat.sub_diag. simpl.
    rewrite take_app_length. rewrite drop_ge by (rewrite length_app; simpl; lia).
    rewrite app_nil_r. reflexivity. }
  assert (Hrejected : rejected =
            {| localStorage := localStorage (AuthService.logout w);
               navigations := navigations w;
               currentUserSubject := JNull;
               isLoggingOut := true;
               trace := trace w ++ logout_sequence |}).
  { subst rejected. rewrite Hpending. reflexivity. }
  split; [| split].
  - subst fulfilled. rewrite Hpending. simpl.
    split; [reflexivity |]. split; [reflexivity |]. split; [reflexivity |].
    rewrite logout_first by reflexivity. unfold logout_cycles. simpl. split.
    + unfold logout_sequence. rewrite <- !app_assoc. reflexivity.
    + rewrite !count_effects_app. simpl. lia.
  - rewrite Hrejected. simpl.
    split; [reflexivity |]. split; [reflexivity |]. split; [reflexivity |].
    split; [rewrite logout_first by exact Hflag; reflexivity |].
    apply logout_in_progress. reflexivity.
  - intros Hall.
    assert (Hs : logout_stalled rejected).
    { rewrite Hrejected. split; [reflexivity | exact Hall]. }
    destruct (stalled_run evs rejected Hs) as [Hs' Hc].
    split; [exact (proj1 Hs') |]. split.
    + rewrite Hc, Hrejected. unfold logout_cycles. simpl.
      rewrite count_effects_app. simpl. lia.
    + apply stalled_check, Hs'.
Qed.

Lemma logout_rearmed_on_fulfilment_only_witness :
  logout_cycles (AuthService.logout (settle 0 Fulfilled (AuthService.logout signed_in_world)))
    = 2%nat /\
  AuthService.isAuthenticated 1500000000000
    (session_run sign_in_again (settle 0 Rejected (AuthService.logout signed_in_world)))
  = (false,
     session_run sign_in_again (settle 0 Rejected (AuthService.logout signed_in_world))).
Proof.
  pose proof (logout_rearmed_on_fulfilment_only signed_in_world sign_in_again
                1500000000000 eq_refl) as [Hfulfilled [_ Hrejected]].
  split.
  - exact (proj2 (proj2 (proj2 (proj2 Hfulfilled)))).
  - apply Hrejected. constructor.
Defined.

(** X7: starting the service never touches the token entry, requests no
    navigation and raises no flag; it leaves the store as found, or
    removes the user entry when that entry does not parse; and a user it
    restores is what the user entry parses to. *)
Theorem init_keeps_token `{Platform} (store : gmap string string) :
  let w := AuthService.init store in
  localStorage w !! AuthService.TOKEN_KEY = store !! AuthService.TOKEN_KEY /\
  (localStorage w = store \/
   localStorage w = delete AuthService.USER_KEY store /\
   exists userStr, store !! AuthService.USER_KEY = Some userStr /\
                   JSON_parse userStr = None) /\
  isLoggingOut w = false /\
  navigations w = [] /\
  (AuthService.getUser w <> JNull ->
   exists userStr, store !! AuthService.USER_KEY = Some userStr /\
                   JSON_parse userStr = Some (AuthService.getUser w)).
Proof.
  unfold AuthService.init, AuthService.getUserFromStorage, AuthService.getUser, getItem. simpl.
  destruct (store !! AuthService.USER_KEY) as [userStr |] eqn:Hu; simpl;
    [| repeat split; auto; intros Hn; contradiction].
  destruct (nonempty userStr); simpl; [| repeat split; auto; intros Hn; contradiction].
  destruct (JSON_parse userStr) as [u |] eqn:Hparse; simpl.
  - repeat split; auto. intros _. eauto.
  - split; [apply lookup_delete_ne; discriminate |].
    split; [right; eauto |]. repeat split; auto. intros Hn. contradiction.
Qed.

Lemma init_keeps_token_witness :
  localStorage (AuthService.init malformed_user_store) !! AuthService.TOKEN_KEY
    = Some test_token /\
  exists userStr, well_formed_store !! AuthService.USER_KEY = Some userStr /\
                  JSON_parse userStr = Some test_user.
Proof.
  split.
  - rewrite (proj1 (init_keeps_token malformed_user_store)). vm_compute. reflexivity.
  - destruct (proj2 (proj2 (proj2 (proj2 (init_keeps_token well_formed_store)))))
      as (userStr & Hu & Hparse).
    + vm_compute. discriminate.
    + exists userStr. split; [exact Hu |]. rewrite Hparse. vm_compute. reflexivity.
Defined.

(** ** Route guard and unauthorized responses *)

Section GuardAndInterceptor.
Context `{Platform}.

Lemma navigation_count_navigate (path : string) (k : Continuation) (w : World) :
  navigation_count (navigate path k w) = S (navigation_count w).
Proof.
  unfold navigation_count, navigate, emit. simpl. rewrite count_effects_app. simpl. lia.
Qed.

Lemma navigation_count_logout (w : World) :
  isLoggingOut w = false ->
  navigation_count (AuthService.logout w) = S (navigation_count w).
Proof.
  intros Hflag. rewrite logout_first by exact Hflag.
  unfold navigation_count. simpl. rewrite count_effects_app. simpl. lia.
Qed.

Lemma isAuthenticated_true_pure (Date_now : Z) (w : World) :
  fst (AuthService.isAuthenticated Date_now w) = true ->
  snd (AuthService.isAuthenticated Date_now w) = w.
Proof.
  destruct (isAuthenticated_cases Date_now w); simpl; congruence.
Qed.

Lemma isAuthenticated_without_token (Date_now : Z) (w : World) :
  AuthService.getToken w = None \/ AuthService.getToken w = Some "" ->
  AuthService.isAuthenticated Date_now w = (false, w).
Proof.
  intros Htok. unfold AuthService.isAuthenticated.
  destruct (isLoggingOut w); [reflexivity |].
  destruct Htok as [-> | ->]; reflexivity.
Qed.

End GuardAndInterceptor.

(** X8: the route guard answers what the session check answers; a
    granted check leaves the world exactly as it was; a denied one
    requests the navigation to the sign-in view after whatever the check
    did. *)
Theorem canActivate_grant_or_redirect `{Platform} (Date_now : Z) (w : World) :
  let check := AuthService.isAuthenticated Date_now w in
  let guard := AuthGuard.canActivate Date_now w in
  fst guard = fst check /\
  (fst guard = true -> snd guard = w) /\
  (fst guard = false ->
   snd guard = navigate "/login" NoContinuation (snd check) /\
   trace (snd guard) = (trace (snd check) ++ [Navigate "/login"])%list /\
   localStorage (snd guard) = localStorage (snd check)).
Proof.
  intros check guard. subst check guard. unfold AuthGuard.canActivate.
  pose proof (isAuthenticated_true_pure Date_now w) as Hpure.
  destruct (AuthService.isAuthenticated Date_now w) as [[|] w1]; simpl in *.
  - split; [reflexivity |]. split; [intros _; apply Hpure; reflexivity | discriminate].
  - split; [reflexivity |]. split; [discriminate |]. intros _. repeat split.
Qed.

Lemma canActivate_grant_or_redirect_witness :
  snd (AuthGuard.canActivate 1500000000000 signed_in_world) = signed_in_world /\
  trace (snd (AuthGuard.canActivate 1500000000000 empty_world)) = [Navigate "/login"].
Proof.
  split.
  - apply (proj1 (proj2 (canActivate_grant_or_redirect 1500000000000 signed_in_world))).
    vm_compute. reflexivity.
  - rewrite (proj1 (proj2 (proj2 (proj2
               (canActivate_grant_or_redirect 1500000000000 empty_world)) eq_refl))).
    reflexivity.
Defined.

Section Unusable.
Context `{Platform}.

Lemma unusable_same_store (w w' : World) :
  localStorage w' = localStorage w -> token_unusable w -> token_unusable w'.
Proof.
  unfold token_unusable, AuthService.getToken, getItem. intros ->. tauto.
Qed.

Lemma unusable_logout (w : World) :
  token_unusable w -> token_unusable (AuthService.logout w).
Proof.
  intros Hu. destruct (isLoggingOut w) eqn:Hflag.
  - rewrite logout_in_progress by exact Hflag. exact Hu.
  - left. apply logout_clears_token. exact Hflag.
Qed.

Lemma unusable_settle (i : nat) (outcome : Settlement) (w : World) :
  token_unusable w -> token_unusable (settle i outcome w).
Proof.
  apply unusable_same_store. unfold settle.
  destruct (navigations w !! i) as [[|] |], outcome; reflexivity.
Qed.

(** Only a sign-in brings a usable token back. *)
Lemma unusable_step (ev : SessionEvent) (w : World) :
  not_sign_in ev -> token_unusable w -> token_unusable (session_step ev w).
Proof.
  intros Hev Hu.
  destruct ev as [| now | now | r | e now | i outcome]; unfold session_step;
    try contradiction.
  - apply unusable_logout, Hu.
  - rewrite isAuthenticated_without_token by exact Hu. exact Hu.
  - unfold AuthGuard.canActivate. rewrite isAuthenticated_without_token by exact Hu.
    exact Hu.
  - unfold ErrorInterceptor.onError. simpl.
    destruct (status e =? 401)%Z; [| exact Hu].
    rewrite isAuthenticated_without_token by exact Hu. exact Hu.
  - apply unusable_settle, Hu.
Qed.

Lemma unusable_run (evs : list SessionEvent) (w : World) :
  Forall not_sign_in evs -> token_unusable w -> token_unusable (session_run evs w).
Proof.
  revert w. induction evs as [| ev evs IH]; intros w Hall Hu; simpl; [exact Hu |].
  inversion Hall as [| ? ? Hev Hrest]; subst.
  apply IH; [exact Hrest | apply unusable_step; assumption].
Qed.

End Unusable.

(** X9: right after the interceptor has handled a 401 the session check
    fails, whatever the time. If no logout was in progress when the 401
    arrived, the store is left without a usable token, and the check
    keeps failing, whatever is called and whatever settles, until the
    next sign-in. If a logout was in progress, the interceptor only
    requests the navigation to the sign-in view and leaves the store as
    it is, so that a token stored since that logout began is kept. The
    navigation is requested once, or twice when the check itself logged
    out an expired token. *)
Theorem intercept_401_signs_out `{Platform} {A : Type}
    (error : HttpErrorResponse) (Date_now later : Z) (evs : list SessionEvent)
    (w : World) :
  status error = 401 ->
  let w' := fst (ErrorInterceptor.intercept (A := A) (HttpError error) Date_now w) in
  fst (AuthService.isAuthenticated later w') = false /\
  (isLoggingOut w = false ->
   token_unusable w' /\
   (Forall not_sign_in evs ->
    AuthService.isAuthenticated later (session_run evs w')
      = (false, session_run evs w'))) /\
  (isLoggingOut w = true -> w' = navigate "/login" NoContinuation w) /\
  (navigation_count w' = S (navigation_count w) \/
   navigation_count w' = S (S (navigation_count w)) /\
   exists token, AuthService.getToken w = Some token /\
                 AuthService.isTokenExpired token Date_now = true).
Proof.
  intros Hst. unfold ErrorInterceptor.intercept, ErrorInterceptor.onError. simpl.
  rewrite Hst. simpl.
  assert (Hlater : forall v, token_unusable v ->
            (Forall not_sign_in evs ->
             AuthService.isAuthenticated later (session_run evs v)
               = (false, session_run evs v))).
  { intros v Hu Hall. apply isAuthenticated_without_token, unusable_run; assumption. }
  destruct (isAuthenticated_cases Date_now w)
    as [Hflag | Hflag Htok | token Hflag Htok Hexp | token Hflag Htok Hexp].
  - split; [unfold AuthService.isAuthenticated; simpl; rewrite Hflag; reflexivity |].
    split; [intros Hno; congruence |].
    split; [reflexivity |]. left. apply navigation_count_navigate.
  - assert (Hu : token_unusable (navigate "/login" NoContinuation w)) by exact Htok.
    split; [rewrite isAuthenticated_without_token by exact Hu; reflexivity |].
    split; [intros _; split; [exact Hu | apply Hlater, Hu] |].
    split; [intros Hyes; congruence |]. left. apply navigation_count_navigate.
  - assert (Hu : token_unusable
                   (navigate "/login" NoContinuation (AuthService.logout w))).
    { left. unfold AuthService.getToken, getItem. simpl.
      apply logout_clears_token, Hflag. }
    split; [rewrite isAuthenticated_without_token by exact Hu; reflexivity |].
    split; [intros _; split; [exact Hu | apply Hlater, Hu] |].
    split; [intros Hyes; congruence |].
    right. split; [| eauto].
    rewrite navigation_count_navigate, navigation_count_logout by exact Hflag.
    reflexivity.
  - assert (Hu : token_unusable (AuthService.logout w)).
    { left. apply logout_clears_token, Hflag. }
    split; [rewrite check_after_logout; reflexivity |].
    split; [intros _; split; [exact Hu | apply Hlater, Hu] |].
    split; [intros Hyes; congruence |].
    left. apply navigation_count_logout. exact Hflag.
Qed.

Lemma intercept_401_signs_out_witness :
  AuthService.isAuthenticated 1500000000001
    (session_run [NavigationSettles 0 Fulfilled; CallCanActivate 1500000000001]
       (fst (ErrorInterceptor.intercept (A := unit) (HttpError unauthorized)
               1500000000000 signed_in_world)))
  = (false,
     session_run [NavigationSettles 0 Fulfilled; CallCanActivate 1500000000001]
       (fst (ErrorInterceptor.intercept (A := unit) (HttpError unauthorized)
               1500000000000 signed_in_world))).
Proof.
  apply (proj2 (proj1 (proj2 (intercept_401_signs_out (A := unit) unauthorized
                  1500000000000 1500000000001
                  [NavigationSettles 0 Fulfilled; CallCanActivate 1500000000001]
                  signed_in_world eq_refl)) eq_refl)).
  repeat constructor.
Defined.

(** A 401 handled while a logout is in progress does not sign out a
    user who signed in since that logout began: once the navigation of
    the logout is fulfilled, the session check succeeds. *)
Lemma intercept_401_during_logout :
  isLoggingOut sign_in_during_logout = true /\
  fst (AuthService.isAuthenticated 1500000000000
         (settle 0 Fulfilled
            (fst (ErrorInterceptor.intercept (A := unit) (HttpError unauthorized)
                    1500000000000 sign_in_during_logout)))) = true.
Proof.
  split; vm_compute; reflexivity.
Qed.

(** ** Query parameters of the list request *)

(** X10: the list request of each of the five tabs carries exactly one
    query parameter, and that of any other tab none; an explicit
    [favorites: false] or [trash: false] is sent as the text "false",
    whereas a [limit] or [skip] of 0 is not sent at all; no parameter
    name occurs twice. *)
Theorem getMedia_params_of_filters (f : MediaQuery.Filters) (tab : string) :
  let tab_params :=
    MediaQuery.getMedia_params (Some (MediaQuery.of_component (HomeComponent.tab_filters tab))) in
  (tab = "photos" -> tab_params = [("type", "photo")]) /\
  (tab = "videos" -> tab_params = [("type", "video")]) /\
  (tab = "audio" -> tab_params = [("type", "audio")]) /\
  (tab = "favorites" -> tab_params = [("favorites", "true")]) /\
  (tab = "trash" -> tab_params = [("trash", "true")]) /\
  (~ is_tab tab -> tab_params = []) /\
  (MediaQuery.favorites f = Some false ->
     In ("favorites", "false") (MediaQuery.getMedia_params (Some f))) /\
  (MediaQuery.trash f = Some false ->
     In ("trash", "false") (MediaQuery.getMedia_params (Some f))) /\
  (MediaQuery.limit f = Some 0 ->
     ~ In "limit" (map fst (MediaQuery.getMedia_params (Some f)))) /\
  (MediaQuery.skip f = Some 0 ->
     ~ In "skip" (map fst (MediaQuery.getMedia_params (Some f)))) /\
  NoDup (map fst (MediaQuery.getMedia_params (Some f))).
Proof.
  intros tab_params.
  split; [intros ->; reflexivity |]. split; [intros ->; reflexivity |].
  split; [intros ->; reflexivity |]. split; [intros ->; reflexivity |].
  split; [intros ->; reflexivity |].
  split.
  { intros Hno. subst tab_params. unfold HomeComponent.tab_filters, is_tab in *.
    destruct (String.eqb_spec tab "photos") as [-> | _]; [exfalso; apply Hno; tauto |].
    destruct (String.eqb_spec tab "videos") as [-> | _]; [exfalso; apply Hno; tauto |].
    destruct (String.eqb_spec tab "audio") as [-> | _]; [exfalso; apply Hno; tauto |].
    destruct (String.eqb_spec tab "favorites") as [-> | _]; [exfalso; apply Hno; tauto |].
    destruct (String.eqb_spec tab "trash") as [-> | _]; [exfalso; apply Hno; tauto |].
    reflexivity. }
  destruct f as [ty fav tr lim sk]. simpl.
  split.
  { intros ->. destruct ty; simpl; auto. }
  split.
  { intros ->. destruct ty, fav; simpl; auto. }
  split.
  { intros ->. destruct ty, fav, tr, sk as [n |]; simpl;
      try destruct (n =? 0)%Z; simpl; intuition discriminate. }
  split.
  { intros ->. destruct ty, fav, tr, lim as [n |]; simpl;
      try destruct (n =? 0)%Z; simpl; intuition discriminate. }
  destruct ty, fav, tr, lim as [n |], sk as [k |]; simpl;
    try destruct (n =? 0)%Z; try destruct (k =? 0)%Z; simpl;
    apply (bool_decide_unpack _); vm_compute; exact I.
Qed.

Lemma getMedia_params_of_filters_witness :
  MediaQuery.getMedia_params
    (Some (MediaQuery.of_component (HomeComponent.tab_filters "favorites")))
  = [("favorites", "true")] /\
  In ("favorites", "false")
    (MediaQuery.getMedia_params
       (Some {| MediaQuery.type := None; MediaQuery.favorites := Some false;
                MediaQuery.trash := None; MediaQuery.limit := Some 0;
                MediaQuery.skip := Some 20 |})).
Proof.
  split.
  - exact (proj1 (proj2 (proj2 (proj2
             (getMedia_params_of_filters
                (MediaQuery.of_component HomeComponent.no_filters) "favorites")))) eq_refl).
  - exact (proj1 (proj2 (proj2 (proj2 (proj2 (proj2 (proj2
             (getMedia_params_of_filters
                {| MediaQuery.type := None; MediaQuery.favorites := Some false;
                   MediaQuery.trash := None; MediaQuery.limit := Some 0;
                   MediaQuery.skip := Some 20 |} "photos"))))))) eq_refl).
Defined.

(** ** Storage bar *)

Lemma getStoragePercentage_exact (s : HomeComponent.State) :
  HomeStorageBar.getStoragePercentage (arith := exact_arithmetic) s
    = HomeComponent.getStoragePercentage s.
Proof. reflexivity. Qed.

Lemma exact_arithmetic_rounds : rounds_to_nearest (arith := exact_arithmetic).
Proof.
  split; simpl.
  - intros x x' y Hy Hx. unfold Qdiv. apply Qmult_le_compat_r; [exact Hx |].
    apply Qinv_le_0_compat, Qlt_le_weak, Hy.
  - intros x x' y Hy Hx. apply Qmult_le_compat_r; assumption.
  - intros x y n _ Hq _. exact Hq.
  - intros x y n Hq _. exact Hq.
Qed.

Section StorageBar.
Context {arith : Arithmetic}.
Hypothesis rounding : rounds_to_nearest.

Lemma bar_level_of_percentage (s : HomeComponent.State) :
  bar_level (HomeStorageBar.getStorageBarColor s) =
    let percentage := HomeStorageBar.getStoragePercentage s in
    if Qle_bool 90 percentage then 3%nat
    else if Qle_bool 75 percentage then 2%nat
    else if Qle_bool 50 percentage then 1%nat
    else 0%nat.
Proof.
  unfold HomeStorageBar.getStorageBarColor. cbv zeta.
  destruct (Qle_bool 90 _); [reflexivity |].
  destruct (Qle_bool 75 _); [reflexivity |].
  destruct (Qle_bool 50 _); reflexivity.
Qed.

Lemma Qle_bool_above (k p p' : Q) :
  (p <= p')%Q -> Qle_bool k p = true -> Qle_bool k p' = true.
Proof.
  intros Hle Hk. apply Qle_bool_iff. apply Qle_bool_iff in Hk.
  eapply Qle_trans; eassumption.
Qed.

Lemma percentage_with_summary (s : HomeComponent.State)
    (summary : MediaService.StorageSummary) :
  HomeComponent.storageSummary s = Some summary ->
  (0 < MediaService.quotaBytes summary)%Q ->
  HomeStorageBar.getStoragePercentage s =
    Qmin 100 (multiply (divide (MediaService.usedBytes summary)
                               (MediaService.quotaBytes summary)) 100).
Proof.
  intros Hs Hpos. unfold HomeStorageBar.getStoragePercentage. rewrite Hs.
  destruct (Qeq_bool (MediaService.quotaBytes summary) 0) eqn:Hz; [| reflexivity].
  apply Qeq_bool_iff in Hz. rewrite Hz in Hpos. discriminate Hpos.
Qed.

Lemma rounded_ratio_monotone (used used' quota : Q) :
  (0 < quota)%Q -> (used <= used')%Q ->
  (Qmin 100 (multiply (divide used quota) 100)
   <= Qmin 100 (multiply (divide used' quota) 100))%Q.
Proof.
  intros Hpos Hle. apply Q.min_le_compat_l.
  apply (multiply_monotone rounding); [discriminate |].
  apply (divide_monotone rounding); assumption.
Qed.

Lemma rounded_ratio_zero (quota : Q) :
  (0 < quota)%Q -> (multiply (divide 0 quota) 100 == 0)%Q.
Proof.
  intros Hpos.
  assert (Hnz : ~ (quota == 0)%Q).
  { intros Hz. rewrite Hz in Hpos. discriminate Hpos. }
  assert (Hd : (divide 0 quota == 0)%Q).
  { apply (divide_exact rounding 0 quota 0); [exact Hnz | | simpl; lia].
    unfold Qdiv. apply Qmult_0_l. }
  apply (multiply_exact rounding _ 100 0); [| simpl; lia].
  rewrite Hd. reflexivity.
Qed.

Lemma rounded_ratio_one (quota : Q) :
  (0 < quota)%Q -> (multiply (divide quota quota) 100 == 100)%Q.
Proof.
  intros Hpos.
  assert (Hnz : ~ (quota == 0)%Q).
  { intros Hz. rewrite Hz in Hpos. discriminate Hpos. }
  assert (Hd : (divide quota quota == 1)%Q).
  { apply (divide_exact rounding quota quota 1); [exact Hnz | | simpl; lia].
    unfold Qdiv. apply Qmult_inv_r, Hnz. }
  apply (multiply_exact rounding _ 100 100); [| simpl; lia].
  rewrite Hd. reflexivity.
Qed.

End StorageBar.



(** In double precision the percentage of [summary_just_under_90] is
    rounded up to 90 and the bar is red, although less than nine tenths
    of the quota are used; without rounding it would be orange. *)
Lemma getStorageBarColor_rounded :
  (MediaService.usedBytes summary_just_under_90 * 100
   < 90 * MediaService.quotaBytes summary_just_under_90)%Q /\
  (HomeStorageBar.getStoragePercentage (arith := Binary64.arithmetic)
     (home_with_summary summary_just_under_90) == 90)%Q /\
  HomeStorageBar.getStorageBarColor (arith := Binary64.arithmetic)
    (home_with_summary summary_just_under_90) = "#dc3545" /\
  HomeStorageBar.getStorageBarColor (arith := exact_arithmetic)
    (home_with_summary summary_just_under_90) = "#fd7e14".
Proof.
  split; [reflexivity |]. split; [vm_compute; reflexivity |].
  split; vm_compute; reflexivity.
Qed.

(** ** Audio player *)

(** X12: only audio items change what is playing; after [playAudio] of
    an audio item that item counts as playing; asking for the item that
    is already playing keeps the player as it is; two items that both
    count as playing have the same id; and after [stopAudio] nothing
    plays. *)
Theorem player_plays_one_audio
    (item other : MediaService.MediaItem) (nowPlaying : option MediaService.MediaItem) :
  (MediaService.type item <> MediaService.audio ->
     HomePlayer.playAudio item nowPlaying = nowPlaying) /\
  (MediaService.type item = MediaService.audio ->
     HomePlayer.isCurrentlyPlaying item (HomePlayer.playAudio item nowPlaying) = true) /\
  (HomePlayer.isCurrentlyPlaying item nowPlaying = true ->
     HomePlayer.playAudio item nowPlaying = nowPlaying) /\
  (HomePlayer.isCurrentlyPlaying item nowPlaying = true ->
   HomePlayer.isCurrentlyPlaying other nowPlaying = true ->
     MediaService.id item = MediaService.id other) /\
  HomePlayer.isCurrentlyPlaying item (HomePlayer.stopAudio nowPlaying) = false.
Proof.
  unfold HomePlayer.playAudio, HomePlayer.isCurrentlyPlaying, HomePlayer.stopAudio.
  split; [| split; [| split; [| split; [| reflexivity]]]].
  - intros Hty. destruct (MediaService.type item); congruence.
  - intros ->. destruct nowPlaying as [current |]; simpl.
    + destruct (String.eqb_spec (MediaService.id current) (MediaService.id item)) as [He | Hne].
      * apply String.eqb_eq. exact He.
      * apply String.eqb_refl.
    + apply String.eqb_refl.
  - destruct nowPlaying as [current |]; [| discriminate].
    intros ->. destruct (MediaService.type item); reflexivity.
  - destruct nowPlaying as [current |]; [| discriminate].
    intros H1 H2. apply String.eqb_eq in H1, H2. congruence.
Qed.

Lemma player_plays_one_audio_witness :
  HomePlayer.playAudio photo_item (Some song) = Some song /\
  HomePlayer.isCurrentlyPlaying song (HomePlayer.playAudio song None) = true.
Proof.
  pose proof (player_plays_one_audio photo_item song (Some song)) as [Hphoto _].
  pose proof (player_plays_one_audio song photo_item None) as [_ [Hsong _]].
  split; [apply Hphoto; discriminate | apply Hsong; reflexivity].
Defined.

(** ** Registration form *)

(** X13: [onSubmit] hands a request to the service exactly when the
    four fields are non-empty, the password equals its confirmation and
    has at least 6 characters; then the request is the form data, the
    error message is cleared and loading starts; otherwise nothing is
    sent, loading is unchanged and a non-empty error message is set,
    missing fields being reported before a mismatch and a mismatch
    before a short password. *)
Theorem onSubmit_sends_iff_valid (s : RegisterComponent.State) :
  let data := RegisterComponent.registerData s in
  let filled :=
    RegisterComponent.firstName data <> "" /\ RegisterComponent.lastName data <> "" /\
    RegisterComponent.email data <> "" /\ RegisterComponent.password data <> "" in
  let confirmed := RegisterComponent.password data = RegisterComponent.confirmPassword s in
  let long := (6 <= String.length (RegisterComponent.password data))%nat in
  let after := fst (RegisterComponent.onSubmit s) in
  RegisterComponent.registerData after = data /\
  (filled /\ confirmed /\ long ->
     snd (RegisterComponent.onSubmit s) = Some data /\
     RegisterComponent.isLoading after = true /\
     RegisterComponent.errorMessage after = "") /\
  (~ (filled /\ confirmed /\ long) ->
     snd (RegisterComponent.onSubmit s) = None /\
     RegisterComponent.isLoading after = RegisterComponent.isLoading s /\
     RegisterComponent.errorMessage after <> "") /\
  (~ filled -> RegisterComponent.errorMessage after = "Please fill in all fields") /\
  (filled -> ~ confirmed ->
     RegisterComponent.errorMessage after = "Passwords do not match") /\
  (filled -> confirmed -> ~ long ->
     RegisterComponent.errorMessage after = "Password must be at least 6 characters long").
Proof.
  intros data filled confirmed long after.
  subst after. unfold RegisterComponent.onSubmit. fold data. unfold nonempty.
  rewrite !negb_involutive.
  destruct (String.eqb_spec (RegisterComponent.firstName data) "") as [Hf | Hf];
    [simpl; subst filled; repeat split; try tauto; try discriminate;
     intros [Hc _]; tauto |].
  destruct (String.eqb_spec (RegisterComponent.lastName data) "") as [Hl | Hl];
    [simpl; subst filled; repeat split; try tauto; try discriminate;
     intros [Hc _]; tauto |].
  destruct (String.eqb_spec (RegisterComponent.email data) "") as [He | He];
    [simpl; subst filled; repeat split; try tauto; try discriminate;
     intros [Hc _]; tauto |].
  destruct (String.eqb_spec (RegisterComponent.password data) "") as [Hp | Hp];
    [simpl; subst filled; repeat split; try tauto; try discriminate;
     intros [Hc _]; tauto |].
  simpl.
  assert (Hfilled : filled) by (subst filled; tauto).
  destruct (String.eqb_spec (RegisterComponent.password data)
              (RegisterComponent.confirmPassword s)) as [Hc | Hc]; simpl;
    [| subst confirmed; repeat split; try tauto; try discriminate;
       intros [_ [Hc' _]]; tauto].
  destruct (Nat.ltb_spec (String.length (RegisterComponent.password data)) 6) as [Hs | Hs];
    simpl; subst confirmed long; repeat split; try tauto; try discriminate; try lia.
Qed.

Lemma onSubmit_sends_iff_valid_witness :
  snd (RegisterComponent.onSubmit valid_registration)
    = Some (RegisterComponent.registerData valid_registration) /\
  RegisterComponent.errorMessage
    (fst (RegisterComponent.onSubmit
            (RegisterComponent.set_errorMessage "x"
               {| RegisterComponent.registerData :=
                    RegisterComponent.registerData valid_registration;
                  RegisterComponent.confirmPassword := "other";
                  RegisterComponent.isLoading := false;
                  RegisterComponent.errorMessage := "" |})))
    = "Passwords do not match".
Proof.
  split.
  - apply (proj1 (proj2 (onSubmit_sends_iff_valid valid_registration))).
    simpl. repeat split; try discriminate. lia.
  - apply (proj1 (proj2 (proj2 (proj2 (proj2 (onSubmit_sends_iff_valid _)))))).
    + simpl. repeat split; discriminate.
    + simpl. discriminate.
Defined.

(** X14: when the registration request succeeds the session is stored
    before the component asks for the home view, so that, with no
    logout in progress and a non-empty token that is not expired, the
    route guard then grants entry without any effect; when it fails the
    session is untouched and a non-empty message is shown; in both
    cases loading stops. *)
Theorem registration_completes `{Platform}
    (r : HttpResult AuthService.AuthResponse) (Date_now : Z)
    (s : RegisterComponent.State) (w : World) :
  let s' := fst (RegisterComponent.completes r s w) in
  let w' := snd (RegisterComponent.completes r s w) in
  RegisterComponent.isLoading s' = false /\
  (forall response, r = HttpOk response ->
     w' = navigate "/home" NoContinuation (AuthService.handleAuthSuccess response w) /\
     AuthService.getUser w' = AuthService.user response /\
     (isLoggingOut w = false ->
      nonempty (AuthService.accessToken response) = true ->
      AuthService.isTokenExpired (AuthService.accessToken response) Date_now = false ->
      AuthGuard.canActivate Date_now w' = (true, w'))) /\
  (forall error, r = HttpError error ->
     w' = w /\ RegisterComponent.errorMessage s' <> "").
Proof.
  intros s' w'. split; [destruct r; reflexivity |]. split.
  - intros response ->. subst s' w'. simpl. split; [reflexivity |]. split; [reflexivity |].
    intros Hflag Hne Hexp. unfold AuthGuard.canActivate.
    rewrite (check_after_sign_in response Date_now w Hflag Hne Hexp); reflexivity || assumption.
  - intros error ->. subst s' w'. simpl. split; [reflexivity |].
    destruct (error_message error) as [msg |]; [| discriminate].
    unfold nonempty. destruct (String.eqb_spec msg "") as [-> | Hne]; simpl;
      [discriminate | exact Hne].
Qed.

Lemma registration_completes_witness :
  AuthGuard.canActivate 1500000000000
    (snd (RegisterComponent.completes (HttpOk test_response) valid_registration empty_world))
  = (true,
     snd (RegisterComponent.completes (HttpOk test_response) valid_registration empty_world)).
Proof.
  apply (proj1 (proj2 (registration_completes (HttpOk test_response) 1500000000000
                         valid_registration empty_world)) test_response eq_refl);
    vm_compute; reflexivity.
Defined.

(** ** Uploads *)

Section UploadFacts.
Import HomeComponent MediaService JsString.

Lemma accepted_type_spec (mime : string) :
  existsb (fun t => startsWith mime t) ["image/"; "video/"; "audio/"] = true
  <-> accepted_type mime.
Proof.
  unfold accepted_type. simpl. rewrite !orb_true_iff, !startsWith_spec.
  split; [intros [Hi | [Hv | [Ha | Hf]]]; [tauto | tauto | tauto | discriminate] | tauto].
Qed.

Lemma upload_error_message_nonempty (error : HttpErrorResponse) :
  upload_error_message error <> "".
Proof.
  unfold upload_error_message.
  destruct (status error =? 413)%Z.
  { destruct (error_message error) as [msg |]; [| discriminate].
    destruct (includes msg "quota") eqn:Hq; [| discriminate].
    intros ->. discriminate Hq. }
  destruct (status error =? 400)%Z.
  { destruct (error_message error) as [msg |]; [| discriminate].
    unfold nonempty. destruct (String.eqb_spec msg "") as [-> | Hne]; simpl;
      [discriminate | exact Hne]. }
  destruct (status error =? 401)%Z; discriminate.
Qed.

End UploadFacts.

(** X15: a selected file is uploaded exactly when it is at most 100 MB
    (100 * 1024 * 1024 bytes, the bound included) and its type starts
    with image/, video/ or audio/: then one upload request titled with
    the file name is dispatched and tracked under the file name and the
    time; an oversized file, and otherwise a file of another type, sets
    its own error message and sends nothing; no file, no change. *)
Theorem onFileSelected_validates
    (f : HomeComponent.File) (Date_now : Z) (s : HomeComponent.State) :
  let s' := HomeComponent.onFileSelected (Some f) Date_now s in
  let fileId := HomeComponent.file_name f +:+ "-" +:+ pretty Date_now in
  HomeComponent.onFileSelected None Date_now s = s /\
  ((HomeComponent.file_size f <= max_upload_size)%Z ->
   accepted_type (HomeComponent.file_type f) ->
     HomeComponent.inflight s' =
       (HomeComponent.inflight s
          ++ [HomeComponent.ReqUploadMedia f (HomeComponent.file_name f) fileId])%list /\
     HomeComponent.uploadError s' = None /\
     fileId ∈ HomeComponent.uploadingFiles s' /\
     HomeComponent.uploadProgress s' !! fileId = Some 0%Q) /\
  ((max_upload_size < HomeComponent.file_size f)%Z ->
     HomeComponent.inflight s' = HomeComponent.inflight s /\
     HomeComponent.uploadingFiles s' = HomeComponent.uploadingFiles s /\
     HomeComponent.uploadError s' = Some "File too large. Maximum size is 100MB.") /\
  ((HomeComponent.file_size f <= max_upload_size)%Z ->
   ~ accepted_type (HomeComponent.file_type f) ->
     HomeComponent.inflight s' = HomeComponent.inflight s /\
     HomeComponent.uploadingFiles s' = HomeComponent.uploadingFiles s /\
     HomeComponent.uploadError s' =
       Some "Invalid file type. Please select an image, video, or audio file.").
Proof.
  intros s' fileId. subst s'. unfold HomeComponent.onFileSelected, max_upload_size.
  split; [reflexivity |].
  destruct (Z.ltb_spec (100 * 1024 * 1024) (HomeComponent.file_size f)) as [Hbig | Hok].
  - split; [intros Hle; lia |]. split; [intros _; repeat split |]. intros Hle; lia.
  - destruct (existsb _ _) eqn:Htype; simpl.
    + apply accepted_type_spec in Htype.
      split; [| split; [intros Hbig; lia | intros _ Hno; contradiction]].
      intros _ _. repeat split.
      * apply elem_of_union_l, elem_of_singleton. reflexivity.
      * apply lookup_insert_eq.
    + assert (Hno : ~ accepted_type (HomeComponent.file_type f)).
      { intros Hacc. apply accepted_type_spec in Hacc. congruence. }
      split; [intros _ Hacc; contradiction |].
      split; [intros Hbig; lia |]. intros _ _. repeat split.
Qed.

Lemma onFileSelected_validates_witness :
  HomeComponent.uploadError
    (HomeComponent.onFileSelected (Some png_file) 1700000000000
       (home_showing holiday_items)) = None /\
  "test.png-1700000000000" ∈
    HomeComponent.uploadingFiles
      (HomeComponent.onFileSelected (Some png_file) 1700000000000
         (home_showing holiday_items)).
Proof.
  assert (Hsize : (HomeComponent.file_size png_file <= max_upload_size)%Z)
    by (vm_compute; discriminate).
  assert (Htype : accepted_type (HomeComponent.file_type png_file))
    by (left; exists "png"; reflexivity).
  destruct (proj1 (proj2 (onFileSelected_validates png_file 1700000000000
                            (home_showing holiday_items))) Hsize Htype)
    as (_ & Herr & Hin & _).
  split; [exact Herr | exact Hin].
Defined.

(** X16: when an upload fails the cached items, the displayed items,
    the item objects, the storage summary and the operation guard are
    as before and no request is issued; the upload is no longer tracked
    and a non-empty error message is set: the server's own text for a
    413 that mentions the quota, a fixed text otherwise. *)
Theorem upload_failure_keeps_cache
    (s : HomeComponent.State) (n : nat) (file : HomeComponent.File)
    (title fileId : string) (error : HttpErrorResponse) :
  HomeComponent.inflight s !! n = Some (HomeComponent.ReqUploadMedia file title fileId) ->
  exists s',
    HomeComponent.complete n (HttpError error) s = Some s' /\
    HomeComponent.mediaItems s' = HomeComponent.mediaItems s /\
    HomeComponent.filteredItems s' = HomeComponent.filteredItems s /\
    HomeComponent.heap s' = HomeComponent.heap s /\
    HomeComponent.storageSummary s' = HomeComponent.storageSummary s /\
    HomeComponent.operatingItems s' = HomeComponent.operatingItems s /\
    HomeComponent.inflight s' =
      (take n (HomeComponent.inflight s) ++ drop (S n) (HomeComponent.inflight s))%list /\
    (fileId ∉ HomeComponent.uploadingFiles s') /\
    HomeComponent.uploadProgress s' !! fileId = None /\
    (exists msg, HomeComponent.uploadError s' = Some msg /\ msg <> "") /\
    (forall msg, status error = 413 -> error_message error = Some msg ->
       JsString.includes msg "quota" = true ->
       HomeComponent.uploadError s' = Some msg) /\
    (status error = 413 -> error_message error = None ->
       HomeComponent.uploadError s' = Some "File too large. Maximum size is 100MB.") /\
    (status error = 401 ->
       HomeComponent.uploadError s' = Some "Authentication failed. Please log in again.").
Proof.
  intros Hn. unfold HomeComponent.complete. rewrite Hn. simpl.
  eexists. split; [reflexivity |]. simpl.
  repeat (split; [reflexivity |]).
  split; [apply not_in_removed |].
  split; [apply lookup_delete_eq |].
  split; [eexists; split; [reflexivity | apply upload_error_message_nonempty] |].
  unfold HomeComponent.upload_error_message.
  split; [intros msg -> -> ->; reflexivity |].
  split; [intros -> ->; reflexivity | intros ->; reflexivity].
Qed.

Lemma upload_failure_keeps_cache_witness :
  exists s',
    HomeComponent.complete 1 (HttpError server_error) uploading_home = Some s' /\
    HomeComponent.filteredItems s' = HomeComponent.filteredItems uploading_home /\
    HomeComponent.uploadError s' = Some "Upload failed. Please try again.".
Proof.
  destruct (upload_failure_keeps_cache uploading_home 1 png_file "test.png"
              "test.png-1700000000000" server_error)
    as (s' & Hc & _ & Hview & _); [vm_compute; reflexivity |].
  exists s'. split; [exact Hc |]. split; [exact Hview |].
  vm_compute in Hc. injection Hc as <-. reflexivity.
Defined.

(** ** Toggles and the list *)

Section ToggleFacts.
Import HomeComponent MediaService.

Lemma lookup_last_dispatched (l : list Request) (r : Request) :
  ((l ++ [r])%list !! length l = Some r) /\
  (take (length l) (l ++ [r]) ++ drop (S (length l)) (l ++ [r]))%list = l.
Proof.
  split.
  - rewrite lookup_app_r by lia. rewrite Nat.sub_diag. reflexivity.
  - rewrite take_app_length. rewrite drop_ge by (rewrite length_app; simpl; lia).
    apply app_nil_r.
Qed.

End ToggleFacts.

(** X17: a toggle changes no item when it is called; the favourite or
    deleted flag of the item is flipped only when the request succeeds,
    and a failure leaves every item as it was, restores the list of
    requests and raises one alert. *)
Theorem toggle_applies_on_success_only
    (s : HomeComponent.State) (item : nat) (it : MediaService.MediaItem) :
  HomeComponent.heap s !! item = Some it ->
  MediaService.id it ∉ HomeComponent.operatingItems s ->
  let n := length (HomeComponent.inflight s) in
  (exists s1,
     HomeComponent.toggleFavorite item s = Some s1 /\
     HomeComponent.heap s1 = HomeComponent.heap s /\
     (forall ok st, exists s2,
        HomeComponent.complete n (HttpOk (HomeComponent.MutationResponse ok st)) s1 = Some s2 /\
        HomeComponent.heap s2 !! item =
          Some (HomeComponent.with_isFavorite (negb (MediaService.isFavorite it)) it) /\
        HomeComponent.alerts s2 = HomeComponent.alerts s) /\
     (forall error, exists s2,
        HomeComponent.complete n (HttpError error) s1 = Some s2 /\
        HomeComponent.heap s2 = HomeComponent.heap s /\
        HomeComponent.inflight s2 = HomeComponent.inflight s /\
        HomeComponent.alerts s2 =
          (HomeComponent.alerts s
             ++ ["Failed to update favorite status. Please try again."])%list)) /\
  (exists s1,
     HomeComponent.toggleTrash item s = Some s1 /\
     HomeComponent.heap s1 = HomeComponent.heap s /\
     (forall ok st, exists s2,
        HomeComponent.complete n (HttpOk (HomeComponent.MutationResponse ok st)) s1 = Some s2 /\
        HomeComponent.heap s2 !! item =
          Some (HomeComponent.with_isDeleted (negb (MediaService.isDeleted it)) it) /\
        HomeComponent.alerts s2 = HomeComponent.alerts s) /\
     (forall error, exists s2,
        HomeComponent.complete n (HttpError error) s1 = Some s2 /\
        HomeComponent.heap s2 = HomeComponent.heap s /\
        HomeComponent.inflight s2 = HomeComponent.inflight s /\
        HomeComponent.alerts s2 =
          (HomeComponent.alerts s
             ++ ["Failed to move item to trash. Please try again."])%list)).
Proof.
  intros Hit Hfree n.
  assert (Hlt : (item < length (HomeComponent.heap s))%nat)
    by (eapply lookup_lt_Some; exact Hit).
  split.
  - unfold HomeComponent.toggleFavorite. rewrite Hit. simpl.
    rewrite bool_decide_eq_false_2 by exact Hfree.
    eexists. split; [reflexivity |]. split; [reflexivity |].
    destruct (lookup_last_dispatched (HomeComponent.inflight s)
                (HomeComponent.ReqToggleFavorite item (MediaService.id it)
                   (negb (MediaService.isFavorite it)))) as [Hlast Hrest].
    split.
    + intros ok st. unfold HomeComponent.complete. simpl. subst n. rewrite Hlast. simpl.
      rewrite Hit. simpl. eexists. split; [reflexivity |].
      destruct (_ && _); simpl; (split; [apply list_lookup_insert_eq; exact Hlt | reflexivity]).
    + intros error. unfold HomeComponent.complete. simpl. subst n. rewrite Hlast. simpl.
      rewrite Hit. simpl. eexists. split; [reflexivity |]. simpl.
      split; [reflexivity |]. split; [exact Hrest | reflexivity].
  - unfold HomeComponent.toggleTrash. rewrite Hit. simpl.
    rewrite bool_decide_eq_false_2 by exact Hfree.
    eexists. split; [reflexivity |]. split; [reflexivity |].
    destruct (lookup_last_dispatched (HomeComponent.inflight s)
                (HomeComponent.ReqToggleTrash item (MediaService.id it)
                   (negb (MediaService.isDeleted it)))) as [Hlast Hrest].
    split.
    + intros ok st. unfold HomeComponent.complete. simpl. subst n. rewrite Hlast. simpl.
      rewrite Hit. simpl. eexists. split; [reflexivity |].
      destruct st; destruct (_ && _); simpl;
        (split; [apply list_lookup_insert_eq; exact Hlt | reflexivity]).
    + intros error. unfold HomeComponent.complete. simpl. subst n. rewrite Hlast. simpl.
      rewrite Hit. simpl. eexists. split; [reflexivity |]. simpl.
      split; [reflexivity |]. split; [exact Hrest | reflexivity].
Qed.

Lemma toggle_applies_on_success_only_witness :
  exists s1 s2,
    HomeComponent.toggleFavorite 0 (home_showing holiday_items) = Some s1 /\
    HomeComponent.complete 1 (HttpError server_error) s1 = Some s2 /\
    HomeComponent.heap s2 = HomeComponent.heap (home_showing holiday_items).
Proof.
  destruct (proj1 (toggle_applies_on_success_only (home_showing holiday_items) 0
                     (item_titled "a" "Vacation.jpg" MediaService.photo false false)
                     eq_refl (not_elem_of_empty _)))
    as (s1 & Ht & _ & _ & Herr).
  destruct (Herr server_error) as (s2 & Hc & Hheap & _).
  exists s1, s2. split; [exact Ht |]. split; [exact Hc | exact Hheap].
Defined.

(** X18: switching the tab records the tab, starts loading and
    dispatches one list request with that tab's filter, and until the
    response arrives the cached and displayed items stay what they were;
    when the response arrives loading stops, the cache is replaced by
    the items of the response and, the search box being empty, all of
    them are displayed. *)
Theorem setActiveTab_then_response
    (tab : string) (s : HomeComponent.State) (items : list MediaService.MediaItem) :
  let s1 := HomeComponent.setActiveTab tab s in
  HomeComponent.activeTab s1 = tab /\
  HomeComponent.isLoading s1 = true /\
  HomeComponent.mediaItems s1 = HomeComponent.mediaItems s /\
  HomeComponent.filteredItems s1 = HomeComponent.filteredItems s /\
  HomeComponent.inflight s1 =
    (HomeComponent.inflight s
       ++ [HomeComponent.ReqGetMedia (HomeComponent.tab_filters tab)])%list /\
  exists s2,
    HomeComponent.complete (length (HomeComponent.inflight s))
      (HttpOk (HomeComponent.MediaListResponse items)) s1 = Some s2 /\
    HomeComponent.isLoading s2 = false /\
    HomeComponent.inflight s2 = HomeComponent.inflight s /\
    HomeComponent.mediaItems s2 = seq (length (HomeComponent.heap s)) (length items) /\
    (forall i it, items !! i = Some it ->
       HomeComponent.heap s2 !! (length (HomeComponent.heap s) + i)%nat = Some it) /\
    (HomeComponent.searchQuery s = "" ->
       HomeComponent.filteredItems s2 = HomeComponent.mediaItems s2).
Proof.
  intros s1. repeat (split; [reflexivity |]).
  destruct (lookup_last_dispatched (HomeComponent.inflight s)
              (HomeComponent.ReqGetMedia (HomeComponent.tab_filters tab))) as [Hlast Hrest].
  unfold HomeComponent.complete. subst s1. simpl. rewrite Hlast. simpl.
  eexists. split; [reflexivity |].
  unfold HomeComponent.applySearch. simpl.
  destruct (negb (nonempty (JsString.trim (HomeComponent.searchQuery s)))) eqn:Hq; simpl;
    (split; [reflexivity |]); (split; [exact Hrest |]); (split; [reflexivity |]);
    (split; [intros i it Hi; rewrite lookup_app_r by lia;
             replace (length (HomeComponent.heap s) + i - length (HomeComponent.heap s))%nat
               with i by lia; exact Hi |]).
  - intros _. reflexivity.
  - intros Hempty. rewrite Hempty in Hq. discriminate Hq.
Qed.

Lemma setActiveTab_then_response_witness :
  exists s2,
    HomeComponent.complete 1 (HttpOk (HomeComponent.MediaListResponse [trashed_item]))
      (HomeComponent.setActiveTab "trash" (home_showing holiday_items)) = Some s2 /\
    HomeComponent.filteredItems s2 = [3%nat].
Proof.
  destruct (proj2 (proj2 (proj2 (proj2 (proj2
              (setActiveTab_then_response "trash" (home_showing holiday_items)
                 [trashed_item])))))) as (s2 & Hc & _ & _ & Hmedia & _ & Hall).
  exists s2. split; [exact Hc |]. rewrite Hall by reflexivity. exact Hmedia.
Defined.

(** X19: when the list request fails the cached and displayed items are
    kept and loading stops; a 401 calls [logout] on the session service,
    after which the session check fails, and any other status leaves
    the session untouched. *)
Theorem loadMedia_error_keeps_list `{Platform}
    (s : HomeComponent.State) (n : nat) (filters : HomeComponent.Filters)
    (error : HttpErrorResponse) (Date_now : Z) :
  HomeComponent.inflight s !! n = Some (HomeComponent.ReqGetMedia filters) ->
  exists s',
    HomeComponent.complete n (HttpError error) s = Some s' /\
    HomeComponent.isLoading s' = false /\
    HomeComponent.mediaItems s' = HomeComponent.mediaItems s /\
    HomeComponent.filteredItems s' = HomeComponent.filteredItems s /\
    HomeComponent.heap s' = HomeComponent.heap s /\
    (status error = 401 ->
       HomeComponent.authService s' = AuthService.logout (HomeComponent.authService s) /\
       fst (AuthService.isAuthenticated Date_now (HomeComponent.authService s')) = false) /\
    (status error <> 401 ->
       HomeComponent.authService s' = HomeComponent.authService s).
Proof.
  intros Hn. unfold HomeComponent.complete. rewrite Hn. simpl.
  eexists. split; [reflexivity |].
  destruct (Z.eqb_spec (status error) 401) as [Hst | Hst]; simpl;
    repeat (split; [reflexivity |]).
  - split; [| intros Hne; contradiction].
    intros _. split; [reflexivity |]. rewrite check_after_logout. reflexivity.
  - split; [intros Heq; contradiction | intros _; reflexivity].
Qed.

Lemma loadMedia_error_keeps_list_witness :
  exists s',
    HomeComponent.complete 0 (HttpError unauthorized)
      (HomeComponent.ngOnInit (HomeComponent.created signed_in_world)) = Some s' /\
    HomeComponent.authService s' = AuthService.logout signed_in_world.
Proof.
  destruct (loadMedia_error_keeps_list
              (HomeComponent.ngOnInit (HomeComponent.created signed_in_world)) 0
              (HomeComponent.tab_filters "photos") unauthorized 1500000000000 eq_refl)
    as (s' & Hc & _ & _ & _ & _ & Hout & _).
  exists s'. split; [exact Hc |]. exact (proj1 (Hout eq_refl)).
Defined.

(** ** Bookkeeping of uploads *)

Section UploadTracking.
Import HomeComponent MediaService JsString.

Ltac split_cases :=
  repeat match goal with
         | |- context [if ?c then _ else _] => destruct c
         | |- context [match ?o with Some _ => _ | None => _ end] => destruct o
         end.

Ltac keeps_uploads_tac :=
  split_cases;
  (split; [reflexivity | split; [reflexivity |]]); simpl;
  first [ exists []; rewrite app_nil_r; reflexivity
        | eexists; rewrite <- ?app_assoc; reflexivity ].

Lemma keeps_uploads_trans (s1 s2 s3 : State) :
  keeps_uploads s1 s2 -> keeps_uploads s2 s3 -> keeps_uploads s1 s3.
Proof.
  intros (Hu1 & Hp1 & r1 & Hi1) (Hu2 & Hp2 & r2 & Hi2).
  split; [congruence |]. split; [congruence |].
  exists (r1 ++ r2)%list. rewrite Hi2, Hi1, app_assoc. reflexivity.
Qed.

Lemma keeps_uploads_loadMedia (s : State) : keeps_uploads s (loadMedia s).
Proof. unfold loadMedia. keeps_uploads_tac. Qed.

Lemma keeps_uploads_applySearch (s : State) : keeps_uploads s (applySearch s).
Proof. unfold applySearch. keeps_uploads_tac. Qed.

Lemma keeps_uploads_refresh (st : option StorageSummary) (s : State) :
  keeps_uploads s (refresh_storage_or_reload st s).
Proof. unfold refresh_storage_or_reload, loadStorageSummary. keeps_uploads_tac. Qed.

Lemma upload_tracking_keeps (s s' : State) :
  upload_tracking s -> keeps_uploads s s' -> upload_tracking s'.
Proof.
  intros [Hdom Hin] (Hu & Hp & rs & Hi). split.
  - rewrite Hp, Hu. exact Hdom.
  - intros fileId Hf. rewrite Hu in Hf. destruct (Hin fileId Hf) as (file & title & Hreq).
    exists file, title. rewrite Hi. apply in_or_app. left. exact Hreq.
Qed.

Lemma in_remove_other (l : list Request) (n : nat) (r x : Request) :
  l !! n = Some r -> x <> r -> In x l -> In x (take n l ++ drop (S n) l).
Proof.
  intros Hn Hne Hx. rewrite <- (take_drop_middle l n r Hn) in Hx.
  apply in_app_or in Hx as [Hx | [Hx | Hx]]; apply in_or_app; [tauto | congruence | tauto].
Qed.

(** A request other than an upload completes. *)
Lemma upload_tracking_remove (s s2 : State) (n : nat) (r : Request) :
  upload_tracking s -> inflight s !! n = Some r ->
  (forall file title fileId, r <> ReqUploadMedia file title fileId) ->
  uploadingFiles s2 = uploadingFiles s ->
  uploadProgress s2 = uploadProgress s ->
  inflight s2 = (take n (inflight s) ++ drop (S n) (inflight s))%list ->
  upload_tracking s2.
Proof.
  intros [Hdom Hin] Hn Hr Hu Hp Hi. split.
  - rewrite Hp, Hu. exact Hdom.
  - intros fileId Hf. rewrite Hu in Hf. destruct (Hin fileId Hf) as (file & title & Hreq).
    exists file, title. rewrite Hi.
    eapply in_remove_other; [exact Hn | | exact Hreq].
    intros Heq. apply (Hr file title fileId). symmetry. exact Heq.
Qed.

(** An upload completes and its entry is dropped. *)
Lemma upload_tracking_finish (s s2 : State) (n : nat) (file : File) (title fileId : string) :
  upload_tracking s -> inflight s !! n = Some (ReqUploadMedia file title fileId) ->
  uploadingFiles s2 = uploadingFiles s ∖ {[ fileId ]} ->
  uploadProgress s2 = delete fileId (uploadProgress s) ->
  inflight s2 = (take n (inflight s) ++ drop (S n) (inflight s))%list ->
  upload_tracking s2.
Proof.
  intros [Hdom Hin] Hn Hu Hp Hi. split.
  - rewrite Hp, Hu, dom_delete_L. congruence.
  - intros other Hf. rewrite Hu in Hf. apply elem_of_difference in Hf as [Hf Hne].
    destruct (Hin other Hf) as (file' & title' & Hreq).
    exists file', title'. rewrite Hi.
    eapply in_remove_other; [exact Hn | | exact Hreq].
    intros Heq. injection Heq as _ _ Hid. apply Hne, elem_of_singleton. exact Hid.
Qed.

(** An upload starts. *)
Lemma upload_tracking_start (s : State) (file : File) (Date_now : Z) :
  upload_tracking s -> upload_tracking (uploadFile file Date_now s).
Proof.
  intros [Hdom Hin]. unfold uploadFile. split; simpl.
  - rewrite dom_insert_L. congruence.
  - intros other Hf. apply elem_of_union in Hf as [Hf | Hf].
    + apply elem_of_singleton in Hf. subst other.
      exists file, (file_name file). simpl. apply in_or_app. right. left. reflexivity.
    + destruct (Hin other Hf) as (file' & title' & Hreq).
      exists file', title'. simpl. apply in_or_app. left. exact Hreq.
Qed.

Lemma upload_tracking_complete (s s' : State) (n : nat) (result : HttpResult Body) :
  upload_tracking s -> complete n result s = Some s' -> upload_tracking s'.
Proof.
  intros Hinv. unfold complete.
  destruct (inflight s !! n) as [r |] eqn:Hn; simpl; [| discriminate].
  set (s1 := set_inflight (take n (inflight s) ++ drop (S n) (inflight s)) s).
  assert (Hother : (forall file title fileId, r <> ReqUploadMedia file title fileId) ->
                   upload_tracking s1).
  { intros Hr. eapply (upload_tracking_remove s s1 n r); eauto. }
  destruct r as [f | | file t fid | item m0 flag | item m0 flag | item m0];
    destruct result as [[items | summary | up st | ok st] | e]; simpl;
    try discriminate;
    try (destruct (heap s !! item) as [it |] eqn:Hit; simpl; [| discriminate]);
    intros [= <-].
  - eapply upload_tracking_keeps; [apply Hother; discriminate |].
    eapply keeps_uploads_trans; [| keeps_uploads_tac].
    eapply keeps_uploads_trans; [| apply keeps_uploads_applySearch].
    keeps_uploads_tac.
  - eapply upload_tracking_keeps; [apply Hother; discriminate | keeps_uploads_tac].
  - eapply upload_tracking_keeps; [apply Hother; discriminate | keeps_uploads_tac].
  - eapply upload_tracking_keeps; [apply Hother; discriminate | keeps_uploads_tac].
  - eapply upload_tracking_keeps;
      [eapply (upload_tracking_finish s
                 (set_uploadProgress (delete fid (uploadProgress s))
                    (set_uploadingFiles (uploadingFiles s ∖ {[ fid ]}) s1)) n);
       eauto |].
    eapply keeps_uploads_trans; [| apply keeps_uploads_loadMedia].
    apply keeps_uploads_refresh.
  - eapply upload_tracking_keeps;
      [eapply (upload_tracking_finish s
                 (set_uploadProgress (delete fid (uploadProgress s))
                    (set_uploadingFiles (uploadingFiles s ∖ {[ fid ]}) s1)) n);
       eauto |].
    keeps_uploads_tac.
  - eapply upload_tracking_keeps; [apply Hother; discriminate |].
    unfold loadMedia. keeps_uploads_tac.
  - eapply upload_tracking_keeps; [apply Hother; discriminate | keeps_uploads_tac].
  - eapply upload_tracking_keeps; [apply Hother; discriminate |].
    unfold loadMedia. keeps_uploads_tac.
  - eapply upload_tracking_keeps; [apply Hother; discriminate | keeps_uploads_tac].
  - eapply upload_tracking_keeps; [apply Hother; discriminate |].
    unfold refresh_storage_or_reload, loadStorageSummary, loadMedia. keeps_uploads_tac.
  - eapply upload_tracking_keeps; [apply Hother; discriminate | keeps_uploads_tac].
Qed.

Lemma upload_tracking_step (ev : Event) (s s' : State) :
  upload_tracking s -> step ev s = Some s' -> upload_tracking s'.
Proof.
  intros Hinv. destruct ev as [tab | q | | file now | item | item | item c | n result];
    unfold step.
  - intros [= <-]. eapply upload_tracking_keeps; [exact Hinv |].
    unfold setActiveTab, loadMedia. keeps_uploads_tac.
  - intros [= <-]. eapply upload_tracking_keeps; [exact Hinv |].
    unfold onSearch, applySearch. keeps_uploads_tac.
  - intros [= <-]. eapply upload_tracking_keeps; [exact Hinv |].
    unfold clearSearch, applySearch. keeps_uploads_tac.
  - intros [= <-]. unfold onFileSelected. destruct file as [f |]; [| exact Hinv].
    destruct (_ <? _)%Z; [eapply upload_tracking_keeps; [exact Hinv | keeps_uploads_tac] |].
    destruct (negb _); [eapply upload_tracking_keeps; [exact Hinv | keeps_uploads_tac] |].
    apply upload_tracking_start.
    eapply upload_tracking_keeps; [exact Hinv | keeps_uploads_tac].
  - unfold toggleFavorite. destruct (heap s !! item) as [it |]; simpl; [| discriminate].
    case_bool_decide; intros [= <-];
      (eapply upload_tracking_keeps; [exact Hinv | unfold dispatch; keeps_uploads_tac]).
  - unfold toggleTrash. destruct (heap s !! item) as [it |]; simpl; [| discriminate].
    case_bool_decide; intros [= <-];
      (eapply upload_tracking_keeps; [exact Hinv | unfold dispatch; keeps_uploads_tac]).
  - unfold deleteMedia. destruct (heap s !! item) as [it |]; simpl; [| discriminate].
    intros Hd. eapply upload_tracking_keeps; [exact Hinv |].
    case_bool_decide; [injection Hd as <-; keeps_uploads_tac |].
    destruct c; injection Hd as <-; unfold dispatch; keeps_uploads_tac.
  - apply upload_tracking_complete. exact Hinv.
Qed.

Lemma upload_tracking_run (evs : list Event) (s s' : State) :
  upload_tracking s -> run evs s = Some s' -> upload_tracking s'.
Proof.
  revert s. induction evs as [| ev evs IH]; intros s Hinv; simpl.
  - intros [= <-]. exact Hinv.
  - destruct (step ev s) as [s1 |] eqn:Hstep; simpl; [| discriminate].
    apply IH. eapply upload_tracking_step; eassumption.
Qed.

Lemma upload_tracking_ngOnInit (auth : World) : upload_tracking (ngOnInit (created auth)).
Proof.
  split; simpl.
  - apply dom_empty_L.
  - intros fileId Hf. apply elem_of_empty in Hf. contradiction.
Qed.

End UploadTracking.

(** X20: in every state the component can reach, the progress map has
    an entry exactly for the tracked upload ids and every tracked id
    belongs to an upload request still in flight; so once no upload is
    in flight nothing is tracked and the progress map is empty. *)
Theorem uploads_never_stale
    (auth : World) (evs : list HomeComponent.Event) (s : HomeComponent.State) :
  HomeComponent.run evs (HomeComponent.ngOnInit (HomeComponent.created auth)) = Some s ->
  dom (HomeComponent.uploadProgress s) = HomeComponent.uploadingFiles s /\
  (forall fileId, fileId ∈ HomeComponent.uploadingFiles s -> upload_in_flight fileId s) /\
  ((forall fileId, ~ upload_in_flight fileId s) ->
   HomeComponent.uploadingFiles s = ∅ /\ HomeComponent.uploadProgress s = ∅).
Proof.
  intros Hrun.
  destruct (upload_tracking_run evs _ s (upload_tracking_ngOnInit auth) Hrun) as [Hdom Hin].
  split; [exact Hdom |]. split; [exact Hin |].
  intros Hnone.
  assert (Hempty : HomeComponent.uploadingFiles s = ∅).
  { apply elem_of_equiv_empty_L. intros fileId Hf. exact (Hnone fileId (Hin fileId Hf)). }
  split; [exact Hempty |].
  apply dom_empty_inv_L. rewrite Hdom. exact Hempty.
Qed.

Lemma uploads_never_stale_witness :
  exists s,
    HomeComponent.run upload_round
      (HomeComponent.ngOnInit (HomeComponent.created empty_world)) = Some s /\
    HomeComponent.uploadingFiles s = ∅ /\
    HomeComponent.uploadProgress s = ∅.
Proof.
  destruct (HomeComponent.run upload_round
              (HomeComponent.ngOnInit (HomeComponent.created empty_world)))
    as [s |] eqn:Hrun; [| vm_compute in Hrun; discriminate Hrun].
  exists s. split; [reflexivity |].
  apply (proj2 (proj2 (uploads_never_stale _ _ _ Hrun))).
  intros fileId (file & title & Hin).
  vm_compute in Hrun. injection Hrun as <-. simpl in Hin.
  destruct Hin as [Hin | [Hin | [Hin | [Hin | []]]]]; discriminate Hin.
Defined.

(** ** The displayed items *)

Section ViewConsistency.
Import HomeComponent MediaService JsString.

Ltac split_cases :=
  repeat match goal with
         | |- context [if ?c then _ else _] => destruct c
         | |- context [match ?o with Some _ => _ | None => _ end] => destruct o
         end.

Ltac keeps_view_tac :=
  split_cases;
  (split; [reflexivity | split; [reflexivity |]]); simpl;
  rewrite ?length_insert, ?length_app; lia.

Lemma view_consistent_keeps (s s' : State) :
  view_consistent s -> keeps_view s s' -> view_consistent s'.
Proof.
  intros [Hvalid Hsub] (Hm & Hf & Hlen). split.
  - rewrite Hm. eapply Forall_impl; [exact Hvalid |]. simpl. intros item Hi. lia.
  - rewrite Hm, Hf. exact Hsub.
Qed.

Lemma view_consistent_applySearch (s : State) :
  Forall (fun item => (item < length (heap s))%nat) (mediaItems s) ->
  view_consistent (applySearch s).
Proof.
  intros Hvalid. unfold applySearch.
  destruct (negb _); split; simpl; try exact Hvalid; try tauto.
  intros item Hin. apply filter_In in Hin. tauto.
Qed.

Lemma view_consistent_listed (h : list MediaItem) (items : list MediaItem) :
  Forall (fun item => (item < length (h ++ items))%nat) (seq (length h) (length items)).
Proof.
  apply Forall_forall. intros item Hin. apply elem_of_seq in Hin.
  rewrite length_app. lia.
Qed.

Lemma view_consistent_complete (s s' : State) (n : nat) (result : HttpResult Body) :
  view_consistent s -> complete n result s = Some s' -> view_consistent s'.
Proof.
  intros Hinv. unfold complete.
  destruct (inflight s !! n) as [r |] eqn:Hn; simpl; [| discriminate].
  destruct r as [f | | file t fid | item m0 flag | item m0 flag | item m0];
    destruct result as [[items | summary | up st | ok st] | e]; simpl;
    try discriminate;
    try (destruct (heap s !! item) as [it |] eqn:Hit; simpl; [| discriminate]);
    intros [= <-];
    try (eapply view_consistent_keeps; [exact Hinv |];
         unfold refresh_storage_or_reload, loadStorageSummary, loadMedia;
         keeps_view_tac).
  eapply view_consistent_keeps; [| split; [reflexivity | split; [reflexivity | lia]]].
  apply view_consistent_applySearch. simpl. apply view_consistent_listed.
Qed.

Lemma view_consistent_step (ev : Event) (s s' : State) :
  view_consistent s -> step ev s = Some s' -> view_consistent s'.
Proof.
  intros Hinv. destruct ev as [tab | q | | file now | item | item | item c | n result];
    unfold step.
  - intros [= <-]. eapply view_consistent_keeps; [exact Hinv |].
    unfold setActiveTab, loadMedia. keeps_view_tac.
  - intros [= <-]. apply view_consistent_applySearch. exact (proj1 Hinv).
  - intros [= <-]. apply view_consistent_applySearch. exact (proj1 Hinv).
  - intros [= <-]. eapply view_consistent_keeps; [exact Hinv |].
    unfold onFileSelected, uploadFile. keeps_view_tac.
  - unfold toggleFavorite. destruct (heap s !! item) as [it |]; simpl; [| discriminate].
    case_bool_decide; intros [= <-];
      (eapply view_consistent_keeps; [exact Hinv | unfold dispatch; keeps_view_tac]).
  - unfold toggleTrash. destruct (heap s !! item) as [it |]; simpl; [| discriminate].
    case_bool_decide; intros [= <-];
      (eapply view_consistent_keeps; [exact Hinv | unfold dispatch; keeps_view_tac]).
  - unfold deleteMedia. destruct (heap s !! item) as [it |]; simpl; [| discriminate].
    intros Hd. eapply view_consistent_keeps; [exact Hinv |].
    case_bool_decide; [injection Hd as <-; keeps_view_tac |].
    destruct c; injection Hd as <-; unfold dispatch; keeps_view_tac.
  - apply view_consistent_complete. exact Hinv.
Qed.

Lemma view_consistent_run (evs : list Event) (s s' : State) :
  view_consistent s -> run evs s = Some s' -> view_consistent s'.
Proof.
  revert s. induction evs as [| ev evs IH]; intros s Hinv; simpl.
  - intros [= <-]. exact Hinv.
  - destruct (step ev s) as [s1 |] eqn:Hstep; simpl; [| discriminate].
    apply IH. eapply view_consistent_step; eassumption.
Qed.

Lemma view_consistent_ngOnInit (auth : World) : view_consistent (ngOnInit (created auth)).
Proof. split; simpl; [constructor | tauto]. Qed.

End ViewConsistency.

(** X21: in every state the component can reach, each displayed item is
    one of the cached items and each cached item is a live item object;
    hence a favourite toggle, a trash toggle and a delete called on a
    displayed item always find their item. *)
Theorem displayed_items_are_cached
    (auth : World) (evs : list HomeComponent.Event) (s : HomeComponent.State) :
  HomeComponent.run evs (HomeComponent.ngOnInit (HomeComponent.created auth)) = Some s ->
  (forall item, In item (HomeComponent.filteredItems s) ->
     In item (HomeComponent.mediaItems s)) /\
  (forall item, In item (HomeComponent.mediaItems s) ->
     is_Some (HomeComponent.heap s !! item)) /\
  (forall item, In item (HomeComponent.filteredItems s) ->
     is_Some (HomeComponent.toggleFavorite item s) /\
     is_Some (HomeComponent.toggleTrash item s) /\
     forall confirmed, is_Some (HomeComponent.deleteMedia item confirmed s)).
Proof.
  intros Hrun.
  destruct (view_consistent_run evs _ s (view_consistent_ngOnInit auth) Hrun)
    as [Hvalid Hsub].
  assert (Hlive : forall item, In item (HomeComponent.mediaItems s) ->
                    is_Some (HomeComponent.heap s !! item)).
  { intros item Hin. apply lookup_lt_is_Some.
    rewrite Forall_forall in Hvalid. apply Hvalid, list_elem_of_In. exact Hin. }
  split; [exact Hsub |]. split; [exact Hlive |].
  intros item Hin. destruct (Hlive item (Hsub item Hin)) as [it Hit].
  unfold HomeComponent.toggleFavorite, HomeComponent.toggleTrash, HomeComponent.deleteMedia.
  rewrite Hit. simpl. repeat split; try intros confirmed;
    case_bool_decide; try destruct confirmed; eauto.
Qed.

Lemma displayed_items_are_cached_witness :
  exists s,
    HomeComponent.run double_click
      (HomeComponent.ngOnInit (HomeComponent.created empty_world)) = Some s /\
    is_Some (HomeComponent.toggleTrash 1 s).
Proof.
  destruct (HomeComponent.run double_click
              (HomeComponent.ngOnInit (HomeComponent.created empty_world)))
    as [s |] eqn:Hrun; [| vm_compute in Hrun; discriminate Hrun].
  exists s. split; [reflexivity |].
  apply (proj2 (proj2 (displayed_items_are_cached _ _ _ Hrun)) 1%nat).
  vm_compute in Hrun. injection Hrun as <-. simpl. tauto.
Defined.
